(** * Rehaish API: application, lease and payment lifecycle

    A shallow embedding of the request handlers of the rental marketplace
    backend (the application, lease and payment controllers and the
    authentication middleware) over a relational store whose tables follow
    the Prisma schema and its SQL migration.

    Conventions of the embedding:
    - a table is the list of its rows in storage order; [findFirst] returns
      the first row that satisfies the filter;
    - a [DateTime] is the integer number of milliseconds since the epoch, so
      the [lte]/[gte] filters are [<=?]/[>=?] on [Z];
    - a Prisma call that throws (primary key, unique or foreign key
      violation, record to update not found) is a computation without a
      result; the [try { ... } catch] of every handler turns it into the
      handler's 500 response and leaves the store as it was;
    - the row id produced by [@default(uuid())] and the clock read by
      [now()] and [new Date()] are inputs of a request ([Env]);
    - a JSON response keeps its HTTP status, its [code], its [message] and
      the part of [data] that identifies rows and statuses; the relations
      joined in by [include] for display are left out. *)

From Stdlib Require Import List String ZArith Bool Lia Permutation.
Import ListNotations.
Open Scope Z_scope.
Open Scope string_scope.

Set Implicit Arguments.

(** ** Enumerations of the schema *)

Module ApplicationStatus.
Inductive t := PENDING | APPROVED | REJECTED | WITHDRAWN.

Definition eqb (a b : t) : bool :=
  match a, b with
  | PENDING, PENDING | APPROVED, APPROVED
  | REJECTED, REJECTED | WITHDRAWN, WITHDRAWN => true
  | _, _ => false
  end.

Definition toString (a : t) : string :=
  match a with
  | PENDING => "PENDING"
  | APPROVED => "APPROVED"
  | REJECTED => "REJECTED"
  | WITHDRAWN => "WITHDRAWN"
  end.

Definition ofString (x : string) : option t :=
  if x =? "PENDING" then Some PENDING
  else if x =? "APPROVED" then Some APPROVED
  else if x =? "REJECTED" then Some REJECTED
  else if x =? "WITHDRAWN" then Some WITHDRAWN
  else None.
End ApplicationStatus.

Module LeaseStatus.
Inductive t := ACTIVE | TERMINATED | COMPLETED | PENDING_SIGNATURE.

Definition eqb (a b : t) : bool :=
  match a, b with
  | ACTIVE, ACTIVE | TERMINATED, TERMINATED
  | COMPLETED, COMPLETED | PENDING_SIGNATURE, PENDING_SIGNATURE => true
  | _, _ => false
  end.

Definition toString (a : t) : string :=
  match a with
  | ACTIVE => "ACTIVE"
  | TERMINATED => "TERMINATED"
  | COMPLETED => "COMPLETED"
  | PENDING_SIGNATURE => "PENDING_SIGNATURE"
  end.

Definition ofString (x : string) : option t :=
  if x =? "ACTIVE" then Some ACTIVE
  else if x =? "TERMINATED" then Some TERMINATED
  else if x =? "COMPLETED" then Some COMPLETED
  else if x =? "PENDING_SIGNATURE" then Some PENDING_SIGNATURE
  else None.
End LeaseStatus.

Module PaymentStatus.
Inductive t := PENDING | COMPLETED | FAILED | REFUNDED.
End PaymentStatus.

Module PaymentType.
Inductive t :=
  RENT | SECURITY_DEPOSIT | APPLICATION_FEE | LATE_FEE
  | MAINTENANCE_CHARGE | REFUND.
End PaymentType.

Module PaymentMethod.
Inductive t := BANK_TRANSFER | EASYPAY | JAZZCASH | CARD | WALLET | CASH.
End PaymentMethod.

Module Role.
Inductive t := tenant | manager | admin.

Definition eqb (a b : t) : bool :=
  match a, b with
  | tenant, tenant | manager, manager | admin, admin => true
  | _, _ => false
  end.
End Role.

(** ** Rows of the tables *)

Module Tenant.
Record t := mk
  { id : string; name : string; email : string; phoneNumber : string }.
End Tenant.

(** Of a property the handlers below read the key, the title and the owning
    manager. *)
Module Property.
Record t := mk { id : string; title : string; managerId : string }.
End Property.

Module Application.
Record t := mk
  { id : string;
    propertyId : string;
    tenantId : string;
    fullName : string;
    email : string;
    phoneNumber : string;
    message : option string;
    leaseId : option string;
    status : ApplicationStatus.t;
    createdAt : Z;
    updatedAt : Z }.
End Application.

Module Lease.
Record t := mk
  { id : string;
    propertyId : string;
    tenantId : string;
    applicationId : option string;
    startDate : Z;
    endDate : Z;
    rentAmount : Z;
    securityDeposit : Z;
    paymentDueDate : Z;
    leaseAgreementUrl : option string;
    status : LeaseStatus.t;
    createdAt : Z;
    updatedAt : Z }.
End Lease.

Module Payment.
Record t := mk
  { id : string;
    tenantId : string;
    leaseId : option string;
    propertyId : option string;
    amount : Z;
    currency : string;
    paymentType : PaymentType.t;
    status : PaymentStatus.t;
    method : PaymentMethod.t;
    paymentDate : Z;
    referenceId : option string;
    receiptUrl : option string;
    note : option string;
    createdAt : Z;
    updatedAt : Z }.
End Payment.

(** ** The store *)

Record Store := mkStore
  { tenants : list Tenant.t;
    properties : list Property.t;
    applications : list Application.t;
    leases : list Lease.t;
    payments : list Payment.t }.

(** What a request receives from its environment: the identifier generated
    for a row it inserts and the current time. *)
Record Env := mkEnv { uuid : string; now : Z }.

(** [req.user], as the authentication middleware attaches it. *)
Module User.
Record t := mk
  { id : string;
    email : string;
    role : Role.t;
    emailVerified : bool;
    name : option string;
    phoneNumber : option string }.
End User.

(** ** Database computations *)

Definition Db (A : Type) : Type := Store -> option (A * Store).

Definition ret {A} (a : A) : Db A := fun s => Some (a, s).

Definition bind {A B} (m : Db A) (k : A -> Db B) : Db B :=
  fun s => match m s with
           | Some (a, s') => k a s'
           | None => None
           end.

Definition throw {A} : Db A := fun _ => None.

Definition gets {A} (f : Store -> A) : Db A := fun s => Some (f s, s).

Notation "x <- m ;; k" := (bind m (fun x => k))
  (at level 61, m at next level, right associativity).

(** [try { body } catch (error) { res.status(500).json(onError) }] *)
Definition tryCatch {A} (body : Db A) (onError : A) (s : Store) : A * Store :=
  match body s with
  | Some r => r
  | None => (onError, s)
  end.

(** A JavaScript condition on an optional string: [undefined] and the empty
    string are falsy. *)
Definition truthy (o : option string) : bool :=
  match o with
  | Some x => negb (x =? "")
  | None => false
  end.

(** A [where] field whose value is [undefined] does not filter. *)
Definition whereEq (o : option string) (v : string) : bool :=
  match o with
  | Some x => x =? v
  | None => true
  end.

Definition optEqb (o : option string) (v : string) : bool :=
  match o with
  | Some x => x =? v
  | None => false
  end.

Definition hasId {A} (key : A -> string) (i : string) (rows : list A) : bool :=
  existsb (fun r => key r =? i) rows.

(** A foreign key column that may be NULL. *)
Definition refOk {A} (key : A -> string) (o : option string) (rows : list A)
  : bool :=
  match o with
  | Some i => hasId key i rows
  | None => true
  end.

(** The relation filter [property: { managerId }]. *)
Definition propertyManagedBy (s : Store) (propertyId managerId : string) : bool :=
  existsb (fun p => (Property.id p =? propertyId)
                    && (Property.managerId p =? managerId))
          (properties s).

(** The row written by [update({ where: { id }, data: { status, updatedAt } })]
    on an application, and the table after the update. *)
Definition setApplicationStatus (st : ApplicationStatus.t) (at_ : Z)
  (a : Application.t) : Application.t :=
  Application.mk (Application.id a) (Application.propertyId a)
    (Application.tenantId a) (Application.fullName a)
    (Application.email a) (Application.phoneNumber a)
    (Application.message a) (Application.leaseId a)
    st (Application.createdAt a) at_.

Definition applicationsWithStatus (applicationId : string)
  (st : ApplicationStatus.t) (at_ : Z) (rows : list Application.t)
  : list Application.t :=
  map (fun r => if Application.id r =? applicationId
                then setApplicationStatus st at_ r else r) rows.

(** The same for a lease. *)
Definition setLeaseStatus (st : LeaseStatus.t) (at_ : Z) (l : Lease.t)
  : Lease.t :=
  Lease.mk (Lease.id l) (Lease.propertyId l) (Lease.tenantId l)
    (Lease.applicationId l) (Lease.startDate l) (Lease.endDate l)
    (Lease.rentAmount l) (Lease.securityDeposit l)
    (Lease.paymentDueDate l) (Lease.leaseAgreementUrl l)
    st (Lease.createdAt l) at_.

Definition leasesWithStatus (leaseId : string) (st : LeaseStatus.t) (at_ : Z)
  (rows : list Lease.t) : list Lease.t :=
  map (fun r => if Lease.id r =? leaseId then setLeaseStatus st at_ r else r)
      rows.

Module prisma.

Module property.

Definition findUnique (id : string) : Db (option Property.t) :=
  gets (fun s => find (fun p => Property.id p =? id) (properties s)).

Definition findFirst (where_ : Property.t -> bool) : Db (option Property.t) :=
  gets (fun s => find where_ (properties s)).

End property.

Module application.

Definition findFirst (where_ : Store -> Application.t -> bool)
  : Db (option Application.t) :=
  gets (fun s => find (where_ s) (applications s)).

(** Insert a row: the primary key is new and both references exist. *)
Definition create (row : Application.t) : Db Application.t :=
  fun s =>
    if hasId Application.id (Application.id row) (applications s) then None
    else if negb (hasId Property.id (Application.propertyId row) (properties s))
    then None
    else if negb (hasId Tenant.id (Application.tenantId row) (tenants s))
    then None
    else Some (row, mkStore (tenants s) (properties s)
                            (applications s ++ [row])
                            (leases s) (payments s)).

(** [update({ where: { id }, data: { status, updatedAt } })]: throws when no
    row has the key. *)
Definition update (id : string) (st : ApplicationStatus.t) (at_ : Z)
  : Db Application.t :=
  fun s =>
    match find (fun a => Application.id a =? id) (applications s) with
    | None => None
    | Some a =>
      Some (setApplicationStatus st at_ a,
            mkStore (tenants s) (properties s)
                    (applicationsWithStatus id st at_ (applications s))
                    (leases s) (payments s))
    end.

End application.

Module lease.

Definition findFirst (where_ : Store -> Lease.t -> bool)
  : Db (option Lease.t) :=
  gets (fun s => find (where_ s) (leases s)).

(** [findUnique({ where: { applicationId } })] *)
Definition findUnique (applicationId : string) : Db (option Lease.t) :=
  gets (fun s => find (fun l => optEqb (Lease.applicationId l) applicationId)
                      (leases s)).

(** Insert a row: new primary key, existing property and tenant, and an
    application reference that exists and is not yet used by a lease. *)
Definition create (row : Lease.t) : Db Lease.t :=
  fun s =>
    if hasId Lease.id (Lease.id row) (leases s) then None
    else if negb (hasId Property.id (Lease.propertyId row) (properties s))
    then None
    else if negb (hasId Tenant.id (Lease.tenantId row) (tenants s))
    then None
    else if negb (refOk Application.id (Lease.applicationId row)
                        (applications s))
    then None
    else if match Lease.applicationId row with
            | Some a => existsb (fun l => optEqb (Lease.applicationId l) a)
                                (leases s)
            | None => false
            end
    then None
    else Some (row, mkStore (tenants s) (properties s) (applications s)
                            (leases s ++ [row]) (payments s)).

(** [update({ where: { id }, data: { status, updatedAt } })]: throws when no
    row has the key. *)
Definition update (id : string) (st : LeaseStatus.t) (at_ : Z) : Db Lease.t :=
  fun s =>
    match find (fun l => Lease.id l =? id) (leases s) with
    | None => None
    | Some l =>
      Some (setLeaseStatus st at_ l,
            mkStore (tenants s) (properties s) (applications s)
                    (leasesWithStatus id st at_ (leases s))
                    (payments s))
    end.

End lease.

Module payment.

(** Insert a row: new primary key, existing tenant, and lease and property
    references that exist when they are given. *)
Definition create (row : Payment.t) : Db Payment.t :=
  fun s =>
    if hasId Payment.id (Payment.id row) (payments s) then None
    else if negb (hasId Tenant.id (Payment.tenantId row) (tenants s))
    then None
    else if negb (refOk Lease.id (Payment.leaseId row) (leases s))
    then None
    else if negb (refOk Property.id (Payment.propertyId row) (properties s))
    then None
    else Some (row, mkStore (tenants s) (properties s) (applications s)
                            (leases s) (payments s ++ [row])).

End payment.

End prisma.

(** ** JSON responses *)

Inductive Data :=
| NoData
| ExistingLease (id : string) (status : LeaseStatus.t) (createdAt : Z)
| ConflictingLease (id : string) (startDate endDate : Z)
| AllowedStatuses (allowedStatuses : list string)
| StatusTransition (currentStatus : LeaseStatus.t) (requestedStatus : string)
    (allowedTransitions : list string)
| ExistingApplication (id : string) (status : ApplicationStatus.t)
    (createdAt : Z)
| CurrentStatus (currentStatus : ApplicationStatus.t) (allowedStatus : string)
| LeaseCreated (lease : Lease.t)
| LeaseUpdated (lease : Lease.t) (from : LeaseStatus.t) (to : string)
    (updatedAt : Z)
| ApplicationSubmitted (application : Application.t)
| ApplicationWithdrawn (application : Application.t) (withdrawnAt : Z)
| ApplicationUpdated (application : Application.t) (updatedAt : Z)
    (previousStatus : ApplicationStatus.t) (newStatus : string)
| PaymentCreated (payment : Payment.t).

Module Response.
Record t := mk
  { status : Z;
    success : bool;
    message : string;
    code : option string;
    data : Data }.

(** [res.status(st).json({ success: false, message, code, data })] *)
Definition failure (st : Z) (message code : string) (data : Data) : t :=
  mk st false message (Some code) data.

(** [res.status(st).json({ success: true, message, data })] *)
Definition ok (st : Z) (message : string) (data : Data) : t :=
  mk st true message None data.
End Response.

Definition authRequired : Response.t :=
  Response.failure 401 "Authentication required" "AUTH_REQUIRED" NoData.

Definition managerRequired : Response.t :=
  Response.failure 403 "Access denied. Manager role required." "ACCESS_DENIED"
    NoData.

Definition tenantRequired : Response.t :=
  Response.failure 403 "Access denied. Tenant role required." "ACCESS_DENIED"
    NoData.

(** [Array.prototype.includes] on an array of strings. *)
Definition includes (xs : list string) (x : string) : bool :=
  existsb (fun y => y =? x) xs.

(** ** The lease controller: createLease, updateLeaseStatus *)

Module CreateLeaseInput.
Record t := mk
  { propertyId : string;
    tenantId : string;
    applicationId : option string;
    startDate : Z;
    endDate : Z;
    rentAmount : Z;
    securityDeposit : Z;
    paymentDueDate : Z;
    leaseAgreementUrl : option string }.
End CreateLeaseInput.

(** The filter of the application lookup of [createLease]:
    [{ id: leaseData.applicationId, status: "APPROVED", property: { managerId } }] *)
Definition approvedApplicationOf (applicationId : option string)
  (managerId : string) (s : Store) (a : Application.t) : bool :=
  whereEq applicationId (Application.id a)
  && ApplicationStatus.eqb (Application.status a) ApplicationStatus.APPROVED
  && propertyManagedBy s (Application.propertyId a) managerId.

(** The filter of the date conflict lookup of [createLease]:
    [{ propertyId, status: "ACTIVE",
       OR: [{ AND: [{ startDate: { lte: endDate } },
                    { endDate: { gte: startDate } }] }] }] *)
Definition activeLeaseDuring (propertyId : string) (startDate endDate : Z)
  (l : Lease.t) : bool :=
  (Lease.propertyId l =? propertyId)
  && LeaseStatus.eqb (Lease.status l) LeaseStatus.ACTIVE
  && ((Lease.startDate l <=? endDate)%Z && (Lease.endDate l >=? startDate)%Z).

Definition newLease (env : Env) (application : Application.t)
  (leaseData : CreateLeaseInput.t) : Lease.t :=
  Lease.mk (uuid env)
    (Application.propertyId application)
    (Application.tenantId application)
    (Some (Application.id application))
    (CreateLeaseInput.startDate leaseData)
    (CreateLeaseInput.endDate leaseData)
    (CreateLeaseInput.rentAmount leaseData)
    (CreateLeaseInput.securityDeposit leaseData)
    (CreateLeaseInput.paymentDueDate leaseData)
    (CreateLeaseInput.leaseAgreementUrl leaseData)
    LeaseStatus.PENDING_SIGNATURE
    (now env) (now env).

Definition createLease (env : Env) (user : option User.t)
  (leaseData : CreateLeaseInput.t) : Store -> Response.t * Store :=
  tryCatch
    (match user with
     | None => ret authRequired
     | Some u =>
       if negb (Role.eqb (User.role u) Role.manager) then ret managerRequired
       else
         let managerId := User.id u in
         application <-
           prisma.application.findFirst
             (approvedApplicationOf (CreateLeaseInput.applicationId leaseData)
                                    managerId) ;;
         match application with
         | None =>
           ret (Response.failure 404
                  "Approved application not found or access denied"
                  "APPLICATION_NOT_FOUND" NoData)
         | Some application =>
           existingLease <-
             prisma.lease.findUnique (Application.id application) ;;
           match existingLease with
           | Some existingLease =>
             ret (Response.failure 409
                    "Lease already exists for this application"
                    "LEASE_EXISTS"
                    (ExistingLease (Lease.id existingLease)
                                   (Lease.status existingLease)
                                   (Lease.createdAt existingLease)))
           | None =>
             conflictingLease <-
               prisma.lease.findFirst
                 (fun _ =>
                    activeLeaseDuring (Application.propertyId application)
                      (CreateLeaseInput.startDate leaseData)
                      (CreateLeaseInput.endDate leaseData)) ;;
             match conflictingLease with
             | Some conflictingLease =>
               ret (Response.failure 409
                      "Property already has an active lease during this period"
                      "LEASE_CONFLICT"
                      (ConflictingLease (Lease.id conflictingLease)
                                        (Lease.startDate conflictingLease)
                                        (Lease.endDate conflictingLease)))
             | None =>
               lease <- prisma.lease.create (newLease env application leaseData) ;;
               ret (Response.ok 201 "Lease created successfully"
                      (LeaseCreated lease))
             end
           end
         end
     end)
    (Response.failure 500 "Failed to create lease" "LEASE_CREATE_FAILED" NoData).

Definition validStatuses : list string := ["ACTIVE"; "TERMINATED"; "COMPLETED"].

Definition validTransitions (currentStatus : LeaseStatus.t) : list string :=
  match currentStatus with
  | LeaseStatus.PENDING_SIGNATURE => ["ACTIVE"; "TERMINATED"]
  | LeaseStatus.ACTIVE => ["TERMINATED"; "COMPLETED"]
  | LeaseStatus.TERMINATED => []
  | LeaseStatus.COMPLETED => []
  end.

(** The filter of the lease lookup of [updateLeaseStatus]:
    [{ id: leaseId, property: { managerId } }] *)
Definition leaseManagedBy (leaseId managerId : string) (s : Store) (l : Lease.t)
  : bool :=
  (Lease.id l =? leaseId) && propertyManagedBy s (Lease.propertyId l) managerId.

Definition updateLeaseStatus (env : Env) (user : option User.t)
  (leaseId : string) (status : string) : Store -> Response.t * Store :=
  tryCatch
    (match user with
     | None => ret authRequired
     | Some u =>
       if negb (Role.eqb (User.role u) Role.manager) then ret managerRequired
       else
         let managerId := User.id u in
         if negb (includes validStatuses status) then
           ret (Response.failure 400 "Invalid status" "INVALID_STATUS"
                  (AllowedStatuses validStatuses))
         else
           lease <- prisma.lease.findFirst (leaseManagedBy leaseId managerId) ;;
           match lease with
           | None =>
             ret (Response.failure 404 "Lease not found or access denied"
                    "LEASE_NOT_FOUND" NoData)
           | Some lease =>
             let currentStatus := Lease.status lease in
             if negb (includes (validTransitions currentStatus) status) then
               ret (Response.failure 400
                      ("Cannot transition from "
                         ++ LeaseStatus.toString currentStatus
                         ++ " to " ++ status)
                      "INVALID_STATUS_TRANSITION"
                      (StatusTransition currentStatus status
                                        (validTransitions currentStatus)))
             else
               match LeaseStatus.ofString status with
               | None => throw
               | Some newStatus =>
                 updatedLease <-
                   prisma.lease.update leaseId newStatus (now env) ;;
                 ret (Response.ok 200 ("Lease status updated to " ++ status)
                        (LeaseUpdated updatedLease currentStatus status
                                      (now env)))
               end
           end
     end)
    (Response.failure 500 "Failed to update lease status"
       "LEASE_STATUS_UPDATE_FAILED" NoData).


(** ** controllers/applicationController.ts *)

Module CreateApplicationInput.
Record t := mk
  { propertyId : string;
    fullName : string;
    email : string;
    phoneNumber : string;
    message : option string }.
End CreateApplicationInput.

(** The [data] of the [create] call of [submitApplication]. *)
Definition newApplication (env : Env) (tenantId : string)
  (applicationData : CreateApplicationInput.t) : Application.t :=
  Application.mk (uuid env)
    (CreateApplicationInput.propertyId applicationData)
    tenantId
    (CreateApplicationInput.fullName applicationData)
    (CreateApplicationInput.email applicationData)
    (CreateApplicationInput.phoneNumber applicationData)
    (CreateApplicationInput.message applicationData)
    None ApplicationStatus.PENDING (now env) (now env).

Definition submitApplication (env : Env) (user : option User.t)
  (applicationData : CreateApplicationInput.t) : Store -> Response.t * Store :=
  tryCatch
    (match user with
     | None => ret authRequired
     | Some u =>
       if negb (Role.eqb (User.role u) Role.tenant) then ret tenantRequired
       else
         let tenantId := User.id u in
         property <-
           prisma.property.findUnique
             (CreateApplicationInput.propertyId applicationData) ;;
         match property with
         | None =>
           ret (Response.failure 404 "Property not found" "PROPERTY_NOT_FOUND"
                  NoData)
         | Some property =>
           existingApplication <-
             prisma.application.findFirst
               (fun _ a =>
                  (Application.propertyId a
                     =? CreateApplicationInput.propertyId applicationData)
                  && (Application.tenantId a =? tenantId)) ;;
           match existingApplication with
           | Some existingApplication =>
             ret (Response.failure 409
                    "You have already applied for this property"
                    "APPLICATION_EXISTS"
                    (ExistingApplication
                       (Application.id existingApplication)
                       (Application.status existingApplication)
                       (Application.createdAt existingApplication)))
           | None =>
             application <-
               prisma.application.create
                 (newApplication env tenantId applicationData) ;;
             ret (Response.ok 201 "Application submitted successfully"
                    (ApplicationSubmitted application))
           end
         end
     end)
    (Response.failure 500 "Failed to submit application"
       "APPLICATION_SUBMIT_FAILED" NoData).

Definition withdrawApplication (env : Env) (user : option User.t)
  (applicationId : string) : Store -> Response.t * Store :=
  tryCatch
    (match user with
     | None => ret authRequired
     | Some u =>
       if negb (Role.eqb (User.role u) Role.tenant) then ret tenantRequired
       else
         let tenantId := User.id u in
         application <-
           prisma.application.findFirst
             (fun _ a => (Application.id a =? applicationId)
                         && (Application.tenantId a =? tenantId)) ;;
         match application with
         | None =>
           ret (Response.failure 404 "Application not found or access denied"
                  "APPLICATION_NOT_FOUND" NoData)
         | Some application =>
           if negb (ApplicationStatus.eqb (Application.status application)
                      ApplicationStatus.PENDING)
           then
             ret (Response.failure 400
                    ("Cannot withdraw application with status: "
                       ++ ApplicationStatus.toString
                            (Application.status application))
                    "INVALID_STATUS_FOR_WITHDRAWAL"
                    (CurrentStatus (Application.status application) "PENDING"))
           else
             withdrawnApplication <-
               prisma.application.update applicationId
                 ApplicationStatus.WITHDRAWN (now env) ;;
             ret (Response.ok 200 "Application withdrawn successfully"
                    (ApplicationWithdrawn withdrawnApplication (now env)))
         end
     end)
    (Response.failure 500 "Failed to withdraw application"
       "APPLICATION_WITHDRAW_FAILED" NoData).

(** [String.prototype.toLowerCase] on the ASCII letters. *)
Definition lowerAscii (c : Ascii.ascii) : Ascii.ascii :=
  let n := Ascii.nat_of_ascii c in
  if ((65 <=? n) && (n <=? 90))%nat then Ascii.ascii_of_nat (n + 32) else c.

Fixpoint toLowerCase (x : string) : string :=
  match x with
  | EmptyString => EmptyString
  | String c rest => String (lowerAscii c) (toLowerCase rest)
  end.

(** The filter of the application lookup of [updateApplicationStatus]:
    [{ id: applicationId, property: { managerId } }] *)
Definition applicationManagedBy (applicationId managerId : string) (s : Store)
  (a : Application.t) : bool :=
  (Application.id a =? applicationId)
  && propertyManagedBy s (Application.propertyId a) managerId.

Definition updateApplicationStatus (env : Env) (user : option User.t)
  (applicationId : string) (status : string) : Store -> Response.t * Store :=
  tryCatch
    (match user with
     | None => ret authRequired
     | Some u =>
       if negb (Role.eqb (User.role u) Role.manager) then ret managerRequired
       else
         let managerId := User.id u in
         if negb (includes ["APPROVED"; "REJECTED"] status) then
           ret (Response.failure 400
                  "Invalid status. Must be APPROVED or REJECTED"
                  "INVALID_STATUS"
                  (AllowedStatuses ["APPROVED"; "REJECTED"]))
         else
           application <-
             prisma.application.findFirst
               (applicationManagedBy applicationId managerId) ;;
           match application with
           | None =>
             ret (Response.failure 404
                    "Application not found or access denied"
                    "APPLICATION_NOT_FOUND" NoData)
           | Some application =>
             if negb (ApplicationStatus.eqb (Application.status application)
                        ApplicationStatus.PENDING)
             then
               ret (Response.failure 400
                      ("Cannot update application with status: "
                         ++ ApplicationStatus.toString
                              (Application.status application))
                      "INVALID_STATUS_FOR_UPDATE"
                      (CurrentStatus (Application.status application)
                                     "PENDING"))
             else
               match ApplicationStatus.ofString status with
               | None => throw
               | Some newStatus =>
                 updatedApplication <-
                   prisma.application.update applicationId newStatus
                     (now env) ;;
                 ret (Response.ok 200
                        ("Application " ++ toLowerCase status
                           ++ " successfully")
                        (ApplicationUpdated updatedApplication (now env)
                           (Application.status application) status))
               end
           end
     end)
    (Response.failure 500 "Failed to update application status"
       "APPLICATION_STATUS_UPDATE_FAILED" NoData).

(** ** controllers/paymentController.ts *)

Module CreatePaymentInput.
Record t := mk
  { leaseId : option string;
    propertyId : option string;
    amount : Z;
    paymentType : PaymentType.t;
    method : PaymentMethod.t;
    paymentDate : Z;
    referenceId : option string;
    note : option string }.
End CreatePaymentInput.

(** The relations joined to a lease by [include: { tenant, property }]. *)
Definition leaseTenant (s : Store) (l : Lease.t) : option Tenant.t :=
  find (fun t => Tenant.id t =? Lease.tenantId l) (tenants s).

Definition leaseProperty (s : Store) (l : Lease.t) : option Property.t :=
  find (fun p => Property.id p =? Lease.propertyId l) (properties s).

(** The filters of the two lookups of [createPaymentRecord]:
    [{ id: paymentData.leaseId, property: { managerId } }] on leases and
    [{ id: paymentData.propertyId, managerId }] on properties. *)
Definition paymentLeaseOf (paymentData : CreatePaymentInput.t)
  (managerId : string) (s : Store) (l : Lease.t) : bool :=
  whereEq (CreatePaymentInput.leaseId paymentData) (Lease.id l)
  && propertyManagedBy s (Lease.propertyId l) managerId.

Definition paymentPropertyOf (paymentData : CreatePaymentInput.t)
  (managerId : string) (p : Property.t) : bool :=
  whereEq (CreatePaymentInput.propertyId paymentData) (Property.id p)
  && (Property.managerId p =? managerId).

(** The [data] of the [create] call of [createPaymentRecord]. *)
Definition newPayment (env : Env) (tenant : Tenant.t)
  (property : option Property.t) (paymentData : CreatePaymentInput.t)
  : Payment.t :=
  Payment.mk (uuid env) (Tenant.id tenant)
    (CreatePaymentInput.leaseId paymentData)
    (if truthy (CreatePaymentInput.propertyId paymentData)
     then CreatePaymentInput.propertyId paymentData
     else option_map Property.id property)
    (CreatePaymentInput.amount paymentData)
    "PKR"
    (CreatePaymentInput.paymentType paymentData)
    PaymentStatus.PENDING
    (CreatePaymentInput.method paymentData)
    (CreatePaymentInput.paymentDate paymentData)
    (CreatePaymentInput.referenceId paymentData)
    None
    (CreatePaymentInput.note paymentData)
    (now env) (now env).

(** The three locals [lease], [property], [tenant] of [createPaymentRecord]
    once the reference of the request has been resolved, or the response
    that ended the request before. *)
Definition PaymentContext : Type :=
  Response.t + (option Lease.t * option Property.t * option Tenant.t).

Definition resolvePaymentContext (managerId : string)
  (paymentData : CreatePaymentInput.t) : Db PaymentContext :=
  if truthy (CreatePaymentInput.leaseId paymentData) then
    lease <-
      prisma.lease.findFirst (paymentLeaseOf paymentData managerId) ;;
    match lease with
    | None =>
      ret (inl (Response.failure 404 "Lease not found or access denied"
                  "LEASE_NOT_FOUND" NoData))
    | Some lease =>
      tenant <- gets (fun s => leaseTenant s lease) ;;
      property <- gets (fun s => leaseProperty s lease) ;;
      ret (inr (Some lease, property, tenant))
    end
  else if truthy (CreatePaymentInput.propertyId paymentData) then
    property <-
      prisma.property.findFirst (paymentPropertyOf paymentData managerId) ;;
    match property with
    | None =>
      ret (inl (Response.failure 404 "Property not found or access denied"
                  "PROPERTY_NOT_FOUND" NoData))
    | Some property => ret (inr (None, Some property, None))
    end
  else
    ret (inl (Response.failure 400 "Either leaseId or propertyId is required"
                "MISSING_REFERENCE" NoData)).

Definition createPaymentRecord (env : Env) (user : option User.t)
  (paymentData : CreatePaymentInput.t) : Store -> Response.t * Store :=
  tryCatch
    (match user with
     | None => ret authRequired
     | Some u =>
       if negb (Role.eqb (User.role u) Role.manager) then ret managerRequired
       else
         let managerId := User.id u in
         context <- resolvePaymentContext managerId paymentData ;;
         match context with
         | inl response => ret response
         | inr (lease, property, tenant) =>
           tenant <-
             match tenant, lease with
             | None, Some lease => gets (fun s => leaseTenant s lease)
             | _, _ => ret tenant
             end ;;
           match tenant with
           | None =>
             ret (Response.failure 400
                    "Tenant information is required for payment records"
                    "TENANT_REQUIRED" NoData)
           | Some tenant =>
             payment <-
               prisma.payment.create
                 (newPayment env tenant property paymentData) ;;
             ret (Response.ok 201 "Payment record created successfully"
                    (PaymentCreated payment))
           end
         end
     end)
    (Response.failure 500 "Failed to create payment record"
       "PAYMENT_CREATE_FAILED" NoData).

(** ** middleware/auth.ts *)

Module CognitoTokenPayload.
Record t := mk
  { sub : string;
    email : string;
    email_verified : bool;
    custom_role : option string;
    name : option string;
    phone_number : option string;
    aud : string;
    iss : string;
    exp : Z;
    iat : Z;
    token_use : string }.
End CognitoTokenPayload.

(** What [jwt.decode(token, { complete: true })] returns for a well-formed
    token: the header's key id, the payload and the signature part. *)
Module Jwt.
Record t := mk
  { kid : option string;
    payload : CognitoTokenPayload.t;
    signature : string }.
End Jwt.

(** An [Error] that a library call throws. *)
Module JsError.
Record t := mk
  { isJsonWebTokenError : bool;
    message : string }.
End JsError.

(** What a call of [jwt.decode] comes to: the parts of a token, [null] for
    a string that is not a token, or an error thrown while the token is
    read. *)
Inductive Decoding :=
| Decoded (jwt : Jwt.t)
| NotAToken
| Thrown (error : JsError.t).

(** What reading a member of the key table gives: a PEM text stored under
    the name, a member inherited from [Object.prototype], or [undefined]. *)
Inductive Member :=
| Own (pem : string)
| Inherited
| Undefined.

Definition memberTruthy (m : Member) : bool :=
  match m with
  | Own pem => truthy (Some pem)
  | Inherited => true
  | Undefined => false
  end.

Inductive Outcome :=
| Next (user : User.t)
| Reply (response : Response.t).

(** [String.prototype.includes] *)
Fixpoint strIncludes (part x : string) : bool :=
  if String.prefix part x then true
  else match x with
       | EmptyString => false
       | String _ rest => strIncludes part rest
       end.

Definition startsWith (part x : string) : bool := String.prefix part x.

(** [x.substring(n)] *)
Definition substringFrom (n : nat) (x : string) : string :=
  String.substring n (String.length x - n) x.

Definition extractUserRole (tokenPayload : CognitoTokenPayload.t) : Role.t :=
  match CognitoTokenPayload.custom_role tokenPayload with
  | None => Role.tenant
  | Some role =>
    if role =? "" then Role.tenant
    else if role =? "tenant" then Role.tenant
    else if role =? "manager" then Role.manager
    else if role =? "admin" then Role.admin
    else Role.tenant
  end.

(** The [user] object that [authenticate] attaches to the request. *)
Definition userOfPayload (tokenPayload : CognitoTokenPayload.t) : User.t :=
  User.mk (CognitoTokenPayload.sub tokenPayload)
    (CognitoTokenPayload.email tokenPayload)
    (extractUserRole tokenPayload)
    (CognitoTokenPayload.email_verified tokenPayload)
    (CognitoTokenPayload.name tokenPayload)
    (CognitoTokenPayload.phone_number tokenPayload).

Section Authentication.

(** [jwt.decode] of the jsonwebtoken package. *)
Variable jwt_decode : string -> Decoding.

(** The result of [getCognitoPublicKeys]: the key id to PEM table served
    from the cache or fetched from the identity provider, or nothing when
    the fetch fails. *)
Variable publicKeys : option (list (string * string)).

(** The PEM text that the key table holds under [keyId] as a property of
    its own; the table lists the assignments, the latest in front. *)
Definition lookupKey (keys : list (string * string)) (keyId : string)
  : option string :=
  option_map snd (find (fun entry => fst entry =? keyId) keys).

(** The string-keyed members of [Object.prototype], which the key table, a
    plain object, inherits. *)
Definition objectPrototypeMembers : list string :=
  [ "constructor"; "__defineGetter__"; "__defineSetter__"; "hasOwnProperty";
    "__lookupGetter__"; "__lookupSetter__"; "isPrototypeOf";
    "propertyIsEnumerable"; "toString"; "valueOf"; "__proto__";
    "toLocaleString" ].

(** [publicKeys[keyId]]: the property of the table itself, else the member
    of that name of the prototype. *)
Definition memberAt (keys : list (string * string)) (keyId : string)
  : Member :=
  match lookupKey keys keyId with
  | Some pem => Own pem
  | None => if includes objectPrototypeMembers keyId then Inherited
            else Undefined
  end.

(** The message of the error that leaves the [catch] of [verifyToken]. *)
Definition rethrown (error : JsError.t) : string :=
  if JsError.isJsonWebTokenError error then "Invalid or expired token"
  else JsError.message error.

(** The message of the [Error] thrown, or the payload returned. *)
Definition verifyToken (token : string) : string + CognitoTokenPayload.t :=
  let token :=
    if startsWith "Bearer " token then substringFrom 7 token else token in
  match jwt_decode token with
  | Thrown error => inl (rethrown error)
  | NotAToken => inl "Invalid token format"
  | Decoded decodedHeader =>
    if negb (truthy (Jwt.kid decodedHeader)) then inl "Invalid token format"
    else
      match publicKeys with
      | None => inl "Failed to fetch authentication keys"
      | Some keys =>
        let publicKey :=
          match Jwt.kid decodedHeader with
          | Some keyId => memberAt keys keyId
          | None => Undefined
          end in
        if negb (memberTruthy publicKey)
        then inl "Public key not found for token"
        else
          match jwt_decode token with
          | Decoded decoded => inr (Jwt.payload decoded)
          | NotAToken => inl "Cannot read properties of null (reading 'sub')"
          | Thrown error => inl (rethrown error)
          end
      end
  end.

Definition authenticate (authorization : option string) : Outcome :=
  match authorization with
  | None =>
    Reply (Response.failure 401 "Authorization token required"
             "AUTH_TOKEN_MISSING" NoData)
  | Some authHeader =>
    if negb (truthy (Some authHeader)) || negb (startsWith "Bearer " authHeader)
    then
      Reply (Response.failure 401 "Authorization token required"
               "AUTH_TOKEN_MISSING" NoData)
    else
      let token := substringFrom 7 authHeader in
      match verifyToken token with
      | inr tokenPayload =>
        Next (userOfPayload tokenPayload)
      | inl errorMessage =>
        if strIncludes "expired" errorMessage then
          Reply (Response.failure 401 "Token has expired"
                   "AUTH_TOKEN_EXPIRED" NoData)
        else if strIncludes "Invalid" errorMessage then
          Reply (Response.failure 401 "Invalid authentication token"
                   "AUTH_TOKEN_INVALID" NoData)
        else
          Reply (Response.failure 401 "Authentication failed" "AUTH_FAILED"
                   NoData)
      end
  end.

End Authentication.

(** ** Sequential runs of the API *)

Inductive Call :=
| SubmitApplication (user : option User.t) (body : CreateApplicationInput.t)
| WithdrawApplication (user : option User.t) (id : string)
| UpdateApplicationStatus (user : option User.t) (id : string) (status : string)
| CreateLease (user : option User.t) (body : CreateLeaseInput.t)
| UpdateLeaseStatus (user : option User.t) (id : string) (status : string)
| CreatePaymentRecord (user : option User.t) (body : CreatePaymentInput.t).

Definition handle (env : Env) (c : Call) : Store -> Response.t * Store :=
  match c with
  | SubmitApplication user body => submitApplication env user body
  | WithdrawApplication user id => withdrawApplication env user id
  | UpdateApplicationStatus user id status =>
    updateApplicationStatus env user id status
  | CreateLease user body => createLease env user body
  | UpdateLeaseStatus user id status => updateLeaseStatus env user id status
  | CreatePaymentRecord user body => createPaymentRecord env user body
  end.

(** The store after the requests of a list have been served one after the
    other. *)
Fixpoint run (requests : list (Env * Call)) (s : Store) : Store :=
  match requests with
  | [] => s
  | (env, c) :: rest => run rest (snd (handle env c s))
  end.

(** The invariant of the data model: two different ACTIVE leases of one
    property do not overlap. *)
Definition overlap (existing other : Lease.t) : bool :=
  ((Lease.startDate existing <=? Lease.endDate other)%Z
   && (Lease.endDate existing >=? Lease.startDate other)%Z).

Definition bothActiveOnOneProperty (a b : Lease.t) : bool :=
  (Lease.propertyId a =? Lease.propertyId b)
  && LeaseStatus.eqb (Lease.status a) LeaseStatus.ACTIVE
  && LeaseStatus.eqb (Lease.status b) LeaseStatus.ACTIVE.

Definition noOverlappingActiveLeases (s : Store) : Prop :=
  forall a b, In a (leases s) -> In b (leases s) ->
    Lease.id a <> Lease.id b ->
    bothActiveOnOneProperty a b = true -> overlap a b = false.

(** * The rest of the middleware and of the payment and lease controllers *)


(** ** middleware/auth.ts: key cache, authorize, optionalAuth,
    requireEmailVerified *)

(** An entry of the [keys] array of the JWKS document; of a key the code
    reads [kid] and [n]. *)
Module JwksKey.
Record t := mk { kid : option string; n : option string }.
End JwksKey.

(** What [axios.get(jwksUrl)] resolves to: nothing when the request fails
    or times out, else [response.data.keys] (nothing when [data] or [keys]
    is absent). *)
Definition JwksResponse : Type := option (option (list JwksKey.t)).

(** The module variables [cognitoKeysCache] and [cacheExpiry]. *)
Module KeyCache.
Record t := mk
  { cognitoKeysCache : option (list (string * string));
    cacheExpiry : Z }.

End KeyCache.

Definition CACHE_DURATION : Z := 3600000.

Definition newline : string := String (Ascii.ascii_of_nat 10) EmptyString.

Definition pemOf (n : string) : string :=
  "-----BEGIN RSA PUBLIC KEY-----" ++ newline ++ n ++ newline
  ++ "-----END RSA PUBLIC KEY-----".

(** The [forEach] over the JWKS keys: [keys[key.kid] = pem] for a key with
    [kid] and [n]; the entry assigned last is in front, where [lookupKey]
    reads it. Assigning a string to ["__proto__"] goes to the setter that
    the table inherits, which ignores what is not an object: nothing is
    stored. *)
Definition addJwksKey (keys : list (string * string)) (key : JwksKey.t)
  : list (string * string) :=
  match JwksKey.kid key, JwksKey.n key with
  | Some kid, Some n =>
    if truthy (Some kid) && truthy (Some n)
    then if kid =? "__proto__" then keys else (kid, pemOf n) :: keys
    else keys
  | _, _ => keys
  end.

Definition jwksToKeys (data : option (list JwksKey.t))
  : list (string * string) :=
  match data with
  | Some keys => fold_left addJwksKey keys []
  | None => []
  end.

(** [getCognitoPublicKeys]: the keys returned, or nothing when it throws
    ("Failed to fetch authentication keys"), and the cache afterwards.
    [userPoolId] is [config.aws.cognito.userPoolId]. *)
Definition getCognitoPublicKeys (userPoolId : option string) (now : Z)
  (response : JwksResponse) (cache : KeyCache.t)
  : option (list (string * string)) * KeyCache.t :=
  let fetch :=
    if negb (truthy userPoolId) then (None, cache)
    else match response with
         | None => (None, cache)
         | Some data =>
           let keys := jwksToKeys data in
           (Some keys, KeyCache.mk (Some keys) (now + CACHE_DURATION))
         end in
  match KeyCache.cognitoKeysCache cache with
  | Some keys =>
    if (now <? KeyCache.cacheExpiry cache)%Z then (Some keys, cache) else fetch
  | None => fetch
  end.

Definition roleName (r : Role.t) : string :=
  match r with
  | Role.tenant => "tenant"
  | Role.manager => "manager"
  | Role.admin => "admin"
  end.

(** What a guard middleware does with a request: [next()] or a reply. *)
Inductive Passage :=
| Pass
| Deny (response : Response.t).

(** [authorize(...allowedRoles)] *)
Definition authorize (allowedRoles : list Role.t) (user : option User.t)
  : Passage :=
  match user with
  | None => Deny authRequired
  | Some u =>
    if negb (existsb (fun r => Role.eqb r (User.role u)) allowedRoles) then
      Deny (Response.failure 403
              ("Access denied. Required role(s): "
                 ++ String.concat ", " (map roleName allowedRoles))
              "ACCESS_DENIED" NoData)
    else Pass
  end.

Definition requireEmailVerified (user : option User.t) : Passage :=
  match user with
  | None => Deny authRequired
  | Some u =>
    if negb (User.emailVerified u) then
      Deny (Response.failure 403 "Email verification required"
              "EMAIL_NOT_VERIFIED" NoData)
    else Pass
  end.

(** [optionalAuth]: the request goes on with or without a user, or is
    answered by [authenticate]. *)
Inductive OptionalOutcome :=
| Continue (user : option User.t)
| Respond (response : Response.t).

Definition optionalAuth (jwt_decode : string -> Decoding)
  (publicKeys : option (list (string * string)))
  (authorization : option string) : OptionalOutcome :=
  match authorization with
  | None => Continue None
  | Some authHeader =>
    if negb (truthy (Some authHeader))
       || negb (startsWith "Bearer " authHeader)
    then Continue None
    else match authenticate jwt_decode publicKeys (Some authHeader) with
         | Next user => Continue (Some user)
         | Reply response => Respond response
         end
  end.

(** The guards of a route that registers a profile
    ([authenticate, authorize(role), requireEmailVerified]): the user the
    handler receives, or the reply of the first guard that refuses. *)
Definition guardedRegistration (jwt_decode : string -> Decoding)
  (publicKeys : option (list (string * string))) (role : Role.t)
  (authorization : option string) : Outcome :=
  match authenticate jwt_decode publicKeys authorization with
  | Reply response => Reply response
  | Next user =>
    match authorize [role] (Some user) with
    | Deny response => Reply response
    | Pass =>
      match requireEmailVerified (Some user) with
      | Deny response => Reply response
      | Pass => Next user
      end
    end
  end.

(** A JWKS entry that the conversion stores under [keyId]. *)
Definition storedUnder (keyId : string) (key : JwksKey.t) : bool :=
  match JwksKey.kid key, JwksKey.n key with
  | Some kid, Some n =>
    (kid =? keyId) && negb (kid =? "") && negb (n =? "")
    && negb (kid =? "__proto__")
  | _, _ => false
  end.

(** The refusals of [authenticate]. *)
Definition tokenMissing : Response.t :=
  Response.failure 401 "Authorization token required" "AUTH_TOKEN_MISSING"
    NoData.

Definition tokenInvalid : Response.t :=
  Response.failure 401 "Invalid authentication token" "AUTH_TOKEN_INVALID"
    NoData.

Definition tokenExpired : Response.t :=
  Response.failure 401 "Token has expired" "AUTH_TOKEN_EXPIRED" NoData.

Definition authFailed : Response.t :=
  Response.failure 401 "Authentication failed" "AUTH_FAILED" NoData.

(** The reply of the [catch] of [authenticate] to an error with this
    message. *)
Definition refusalFor (errorMessage : string) : Response.t :=
  if strIncludes "expired" errorMessage then tokenExpired
  else if strIncludes "Invalid" errorMessage then tokenInvalid
  else authFailed.

(** ** Responses of the handlers below *)

(** A JSON response whose [data], when there is one, has type [D]. *)
Module Answer.
Record t (D : Type) := mk
  { status : Z;
    success : bool;
    message : string;
    code : option string;
    data : option D }.

Definition failure {D : Type} (st : Z) (message code : string) : t D :=
  mk st false message (Some code) None.

Definition ok {D : Type} (st : Z) (message : string) (d : D) : t D :=
  mk st true message None (Some d).
End Answer.

Definition PaymentStatus_eqb (a b : PaymentStatus.t) : bool :=
  match a, b with
  | PaymentStatus.PENDING, PaymentStatus.PENDING
  | PaymentStatus.COMPLETED, PaymentStatus.COMPLETED
  | PaymentStatus.FAILED, PaymentStatus.FAILED
  | PaymentStatus.REFUNDED, PaymentStatus.REFUNDED => true
  | _, _ => false
  end.

Definition PaymentType_eqb (a b : PaymentType.t) : bool :=
  match a, b with
  | PaymentType.RENT, PaymentType.RENT
  | PaymentType.SECURITY_DEPOSIT, PaymentType.SECURITY_DEPOSIT
  | PaymentType.APPLICATION_FEE, PaymentType.APPLICATION_FEE
  | PaymentType.LATE_FEE, PaymentType.LATE_FEE
  | PaymentType.MAINTENANCE_CHARGE, PaymentType.MAINTENANCE_CHARGE
  | PaymentType.REFUND, PaymentType.REFUND => true
  | _, _ => false
  end.

(** ** controllers/paymentController.ts: updatePaymentStatus,
    getPaymentById, getManagerPayments, getTenantPayments *)

(** The request body after [validateRequest(UpdatePaymentSchema)]. *)
Module UpdatePaymentInput.
Record t := mk
  { status : PaymentStatus.t;
    referenceId : option string;
    receiptUrl : option string;
    note : option string }.
End UpdatePaymentInput.

(** The filter [OR: [{ lease: { property: { managerId } } },
                     { property: { managerId } }]] on a payment. *)
Definition paymentManagedBy (managerId : string) (s : Store) (p : Payment.t)
  : bool :=
  match Payment.leaseId p with
  | Some leaseId =>
    existsb (fun l => (Lease.id l =? leaseId)
                      && propertyManagedBy s (Lease.propertyId l) managerId)
            (leases s)
  | None => false
  end
  || match Payment.propertyId p with
     | Some propertyId => propertyManagedBy s propertyId managerId
     | None => false
     end.

(** A field of [data] that is [undefined] leaves the column as it is. *)
Definition orKeep {A} (new old : option A) : option A :=
  match new with
  | Some _ => new
  | None => old
  end.

(** The row written by
    [update({ where: { id }, data: { ...updateData, updatedAt } })]. *)
Definition applyPaymentUpdate (updateData : UpdatePaymentInput.t) (at_ : Z)
  (p : Payment.t) : Payment.t :=
  Payment.mk (Payment.id p) (Payment.tenantId p) (Payment.leaseId p)
    (Payment.propertyId p) (Payment.amount p) (Payment.currency p)
    (Payment.paymentType p)
    (UpdatePaymentInput.status updateData)
    (Payment.method p) (Payment.paymentDate p)
    (orKeep (UpdatePaymentInput.referenceId updateData) (Payment.referenceId p))
    (orKeep (UpdatePaymentInput.receiptUrl updateData) (Payment.receiptUrl p))
    (orKeep (UpdatePaymentInput.note updateData) (Payment.note p))
    (Payment.createdAt p) at_.

Definition paymentsUpdated (paymentId : string)
  (updateData : UpdatePaymentInput.t) (at_ : Z) (rows : list Payment.t)
  : list Payment.t :=
  map (fun r => if Payment.id r =? paymentId
                then applyPaymentUpdate updateData at_ r else r) rows.

(** What an update leaves of a payment row. *)
Definition samePayment (p p' : Payment.t) : Prop :=
  Payment.id p' = Payment.id p
  /\ Payment.tenantId p' = Payment.tenantId p
  /\ Payment.leaseId p' = Payment.leaseId p
  /\ Payment.propertyId p' = Payment.propertyId p
  /\ Payment.amount p' = Payment.amount p
  /\ Payment.currency p' = Payment.currency p
  /\ Payment.paymentType p' = Payment.paymentType p
  /\ Payment.method p' = Payment.method p
  /\ Payment.paymentDate p' = Payment.paymentDate p
  /\ Payment.createdAt p' = Payment.createdAt p.

Module prismaPayment.

Definition findFirst (where_ : Store -> Payment.t -> bool)
  : Db (option Payment.t) :=
  gets (fun s => find (where_ s) (payments s)).

(** Throws when no row has the key. *)
Definition update (id : string) (updateData : UpdatePaymentInput.t) (at_ : Z)
  : Db Payment.t :=
  fun s =>
    match find (fun p => Payment.id p =? id) (payments s) with
    | None => None
    | Some p =>
      Some (applyPaymentUpdate updateData at_ p,
            mkStore (tenants s) (properties s) (applications s) (leases s)
                    (paymentsUpdated id updateData at_ (payments s)))
    end.

End prismaPayment.

(** [data] of the answer of [updatePaymentStatus]: the payment and
    [statusChange]. *)
Module PaymentUpdated.
Record t := mk
  { payment : Payment.t;
    from : PaymentStatus.t;
    to : PaymentStatus.t;
    updatedAt : Z }.
End PaymentUpdated.

(** The filter of the payment lookup of [updatePaymentStatus]. *)
Definition managedPayment (paymentId managerId : string) (s : Store)
  (p : Payment.t) : bool :=
  (Payment.id p =? paymentId) && paymentManagedBy managerId s p.

Definition updatePaymentStatus (env : Env) (user : option User.t)
  (paymentId : string) (updateData : UpdatePaymentInput.t)
  : Store -> Answer.t PaymentUpdated.t * Store :=
  tryCatch
    (match user with
     | None =>
       ret (Answer.failure 401 "Authentication required" "AUTH_REQUIRED")
     | Some u =>
       if negb (Role.eqb (User.role u) Role.manager) then
         ret (Answer.failure 403 "Access denied. Manager role required."
                "ACCESS_DENIED")
       else
         let managerId := User.id u in
         payment <- prismaPayment.findFirst (managedPayment paymentId managerId) ;;
         match payment with
         | None =>
           ret (Answer.failure 404 "Payment not found or access denied"
                  "PAYMENT_NOT_FOUND")
         | Some payment =>
           updatedPayment <-
             prismaPayment.update paymentId updateData (now env) ;;
           ret (Answer.ok 200 "Payment updated successfully"
                  (PaymentUpdated.mk updatedPayment
                     (Payment.status payment)
                     (Payment.status updatedPayment)
                     (now env)))
         end
     end)
    (Answer.failure 500 "Failed to update payment" "PAYMENT_UPDATE_FAILED").

(** [data] of the answer of [getPaymentById]. *)
Module PaymentView.
Record t := mk { payment : Payment.t; viewedAt : Z; viewerRole : Role.t }.
End PaymentView.

(** The filter of [getPaymentById]: the key, and by role the tenant's own
    payments, the payments on the manager's properties, or nothing more. *)
Definition visiblePayment (paymentId : string) (user : User.t) (s : Store)
  (p : Payment.t) : bool :=
  (Payment.id p =? paymentId)
  && match User.role user with
     | Role.tenant => Payment.tenantId p =? User.id user
     | Role.manager => paymentManagedBy (User.id user) s p
     | Role.admin => true
     end.

Definition getPaymentById (env : Env) (user : option User.t)
  (paymentId : string) : Store -> Answer.t PaymentView.t * Store :=
  tryCatch
    (match user with
     | None =>
       ret (Answer.failure 401 "Authentication required" "AUTH_REQUIRED")
     | Some u =>
       payment <- prismaPayment.findFirst (visiblePayment paymentId u) ;;
       match payment with
       | None =>
         ret (Answer.failure 404 "Payment not found or access denied"
                "PAYMENT_NOT_FOUND")
       | Some payment =>
         ret (Answer.ok 200 "Payment details retrieved successfully"
                (PaymentView.mk payment (now env) (User.role u)))
       end
     end)
    (Answer.failure 500 "Failed to retrieve payment details"
       "PAYMENT_FETCH_FAILED").

(** The query after [validateRequest(PaymentQuerySchema, "query")]: [page]
    and [limit] are integers from 1 on, [status] and [paymentType] are
    values of the enumerations. The tenant's query has no [propertyId]. *)
Module PaymentQuery.
Record t := mk
  { page : positive;
    limit : positive;
    status : option PaymentStatus.t;
    paymentType : option PaymentType.t;
    propertyId : option string;
    leaseId : option string;
    sort : string }.
End PaymentQuery.

Module Pagination.
Record t := mk
  { currentPage : Z;
    totalPages : Z;
    totalCount : Z;
    limit : Z;
    hasNextPage : bool;
    hasPrevPage : bool }.
End Pagination.

(** [stats] of a payment list; the last field is called [totalAmount] in
    the manager's answer and [totalPaid] in the tenant's. *)
Module PaymentStats.
Record t := mk
  { total : Z;
    completed : Z;
    pending : Z;
    failed : Z;
    totalAmount : Z }.
End PaymentStats.

(** [data] of a payment list; the echo of the filters and of [sort] is
    left out. *)
Module PaymentList.
Record t := mk
  { payments : list Payment.t;
    pagination : Pagination.t;
    stats : PaymentStats.t }.
End PaymentList.

(** [Math.ceil(a / b)] on integers, [b] positive. *)
Definition ceilDiv (a b : Z) : Z := (- ((- a) / b))%Z.

Definition countWhere {A} (f : A -> bool) (rows : list A) : Z :=
  Z.of_nat (List.length (filter f rows)).

(** [payments.filter(completed).reduce((sum, p) => sum + p.amount, 0)] *)
Definition sumCompleted (rows : list Payment.t) : Z :=
  fold_left (fun sum p => (sum + Payment.amount p)%Z)
    (filter (fun p => PaymentStatus_eqb (Payment.status p)
                        PaymentStatus.COMPLETED) rows)
    0%Z.

Definition paymentStats (totalCount : Z) (rows : list Payment.t)
  : PaymentStats.t :=
  PaymentStats.mk totalCount
    (countWhere (fun p => PaymentStatus_eqb (Payment.status p)
                            PaymentStatus.COMPLETED) rows)
    (countWhere (fun p => PaymentStatus_eqb (Payment.status p)
                            PaymentStatus.PENDING) rows)
    (countWhere (fun p => PaymentStatus_eqb (Payment.status p)
                            PaymentStatus.FAILED) rows)
    (sumCompleted rows).

Definition paginationOf (page limit : positive) (totalCount : Z)
  : Pagination.t :=
  let totalPages := ceilDiv totalCount (Z.pos limit) in
  Pagination.mk (Z.pos page) totalPages totalCount (Z.pos limit)
    (Z.pos page <? totalPages)%Z
    (Z.pos page >? 1)%Z.

(** A filter field that is only set when the query value is truthy. *)
Definition whenGiven {A} (eqb : A -> A -> bool) (o : option A) (column : A)
  : bool :=
  match o with
  | Some x => eqb x column
  | None => true
  end.

Definition whenTruthy (o : option string) (column : option string) : bool :=
  if truthy o
  then match o, column with
       | Some x, Some c => x =? c
       | _, _ => false
       end
  else true.

(** [orderBy]: the field and whether the direction is "desc". *)
Definition orderOf (sort : string) (fallback : string * bool) : string * bool :=
  if truthy (Some sort) then
    if startsWith "-" sort then (substringFrom 1 sort, true) else (sort, false)
  else fallback.

Definition managerPaymentFilter (managerId : string) (q : PaymentQuery.t)
  (s : Store) (p : Payment.t) : bool :=
  paymentManagedBy managerId s p
  && whenGiven PaymentStatus_eqb (PaymentQuery.status q) (Payment.status p)
  && whenGiven PaymentType_eqb (PaymentQuery.paymentType q)
       (Payment.paymentType p)
  && whenTruthy (PaymentQuery.propertyId q) (Payment.propertyId p)
  && whenTruthy (PaymentQuery.leaseId q) (Payment.leaseId p).

Definition tenantPaymentFilter (tenantId : string) (q : PaymentQuery.t)
  (p : Payment.t) : bool :=
  (Payment.tenantId p =? tenantId)
  && whenGiven PaymentStatus_eqb (PaymentQuery.status q) (Payment.status p)
  && whenGiven PaymentType_eqb (PaymentQuery.paymentType q)
       (Payment.paymentType p)
  && whenTruthy (PaymentQuery.leaseId q) (Payment.leaseId p).

Section PaymentLists.

(** The store's ordering of rows by a field, ascending or descending: a
    rearrangement of the rows, or nothing when the field is not one of the
    model and the query is rejected. *)
Variable orderPayments :
  string -> bool -> list Payment.t -> option (list Payment.t).

(** [findMany({ where, orderBy, skip, take })] and [count({ where })] *)
Definition findManyPayments (where_ : Payment.t -> bool)
  (orderBy : string * bool) (skip take : nat) : Db (list Payment.t) :=
  fun s =>
    match orderPayments (fst orderBy) (snd orderBy)
            (filter where_ (payments s)) with
    | Some ordered => Some (firstn take (skipn skip ordered), s)
    | None => None
    end.

Definition countPayments (where_ : Payment.t -> bool) : Db Z :=
  gets (fun s => countWhere where_ (payments s)).

Definition listPayments (where_ : Payment.t -> bool) (q : PaymentQuery.t)
  : Db PaymentList.t :=
  let orderBy := orderOf (PaymentQuery.sort q) ("paymentDate", true) in
  let skip := ((Z.pos (PaymentQuery.page q) - 1)
               * Z.pos (PaymentQuery.limit q))%Z in
  payments <- findManyPayments where_ orderBy (Z.to_nat skip)
                (Pos.to_nat (PaymentQuery.limit q)) ;;
  totalCount <- countPayments where_ ;;
  ret (PaymentList.mk payments
         (paginationOf (PaymentQuery.page q) (PaymentQuery.limit q) totalCount)
         (paymentStats totalCount payments)).

Definition getManagerPayments (user : option User.t) (q : PaymentQuery.t)
  : Store -> Answer.t PaymentList.t * Store :=
  tryCatch
    (match user with
     | None =>
       ret (Answer.failure 401 "Authentication required" "AUTH_REQUIRED")
     | Some u =>
       if negb (Role.eqb (User.role u) Role.manager) then
         ret (Answer.failure 403 "Access denied. Manager role required."
                "ACCESS_DENIED")
       else
         where_ <- gets (managerPaymentFilter (User.id u) q) ;;
         list <- listPayments where_ q ;;
         ret (Answer.ok 200 "Manager payments retrieved successfully" list)
     end)
    (Answer.failure 500 "Failed to retrieve payments"
       "MANAGER_PAYMENTS_FETCH_FAILED").

Definition getTenantPayments (user : option User.t) (q : PaymentQuery.t)
  : Store -> Answer.t PaymentList.t * Store :=
  tryCatch
    (match user with
     | None =>
       ret (Answer.failure 401 "Authentication required" "AUTH_REQUIRED")
     | Some u =>
       if negb (Role.eqb (User.role u) Role.tenant) then
         ret (Answer.failure 403 "Access denied. Tenant role required."
                "ACCESS_DENIED")
       else
         list <- listPayments (tenantPaymentFilter (User.id u) q) q ;;
         ret (Answer.ok 200 "Tenant payments retrieved successfully" list)
     end)
    (Answer.failure 500 "Failed to retrieve payments"
       "TENANT_PAYMENTS_FETCH_FAILED").

End PaymentLists.

(** ** The lease controller: getLeaseById *)

(** [metrics] of the answer of [getLeaseById]. [nextPaymentDue], which the
    handler computes with the calendar of [Date] in the server's time zone,
    is not represented. *)
Module LeaseMetrics.
Record t := mk
  { totalPaid : Z;
    totalPayments : Z;
    daysUntilExpiry : option Z }.
End LeaseMetrics.

Module LeaseView.
Record t := mk
  { lease : Lease.t;
    metrics : LeaseMetrics.t;
    viewedAt : Z;
    viewerRole : Role.t }.
End LeaseView.

(** The filter of [getLeaseById]: the key, and by role the tenant's own
    leases, the leases on the manager's properties, or nothing more. *)
Definition visibleLease (leaseId : string) (user : User.t) (s : Store)
  (l : Lease.t) : bool :=
  (Lease.id l =? leaseId)
  && match User.role user with
     | Role.tenant => Lease.tenantId l =? User.id user
     | Role.manager => propertyManagedBy s (Lease.propertyId l) (User.id user)
     | Role.admin => true
     end.

(** The relation [payments] joined to a lease. *)
Definition leasePayments (s : Store) (l : Lease.t) : list Payment.t :=
  filter (fun p => optEqb (Payment.leaseId p) (Lease.id l)) (payments s).

Definition MS_PER_DAY : Z := 1000 * 60 * 60 * 24.

Definition leaseMetrics (now : Z) (s : Store) (l : Lease.t) : LeaseMetrics.t :=
  LeaseMetrics.mk
    (sumCompleted (leasePayments s l))
    (Z.of_nat (List.length (leasePayments s l)))
    (if LeaseStatus.eqb (Lease.status l) LeaseStatus.ACTIVE
     then Some (ceilDiv (Lease.endDate l - now) MS_PER_DAY)
     else None).

Definition getLeaseById (env : Env) (user : option User.t) (leaseId : string)
  : Store -> Answer.t LeaseView.t * Store :=
  tryCatch
    (match user with
     | None =>
       ret (Answer.failure 401 "Authentication required" "AUTH_REQUIRED")
     | Some u =>
       lease <- prisma.lease.findFirst (visibleLease leaseId u) ;;
       match lease with
       | None =>
         ret (Answer.failure 404 "Lease not found or access denied"
                "LEASE_NOT_FOUND")
       | Some lease =>
         metrics <- gets (fun s => leaseMetrics (now env) s lease) ;;
         ret (Answer.ok 200 "Lease details retrieved successfully"
                (LeaseView.mk lease metrics (now env) (User.role u)))
       end
     end)
    (Answer.failure 500 "Failed to retrieve lease details" "LEASE_FETCH_FAILED").

(** ** utils/validation.ts: PhoneNumberSchema *)

Definition isDigit (c : Ascii.ascii) : bool :=
  let n := Ascii.nat_of_ascii c in ((48 <=? n) && (n <=? 57))%nat.

Fixpoint allDigits (x : string) : bool :=
  match x with
  | EmptyString => true
  | String c rest => isDigit c && allDigits rest
  end.

(** [[0-9]{10}] on a whole string. *)
Definition tenDigits (x : string) : bool :=
  (String.length x =? 10)%nat && allDigits x.

(** [/^(\+92|0)?[0-9]{10}$/.test(x)] *)
Definition phoneRegex (x : string) : bool :=
  tenDigits x
  || (startsWith "+92" x && tenDigits (substringFrom 3 x))
  || (startsWith "0" x && tenDigits (substringFrom 1 x)).

(** The [transform] of the schema. *)
Definition normalizePhone (phone : string) : string :=
  if startsWith "0" phone then "+92" ++ substringFrom 1 phone
  else if negb (startsWith "+92" phone) then "+92" ++ phone
  else phone.

(** The parsed value, or nothing when the schema rejects the string. *)
Definition PhoneNumberSchema (x : string) : option string :=
  if phoneRegex x then Some (normalizePhone x) else None.

(** The store's ordering rearranges the rows it is given. *)
Definition rearranges
  (orderPayments : string -> bool -> list Payment.t -> option (list Payment.t))
  : Prop :=
  forall field desc rows ordered,
    orderPayments field desc rows = Some ordered -> Permutation rows ordered.

Definition pageOf (q : PaymentQuery.t) (ordered : list Payment.t)
  : list Payment.t :=
  firstn (Pos.to_nat (PaymentQuery.limit q))
    (skipn (Z.to_nat ((Z.pos (PaymentQuery.page q) - 1)
                      * Z.pos (PaymentQuery.limit q)))
           ordered).

(** The handler's filter and the list it answered with. *)
Definition listedBy
  (orderPayments : string -> bool -> list Payment.t -> option (list Payment.t))
  (u : User.t) (q : PaymentQuery.t) (s : Store)
  (where_ : Payment.t -> bool) (list : PaymentList.t) : Prop :=
  (where_ = tenantPaymentFilter (User.id u) q
   /\ Answer.data (fst (getTenantPayments orderPayments (Some u) q s))
      = Some list)
  \/ (where_ = managerPaymentFilter (User.id u) q s
      /\ Answer.data (fst (getManagerPayments orderPayments (Some u) q s))
         = Some list).

(** * Vocabulary of the properties *)

(** ** Lease dates *)

(** A lease row of the store that is ACTIVE on the property and whose date
    range meets [[startDate, endDate]], both bounds included. *)
Definition activeOverlap (s : Store) (propertyId : string)
  (startDate endDate : Z) : Prop :=
  exists l, In l (leases s)
    /\ Lease.propertyId l = propertyId
    /\ Lease.status l = LeaseStatus.ACTIVE
    /\ (Lease.startDate l <= endDate)%Z
    /\ (Lease.endDate l >= startDate)%Z.

Definition noOverlappingActiveLeasesb (s : Store) : bool :=
  forallb
    (fun a =>
       forallb
         (fun b =>
            (Lease.id a =? Lease.id b)
            || negb (bothActiveOnOneProperty a b)
            || negb (overlap a b))
         (leases s))
    (leases s).

(** ** Status tables and updated rows *)

(** The transition table of the lease lifecycle, on the status of a lease
    and the requested target as it arrives in the request body. *)
Definition inTransitionTable (currentStatus : LeaseStatus.t) (target : string)
  : Prop :=
  (currentStatus = LeaseStatus.PENDING_SIGNATURE
   /\ (target = "ACTIVE" \/ target = "TERMINATED"))
  \/ (currentStatus = LeaseStatus.ACTIVE
      /\ (target = "TERMINATED" \/ target = "COMPLETED")).

(** ** What one request can do to the store *)

(** The application table after a request: as before, one row appended
    under a new key, or the status of a PENDING row set. *)
Inductive applicationsStep (rows : list Application.t)
  : list Application.t -> Prop :=
| applications_kept : applicationsStep rows rows
| applications_inserted row :
    hasId Application.id (Application.id row) rows = false ->
    applicationsStep rows (rows ++ [row])
| applications_decided a st at_ :
    In a rows ->
    Application.status a = ApplicationStatus.PENDING ->
    applicationsStep rows (applicationsWithStatus (Application.id a) st at_ rows).

(** The lease table after a request: as before, one row appended, or the
    status of the rows under one key set. *)
Inductive leasesStep (rows : list Lease.t) : list Lease.t -> Prop :=
| leases_kept : leasesStep rows rows
| leases_inserted row : leasesStep rows (rows ++ [row])
| leases_moved leaseId st at_ :
    leasesStep rows (leasesWithStatus leaseId st at_ rows).

Record evolves (s s' : Store) : Prop :=
  { evolves_tenants : tenants s' = tenants s;
    evolves_properties : properties s' = properties s;
    evolves_applications : applicationsStep (applications s) (applications s');
    evolves_leases : leasesStep (leases s) (leases s') }.

(** The application with key [applicationId] has been turned into a lease
    by manager [managerId]: it is APPROVED, sits on a property of the
    manager, and a lease row references it. Application keys are unique. *)
Record consumed (applicationId managerId : string) (s : Store) : Prop :=
  { consumed_keys : NoDup (map Application.id (applications s));
    consumed_approved :
      exists a, In a (applications s)
        /\ Application.id a = applicationId
        /\ Application.status a = ApplicationStatus.APPROVED
        /\ propertyManagedBy s (Application.propertyId a) managerId = true;
    consumed_lease :
      exists l, In l (leases s) /\ Lease.applicationId l = Some applicationId }.

(** ** A concrete marketplace

    One manager with one property and three registered tenants; the dates
    are the millisecond timestamps of 2024-01-01, 2024-06-01, 2024-06-30,
    2024-12-31, 2025-01-01 and 2025-12-31 (UTC). *)

Module Scenario.

Definition t1 : User.t :=
  User.mk "t1" "t1@example.com" Role.tenant true None None.
Definition t2 : User.t :=
  User.mk "t2" "t2@example.com" Role.tenant true None None.
Definition t3 : User.t :=
  User.mk "t3" "t3@example.com" Role.tenant true None None.
Definition m1 : User.t :=
  User.mk "m1" "m1@example.com" Role.manager true None None.

Definition store0 : Store :=
  mkStore
    [Tenant.mk "t1" "Tenant One" "t1@example.com" "+923001234567";
     Tenant.mk "t2" "Tenant Two" "t2@example.com" "+923007654321";
     Tenant.mk "t3" "Tenant Three" "t3@example.com" "+923009876543"]
    [Property.mk "p1" "Upper portion near the park" "m1"]
    [] [] [].

Definition jan01 : Z := 1704067200000.
Definition jun01 : Z := 1717200000000.
Definition jun30 : Z := 1719705600000.
Definition dec31 : Z := 1735603200000.
Definition jan01_2025 : Z := 1735689600000.
Definition dec31_2025 : Z := 1767139200000.

Definition apply1 : CreateApplicationInput.t :=
  CreateApplicationInput.mk "p1" "Tenant One" "t1@example.com"
    "+923001234567" None.
Definition apply2 : CreateApplicationInput.t :=
  CreateApplicationInput.mk "p1" "Tenant Two" "t2@example.com"
    "+923007654321" (Some "Available from June").
Definition apply3 : CreateApplicationInput.t :=
  CreateApplicationInput.mk "p1" "Tenant Three" "t3@example.com"
    "+923009876543" None.

Definition terms1 : CreateLeaseInput.t :=
  CreateLeaseInput.mk "p1" "t1" (Some "a1") jan01 dec31 50000 100000 5 None.
Definition terms2 : CreateLeaseInput.t :=
  CreateLeaseInput.mk "p1" "t2" (Some "a2") jun01 jun30 50000 100000 5 None.
Definition terms3 : CreateLeaseInput.t :=
  CreateLeaseInput.mk "p1" "t3" (Some "a3") jun01 jun30 50000 100000 5 None.
Definition terms3_2025 : CreateLeaseInput.t :=
  CreateLeaseInput.mk "p1" "t3" (Some "a3") jan01_2025 dec31_2025
    55000 100000 5 None.

(** Two tenants apply and the manager approves both. *)
Definition bothApplied : list (Env * Call) :=
  [ (mkEnv "a1" 1, SubmitApplication (Some t1) apply1);
    (mkEnv "a2" 2, SubmitApplication (Some t2) apply2) ].

Definition bothApproved : list (Env * Call) :=
  (bothApplied
     ++ [ (mkEnv "" 3, UpdateApplicationStatus (Some m1) "a1" "APPROVED");
          (mkEnv "" 4, UpdateApplicationStatus (Some m1) "a2" "APPROVED") ])
  %list.

(** The manager drafts a lease for each application and activates the
    first. *)
Definition bothDrafted : list (Env * Call) :=
  (bothApproved
     ++ [ (mkEnv "l1" 5, CreateLease (Some m1) terms1);
          (mkEnv "l2" 6, CreateLease (Some m1) terms2);
          (mkEnv "" 7, UpdateLeaseStatus (Some m1) "l1" "ACTIVE") ])%list.

(** A third tenant applies and is approved while the first lease runs. *)
Definition thirdApproved : list (Env * Call) :=
  (bothDrafted
     ++ [ (mkEnv "a3" 8, SubmitApplication (Some t3) apply3);
          (mkEnv "" 9, UpdateApplicationStatus (Some m1) "a3" "APPROVED") ])
  %list.

(** The first lease is terminated. *)
Definition firstEnded : list (Env * Call) :=
  (bothDrafted
     ++ [ (mkEnv "" 8, UpdateLeaseStatus (Some m1) "l1" "TERMINATED") ])%list.

Definition applied : Store := Eval vm_compute in run bothApplied store0.
Definition approved : Store := Eval vm_compute in run bothApproved store0.
Definition firstActive : Store := Eval vm_compute in run bothDrafted store0.
Definition withThird : Store := Eval vm_compute in run thirdApproved store0.
Definition ended : Store := Eval vm_compute in run firstEnded store0.

Definition application1 : Application.t :=
  Application.mk "a1" "p1" "t1" "Tenant One" "t1@example.com"
    "+923001234567" None None ApplicationStatus.APPROVED 1 3.
Definition application3 : Application.t :=
  Application.mk "a3" "p1" "t3" "Tenant Three" "t3@example.com"
    "+923009876543" None None ApplicationStatus.APPROVED 8 9.
Definition pending1 : Application.t :=
  Application.mk "a1" "p1" "t1" "Tenant One" "t1@example.com"
    "+923001234567" None None ApplicationStatus.PENDING 1 1.

Definition lease1 : Lease.t :=
  Lease.mk "l1" "p1" "t1" (Some "a1") jan01 dec31 50000 100000 5 None
    LeaseStatus.ACTIVE 5 7.
Definition lease1Ended : Lease.t :=
  Lease.mk "l1" "p1" "t1" (Some "a1") jan01 dec31 50000 100000 5 None
    LeaseStatus.TERMINATED 5 8.
Definition lease2 : Lease.t :=
  Lease.mk "l2" "p1" "t2" (Some "a2") jun01 jun30 50000 100000 5 None
    LeaseStatus.PENDING_SIGNATURE 6 6.

End Scenario.

Module Ledger.

Definition feeOnProperty : CreatePaymentInput.t :=
  CreatePaymentInput.mk None (Some "p1") 2000 PaymentType.APPLICATION_FEE
    PaymentMethod.CASH Scenario.jun01 None None.

Definition rentOnLease1 : CreatePaymentInput.t :=
  CreatePaymentInput.mk (Some "l1") None 50000 PaymentType.RENT
    PaymentMethod.BANK_TRANSFER Scenario.jun01 (Some "TXN-0001") None.

Definition depositOnLease2 : CreatePaymentInput.t :=
  CreatePaymentInput.mk (Some "l2") (Some "p1") 100000
    PaymentType.SECURITY_DEPOSIT PaymentMethod.JAZZCASH Scenario.jun01
    None (Some "before signature").

Definition tenant1 : Tenant.t :=
  Tenant.mk "t1" "Tenant One" "t1@example.com" "+923001234567".

Definition tenant2 : Tenant.t :=
  Tenant.mk "t2" "Tenant Two" "t2@example.com" "+923007654321".

End Ledger.

(** A token that names key "k1" and claims the manager role; its signature
    part was not produced by the identity provider. *)
Module Forged.

Definition token : string :=
  "eyJhbGciOiJSUzI1NiIsImtpZCI6ImsxIn0."
  ++ "eyJzdWIiOiJtMSIsImVtYWlsIjoiaW50cnVkZXJAZXhhbXBsZS5jb20iLCJlbWFpbF92"
  ++ "ZXJpZmllZCI6dHJ1ZSwiY3VzdG9tOnJvbGUiOiJtYW5hZ2VyIiwiYXVkIjoiY2xpZW50"
  ++ "IiwiaXNzIjoiaHR0cHM6Ly9jb2duaXRvLWlkcC5leGFtcGxlL3Bvb2wiLCJleHAiOjQx"
  ++ "MDI0NDQ4MDAsImlhdCI6MTcwNDA2NzIwMCwidG9rZW5fdXNlIjoiaWQifQ"
  ++ ".Zm9yZ2Vk".

Definition payload : CognitoTokenPayload.t :=
  CognitoTokenPayload.mk "m1" "intruder@example.com" true (Some "manager")
    None None "client" "https://cognito-idp.example/pool" 4102444800
    1704067200 "id".

Definition decoded : Jwt.t := Jwt.mk (Some "k1") payload "Zm9yZ2Vk".

Definition jwt_decode (x : string) : Decoding :=
  if x =? token then Decoded decoded else NotAToken.

Definition keys : list (string * string) :=
  [ ("k1", "-----BEGIN RSA PUBLIC KEY-----
AQAB
-----END RSA PUBLIC KEY-----") ].

End Forged.

(** ** Tactics *)

Ltac run_handler :=
  unfold prisma.application.findFirst, prisma.lease.findFirst,
    prisma.lease.findUnique, prisma.property.findUnique,
    prisma.property.findFirst;
  unfold tryCatch, bind, ret, gets, throw;
  cbv beta.

Ltac kept :=
  intros; simpl; split; auto using applications_kept, leases_kept.

Ltac split_handler :=
  repeat match goal with
         | |- context [match ?x with _ => _ end] =>
           lazymatch x with
           | context [match _ with _ => _ end] => fail
           | _ => destruct x eqn:?
           end
         end.

(** ** Vocabulary of the invariants over runs *)

(** The lease table after one request, seen from the store [s] before it:
    as before; or with a PENDING_SIGNATURE lease appended under a new key
    for an APPROVED application that no lease referenced, with the tenant
    and property of that application; or with the status of a lease moved
    along the transition table. *)
Inductive leasesAdvance (s : Store) : list Lease.t -> Prop :=
| leases_same : leasesAdvance s (leases s)
| leases_drafted a row :
    hasId Lease.id (Lease.id row) (leases s) = false ->
    In a (applications s) ->
    Application.status a = ApplicationStatus.APPROVED ->
    Lease.applicationId row = Some (Application.id a) ->
    Lease.tenantId row = Application.tenantId a ->
    Lease.propertyId row = Application.propertyId a ->
    Lease.status row = LeaseStatus.PENDING_SIGNATURE ->
    (forall l, In l (leases s) ->
               Lease.applicationId l <> Some (Application.id a)) ->
    leasesAdvance s (leases s ++ [row])
| leases_transition l st at_ :
    In l (leases s) ->
    inTransitionTable (Lease.status l) (LeaseStatus.toString st) ->
    leasesAdvance s (leasesWithStatus (Lease.id l) st at_ (leases s)).

(** The payment table after one request: as before, or with a PENDING
    payment appended under a new key, booked on the tenant of the lease it
    names. *)
Inductive paymentsAdvance (s : Store) : list Payment.t -> Prop :=
| payments_same : paymentsAdvance s (payments s)
| payments_recorded lease row :
    hasId Payment.id (Payment.id row) (payments s) = false ->
    In lease (leases s) ->
    Payment.leaseId row = Some (Lease.id lease) ->
    Payment.tenantId row = Lease.tenantId lease ->
    Payment.status row = PaymentStatus.PENDING ->
    paymentsAdvance s (payments s ++ [row]).

(** The primary keys of the three tables that the handlers write. *)
Definition keysUnique (s : Store) : Prop :=
  NoDup (map Application.id (applications s))
  /\ NoDup (map Lease.id (leases s))
  /\ NoDup (map Payment.id (payments s)).

(** How far a lease has come: drafted, active, ended. *)
Definition leaseStage (st : LeaseStatus.t) : nat :=
  match st with
  | LeaseStatus.PENDING_SIGNATURE => 0
  | LeaseStatus.ACTIVE => 1
  | LeaseStatus.TERMINATED => 2
  | LeaseStatus.COMPLETED => 2
  end.

(** [l'] is a later state of the lease row [l]: the same row up to status
    and update time, not at an earlier stage, and the very same row when
    [l] had ended. *)
Definition laterOf (l l' : Lease.t) : Prop :=
  Lease.id l' = Lease.id l
  /\ Lease.propertyId l' = Lease.propertyId l
  /\ Lease.tenantId l' = Lease.tenantId l
  /\ Lease.applicationId l' = Lease.applicationId l
  /\ Lease.startDate l' = Lease.startDate l
  /\ Lease.endDate l' = Lease.endDate l
  /\ Lease.rentAmount l' = Lease.rentAmount l
  /\ Lease.securityDeposit l' = Lease.securityDeposit l
  /\ Lease.paymentDueDate l' = Lease.paymentDueDate l
  /\ Lease.leaseAgreementUrl l' = Lease.leaseAgreementUrl l
  /\ Lease.createdAt l' = Lease.createdAt l
  /\ (leaseStage (Lease.status l) <= leaseStage (Lease.status l'))%nat
  /\ (leaseStage (Lease.status l) = 2%nat -> l' = l).

(** Every lease that references an application carries the tenant and the
    property of that application, and the application is APPROVED. *)
Definition leasesFollowApplications (s : Store) : Prop :=
  forall l applicationId,
    In l (leases s) ->
    Lease.applicationId l = Some applicationId ->
    exists a, In a (applications s)
      /\ Application.id a = applicationId
      /\ Application.status a = ApplicationStatus.APPROVED
      /\ Application.tenantId a = Lease.tenantId l
      /\ Application.propertyId a = Lease.propertyId l.

(** No two lease rows reference the same application. *)
Definition oneLeasePerApplication (s : Store) : Prop :=
  forall l l' applicationId,
    In l (leases s) -> In l' (leases s) ->
    Lease.applicationId l = Some applicationId ->
    Lease.applicationId l' = Some applicationId ->
    Lease.id l = Lease.id l'.

(** Every payment that names a lease is booked on the tenant of a lease
    row with that key. *)
Definition paymentsFollowLeases (s : Store) : Prop :=
  forall p leaseId,
    In p (payments s) ->
    Payment.leaseId p = Some leaseId ->
    exists l, In l (leases s)
      /\ Lease.id l = leaseId
      /\ Lease.tenantId l = Payment.tenantId p.

(** The role a handler asks for, and the user of a request. *)
Definition requiredRole (c : Call) : Role.t :=
  match c with
  | SubmitApplication _ _ | WithdrawApplication _ _ => Role.tenant
  | UpdateApplicationStatus _ _ _ | CreateLease _ _
  | UpdateLeaseStatus _ _ _ | CreatePaymentRecord _ _ => Role.manager
  end.

Definition callerOf (c : Call) : option User.t :=
  match c with
  | SubmitApplication user _ | WithdrawApplication user _
  | UpdateApplicationStatus user _ _ | CreateLease user _
  | UpdateLeaseStatus user _ _ | CreatePaymentRecord user _ => user
  end.

(** ** Runs of all the handlers that write applications, leases and
    payments *)

(** A request to one of the six handlers of [handle] or to
    [updatePaymentStatus]. *)
Inductive Request :=
| Handled (c : Call)
| UpdatePaymentStatus (user : option User.t) (id : string)
    (body : UpdatePaymentInput.t).

Definition serve (env : Env) (q : Request) (s : Store) : Store :=
  match q with
  | Handled c => snd (handle env c s)
  | UpdatePaymentStatus user id body =>
    snd (updatePaymentStatus env user id body s)
  end.

Fixpoint serveAll (requests : list (Env * Request)) (s : Store) : Store :=
  match requests with
  | [] => s
  | (env, q) :: rest => serveAll rest (serve env q s)
  end.

(** The lease terms with another [applicationId]. *)
Definition withApplicationId (leaseData : CreateLeaseInput.t)
  (applicationId : option string) : CreateLeaseInput.t :=
  CreateLeaseInput.mk
    (CreateLeaseInput.propertyId leaseData)
    (CreateLeaseInput.tenantId leaseData)
    applicationId
    (CreateLeaseInput.startDate leaseData)
    (CreateLeaseInput.endDate leaseData)
    (CreateLeaseInput.rentAmount leaseData)
    (CreateLeaseInput.securityDeposit leaseData)
    (CreateLeaseInput.paymentDueDate leaseData)
    (CreateLeaseInput.leaseAgreementUrl leaseData).

(** ** The concrete marketplace, continued *)

Module Books.

Definition m2 : User.t :=
  User.mk "m2" "m2@example.com" Role.manager true None None.

(** After the first lease has ended the manager records the June rent on
    it and a deposit on the second lease. *)
Definition bothRecorded : list (Env * Call) :=
  (Scenario.firstEnded
     ++ [ (mkEnv "pay1" 9,
           CreatePaymentRecord (Some Scenario.m1) Ledger.rentOnLease1);
          (mkEnv "pay2" 10,
           CreatePaymentRecord (Some Scenario.m1) Ledger.depositOnLease2) ])
  %list.

Definition paid : Store := Eval vm_compute in run bothRecorded Scenario.store0.

Definition payment1 : Payment.t :=
  Payment.mk "pay1" "t1" (Some "l1") (Some "p1") 50000 "PKR"
    PaymentType.RENT PaymentStatus.PENDING PaymentMethod.BANK_TRANSFER
    Scenario.jun01 (Some "TXN-0001") None None 9 9.

Definition payment2 : Payment.t :=
  Payment.mk "pay2" "t2" (Some "l2") (Some "p1") 100000 "PKR"
    PaymentType.SECURITY_DEPOSIT PaymentStatus.PENDING PaymentMethod.JAZZCASH
    Scenario.jun01 None None (Some "before signature") 10 10.

Definition completed : UpdatePaymentInput.t :=
  UpdatePaymentInput.mk PaymentStatus.COMPLETED None
    (Some "https://receipts.example/pay1") None.

(** The store's order of insertion, for every field. *)
Definition insertionOrder (field : string) (desc : bool)
  (rows : list Payment.t) : option (list Payment.t) := Some rows.

Definition firstPage : PaymentQuery.t :=
  PaymentQuery.mk 1 10 None None None None "-paymentDate".

Definition tenant1List : PaymentList.t :=
  PaymentList.mk [payment1]
    (Pagination.mk 1 1 1 10 false false)
    (PaymentStats.mk 1 0 1 0 0).

Definition termsUnnamed : CreateLeaseInput.t :=
  CreateLeaseInput.mk "p1" "t1" None Scenario.jan01 Scenario.dec31
    50000 100000 5 None.

Definition jwks : list JwksKey.t :=
  [ JwksKey.mk (Some "k1") (Some "AQAB"); JwksKey.mk None (Some "skipped") ].

(** The payments are recorded, the first is completed and then refunded. *)
Definition settled : list (Env * Request) :=
  (map (fun request => (fst request, Handled (snd request))) bothRecorded
     ++ [ (mkEnv "-" 11,
           UpdatePaymentStatus (Some Scenario.m1) "pay1" completed);
          (mkEnv "-" 12,
           UpdatePaymentStatus (Some Scenario.m1) "pay1"
             (UpdatePaymentInput.mk PaymentStatus.REFUNDED None None
                (Some "returned"))) ])%list.

(** Only the first application has been approved. *)
Definition oneApproved : Store :=
  Eval vm_compute in
    run (Scenario.bothApplied
           ++ [ (mkEnv "" 3,
                 UpdateApplicationStatus (Some Scenario.m1) "a1"
                   "APPROVED") ])%list
        Scenario.store0.

End Books.

(** * Properties *)

(** ** Equality tests of the enumerations *)

Lemma ApplicationStatus_eqb_eq a b : ApplicationStatus.eqb a b = true <-> a = b.
Proof. destruct a, b; simpl; split; congruence. Qed.

Lemma LeaseStatus_eqb_eq a b : LeaseStatus.eqb a b = true <-> a = b.
Proof. destruct a, b; simpl; split; congruence. Qed.

(** ** Lookups in a table *)

Lemma find_none_existsb {A} (f : A -> bool) (rows : list A) :
  find f rows = None <-> existsb f rows = false.
Proof.
  induction rows as [|r rows IH]; simpl.
  - tauto.
  - destruct (f r); simpl; [split; discriminate | exact IH].
Qed.

Lemma find_finds {A} (f : A -> bool) (rows : list A) (x : A) :
  In x rows -> f x = true -> exists y, find f rows = Some y.
Proof.
  intros Hin Hf.
  destruct (find f rows) as [y|] eqn:E; [now exists y|].
  exfalso. pose proof (find_none f rows E x Hin). congruence.
Qed.

Lemma hasId_In {A} (key : A -> string) (rows : list A) (x : A) :
  In x rows -> hasId key (key x) rows = true.
Proof.
  intros Hin. unfold hasId. apply existsb_exists.
  exists x. split; [assumption | apply String.eqb_refl].
Qed.

Lemma propertyManagedBy_hasId s propertyId managerId :
  propertyManagedBy s propertyId managerId = true ->
  hasId Property.id propertyId (properties s) = true.
Proof.
  unfold propertyManagedBy, hasId. intros H.
  apply existsb_exists in H. destruct H as [p [Hin Hp]].
  apply andb_true_iff in Hp. destruct Hp as [Hid _].
  apply existsb_exists. now exists p.
Qed.

(** What the application lookup of [createLease] guarantees about the row it
    returns. *)
Lemma approvedApplicationOf_found applicationId managerId s application :
  find (approvedApplicationOf applicationId managerId s) (applications s)
    = Some application ->
  In application (applications s)
  /\ whereEq applicationId (Application.id application) = true
  /\ Application.status application = ApplicationStatus.APPROVED
  /\ propertyManagedBy s (Application.propertyId application) managerId = true.
Proof.
  intros H. apply find_some in H. destruct H as [Hin H].
  unfold approvedApplicationOf in H.
  apply andb_true_iff in H. destruct H as [H Hp].
  apply andb_true_iff in H. destruct H as [Hid Hst].
  apply ApplicationStatus_eqb_eq in Hst. auto.
Qed.

(** ** createLease *)

Lemma activeLeaseDuring_spec propertyId startDate endDate l :
  activeLeaseDuring propertyId startDate endDate l = true <->
  Lease.propertyId l = propertyId
  /\ Lease.status l = LeaseStatus.ACTIVE
  /\ (Lease.startDate l <= endDate)%Z
  /\ (Lease.endDate l >= startDate)%Z.
Proof.
  unfold activeLeaseDuring.
  rewrite !andb_true_iff, String.eqb_eq, LeaseStatus_eqb_eq,
    Z.leb_le, Z.geb_le.
  intuition lia.
Qed.

Lemma activeOverlap_find s propertyId startDate endDate :
  activeOverlap s propertyId startDate endDate <->
  exists l, find (activeLeaseDuring propertyId startDate endDate) (leases s)
            = Some l.
Proof.
  split.
  - intros [l [Hin Hl]]. apply (find_finds _ _ l Hin).
    now apply activeLeaseDuring_spec.
  - intros [l Hl]. apply find_some in Hl. destruct Hl as [Hin Hl].
    exists l. split; [assumption | now apply activeLeaseDuring_spec].
Qed.

(** C2. For an approved application on a property of the requesting
    manager and a request for the range [[startDate, endDate]]: when an
    ACTIVE lease of that property has [start <= endDate] and
    [end >= startDate], createLease answers 409 (a conflict) and writes
    nothing; when there is none, no lease references the application yet
    and the insert is well-formed, it answers 201 and appends one lease in
    status PENDING_SIGNATURE whose tenantId and propertyId are the
    application's. *)
Theorem createLease_conflict_or_created :
  forall env u leaseData s application,
    User.role u = Role.manager ->
    find (approvedApplicationOf (CreateLeaseInput.applicationId leaseData)
            (User.id u) s) (applications s) = Some application ->
    (activeOverlap s (Application.propertyId application)
       (CreateLeaseInput.startDate leaseData)
       (CreateLeaseInput.endDate leaseData) ->
     exists r, createLease env (Some u) leaseData s = (r, s)
       /\ Response.status r = 409%Z
       /\ Response.success r = false
       /\ (Response.code r = Some "LEASE_CONFLICT"
           \/ Response.code r = Some "LEASE_EXISTS")
       /\ (find (fun l => optEqb (Lease.applicationId l)
                            (Application.id application)) (leases s) = None ->
           Response.code r = Some "LEASE_CONFLICT"))
    /\
    (~ activeOverlap s (Application.propertyId application)
         (CreateLeaseInput.startDate leaseData)
         (CreateLeaseInput.endDate leaseData) ->
     find (fun l => optEqb (Lease.applicationId l)
                      (Application.id application)) (leases s) = None ->
     hasId Lease.id (uuid env) (leases s) = false ->
     hasId Tenant.id (Application.tenantId application) (tenants s) = true ->
     let lease := newLease env application leaseData in
     createLease env (Some u) leaseData s
       = (Response.ok 201 "Lease created successfully" (LeaseCreated lease),
          mkStore (tenants s) (properties s) (applications s)
                  (leases s ++ [lease]) (payments s))
     /\ Lease.status lease = LeaseStatus.PENDING_SIGNATURE
     /\ Lease.tenantId lease = Application.tenantId application
     /\ Lease.propertyId lease = Application.propertyId application).
Proof.
  intros env u leaseData s application Hrole Happ.
  pose proof (approvedApplicationOf_found _ _ _ Happ)
    as [Hin [_ [_ Hmanaged]]].
  split.
  - intros Hov. apply activeOverlap_find in Hov. destruct Hov as [c Hc].
    unfold createLease. rewrite Hrole. simpl. run_handler.
    rewrite Happ.
    destruct (find (fun l => optEqb (Lease.applicationId l)
                               (Application.id application)) (leases s))
      as [existing|] eqn:Eex.
    + eexists. split; [reflexivity|]. simpl.
      repeat split; auto. discriminate.
    + rewrite Hc. eexists. split; [reflexivity|]. simpl.
      repeat split; auto.
  - intros Hno Hfree Hfresh Htenant lease.
    split; [|repeat split].
    unfold createLease. rewrite Hrole. simpl. run_handler.
    rewrite Happ, Hfree.
    destruct (find (activeLeaseDuring (Application.propertyId application)
                      (CreateLeaseInput.startDate leaseData)
                      (CreateLeaseInput.endDate leaseData)) (leases s))
      as [c|] eqn:Ec.
    + exfalso. apply Hno. apply activeOverlap_find. now exists c.
    + unfold prisma.lease.create. simpl.
      rewrite Hfresh, Htenant.
      rewrite (propertyManagedBy_hasId _ _ _ Hmanaged).
      rewrite (hasId_In Application.id _ _ Hin).
      apply find_none_existsb in Hfree. rewrite Hfree.
      reflexivity.
Qed.

(** Every way in which [createLease] can answer with [success: true]. *)
Lemma createLease_success_inv env user leaseData s r s' :
  createLease env user leaseData s = (r, s') ->
  Response.success r = true ->
  exists u application,
    user = Some u
    /\ find (approvedApplicationOf (CreateLeaseInput.applicationId leaseData)
               (User.id u) s) (applications s) = Some application
    /\ r = Response.ok 201 "Lease created successfully"
             (LeaseCreated (newLease env application leaseData))
    /\ s' = mkStore (tenants s) (properties s) (applications s)
              (leases s ++ [newLease env application leaseData]) (payments s).
Proof.
  unfold createLease. intros H Hok.
  destruct user as [u|]; simpl in H.
  2:{ inversion H; subst; discriminate. }
  destruct (Role.eqb (User.role u) Role.manager); simpl in H.
  2:{ inversion H; subst; discriminate. }
  revert H. run_handler.
  destruct (find (approvedApplicationOf _ (User.id u) s) (applications s))
    as [application|] eqn:Happ.
  2:{ intros H; inversion H; subst; discriminate. }
  destruct (find _ (leases s)) as [existing|].
  1:{ intros H; inversion H; subst; discriminate. }
  destruct (find _ (leases s)) as [conflicting|].
  1:{ intros H; inversion H; subst; discriminate. }
  unfold prisma.lease.create.
  repeat match goal with
         | |- context [if ?b then None else _] => destruct b
         end;
    intros H; inversion H; subst; try discriminate.
  exists u, application. auto.
Qed.

(** C8. A createLease call that succeeds leaves every Application row as it
    was, the originating one included (it is still in the table, still
    APPROVED); tenants, properties and payments are untouched as well, and
    the lease table gains exactly the created row. *)
Theorem createLease_frame :
  forall env user leaseData s r s',
    createLease env user leaseData s = (r, s') ->
    Response.success r = true ->
    applications s' = applications s
    /\ tenants s' = tenants s
    /\ properties s' = properties s
    /\ payments s' = payments s
    /\ exists u application,
         user = Some u
         /\ find (approvedApplicationOf
                    (CreateLeaseInput.applicationId leaseData) (User.id u) s)
                 (applications s) = Some application
         /\ In application (applications s')
         /\ Application.status application = ApplicationStatus.APPROVED
         /\ leases s' = (leases s ++ [newLease env application leaseData])%list
         /\ Lease.applicationId (newLease env application leaseData)
            = Some (Application.id application).
Proof.
  intros env user leaseData s r s' H Hok.
  destruct (createLease_success_inv _ _ _ _ H Hok)
    as [u [application [Hu [Happ [_ Hs']]]]].
  subst s'. simpl. repeat split.
  exists u, application.
  pose proof (approvedApplicationOf_found _ _ _ Happ) as [Hin [_ [Hst _]]].
  repeat split; auto.
Qed.

(** ** The overlap invariant *)

Lemma noOverlappingActiveLeasesb_spec s :
  noOverlappingActiveLeasesb s = true <-> noOverlappingActiveLeases s.
Proof.
  unfold noOverlappingActiveLeasesb, noOverlappingActiveLeases.
  rewrite forallb_forall. split.
  - intros H a b Ha Hb Hid Hboth.
    specialize (H a Ha). rewrite forallb_forall in H. specialize (H b Hb).
    rewrite Hboth in H. simpl in H.
    destruct (String.eqb_spec (Lease.id a) (Lease.id b)) as [E|_];
      [contradiction|].
    simpl in H. now apply negb_true_iff in H.
  - intros H a Ha. rewrite forallb_forall. intros b Hb.
    destruct (String.eqb_spec (Lease.id a) (Lease.id b)) as [E|N];
      [reflexivity|]. simpl.
    destruct (bothActiveOnOneProperty a b) eqn:Hboth; [|reflexivity]. simpl.
    now rewrite (H a b Ha Hb N Hboth).
Qed.

(** C1 fails on the code. From a store without leases the run [bothDrafted]
    reaches a store that satisfies the invariant (one ACTIVE lease for
    January to December 2024, one PENDING_SIGNATURE lease for June 2024 on
    the same property); there updateLeaseStatus accepts the activation of
    the second lease with a 200 and the resulting store holds two ACTIVE
    leases of property p1 whose ranges overlap. *)
Theorem updateLeaseStatus_activates_overlapping_lease :
  let s := run Scenario.bothDrafted Scenario.store0 in
  let result :=
    updateLeaseStatus (mkEnv "" 8) (Some Scenario.m1) "l2" "ACTIVE" s in
  noOverlappingActiveLeases Scenario.store0
  /\ noOverlappingActiveLeases s
  /\ Response.status (fst result) = 200%Z
  /\ ~ noOverlappingActiveLeases (snd result).
Proof.
  cbv zeta. repeat split.
  - apply noOverlappingActiveLeasesb_spec. reflexivity.
  - apply noOverlappingActiveLeasesb_spec. vm_compute. reflexivity.
  - intros H. apply noOverlappingActiveLeasesb_spec in H.
    vm_compute in H. discriminate.
Qed.

(** ** updateLeaseStatus *)

Lemma includes_In xs x : includes xs x = true <-> In x xs.
Proof.
  unfold includes. rewrite existsb_exists. split.
  - intros [y [Hin Hy]]. apply String.eqb_eq in Hy. now subst.
  - intros Hin. exists x. split; [assumption | apply String.eqb_refl].
Qed.

Lemma validTransitions_spec currentStatus target :
  includes (validTransitions currentStatus) target = true
  <-> inTransitionTable currentStatus target.
Proof.
  rewrite includes_In. unfold inTransitionTable.
  destruct currentStatus; simpl; intuition (try discriminate; auto).
Qed.

Lemma validTransitions_valid currentStatus target :
  includes (validTransitions currentStatus) target = true ->
  includes validStatuses target = true
  /\ exists newStatus, LeaseStatus.ofString target = Some newStatus
                       /\ LeaseStatus.toString newStatus = target.
Proof.
  intros H. apply validTransitions_spec in H.
  destruct H as [[_ [H|H]]|[_ [H|H]]]; subst target;
    (split; [reflexivity | eexists; split; reflexivity]).
Qed.

Lemma leaseManagedBy_found leaseId managerId s lease :
  find (leaseManagedBy leaseId managerId s) (leases s) = Some lease ->
  In lease (leases s) /\ Lease.id lease = leaseId
  /\ propertyManagedBy s (Lease.propertyId lease) managerId = true.
Proof.
  intros H. apply find_some in H. destruct H as [Hin H].
  unfold leaseManagedBy in H. apply andb_true_iff in H.
  destruct H as [Hid Hp]. apply String.eqb_eq in Hid. auto.
Qed.


(** ** submitApplication *)

(** C6. For a tenant and an existing property: when the store holds an
    application of that tenant for that property, in whatever status,
    submitApplication answers 409 APPLICATION_EXISTS, reports such a row and
    writes nothing; when it holds none (and the insert is well-formed: the
    generated id is new and the tenant is registered) it answers 201 with
    the row it appended, whose status is PENDING. *)
Theorem submitApplication_conflict_or_created :
  forall env u applicationData s property,
    User.role u = Role.tenant ->
    find (fun p => Property.id p
                     =? CreateApplicationInput.propertyId applicationData)
         (properties s) = Some property ->
    (forall a,
        In a (applications s) ->
        Application.tenantId a = User.id u ->
        Application.propertyId a
          = CreateApplicationInput.propertyId applicationData ->
        exists existing,
          In existing (applications s)
          /\ Application.tenantId existing = User.id u
          /\ Application.propertyId existing
             = CreateApplicationInput.propertyId applicationData
          /\ submitApplication env (Some u) applicationData s
             = (Response.failure 409
                  "You have already applied for this property"
                  "APPLICATION_EXISTS"
                  (ExistingApplication (Application.id existing)
                     (Application.status existing)
                     (Application.createdAt existing)),
                s))
    /\
    ((forall a,
         In a (applications s) ->
         ~ (Application.tenantId a = User.id u
            /\ Application.propertyId a
               = CreateApplicationInput.propertyId applicationData)) ->
     hasId Application.id (uuid env) (applications s) = false ->
     hasId Tenant.id (User.id u) (tenants s) = true ->
     let application := newApplication env (User.id u) applicationData in
     submitApplication env (Some u) applicationData s
       = (Response.ok 201 "Application submitted successfully"
            (ApplicationSubmitted application),
          mkStore (tenants s) (properties s)
                  (applications s ++ [application])
                  (leases s) (payments s))
     /\ Application.status application = ApplicationStatus.PENDING
     /\ Application.tenantId application = User.id u
     /\ Application.propertyId application
        = CreateApplicationInput.propertyId applicationData).
Proof.
  intros env u applicationData s property Hrole Hprop.
  set (pid := CreateApplicationInput.propertyId applicationData) in *.
  set (mine := fun a => (Application.propertyId a =? pid)
                        && (Application.tenantId a =? User.id u)).
  assert (Hmine : forall a, mine a = true <->
                    Application.tenantId a = User.id u
                    /\ Application.propertyId a = pid).
  { intros a. unfold mine.
    rewrite andb_true_iff, !String.eqb_eq. tauto. }
  split.
  - intros a Hin Ht Hp.
    destruct (find_finds mine (applications s) a Hin) as [existing Hex].
    { apply Hmine. auto. }
    pose proof (find_some _ _ Hex) as [Hin' Hm]. apply Hmine in Hm.
    exists existing. repeat split; try tauto.
    unfold submitApplication. rewrite Hrole. cbn [negb Role.eqb].
    run_handler. fold pid. rewrite Hprop. fold mine. rewrite Hex.
    reflexivity.
  - intros Hnone Hfresh Htenant application.
    split; [|repeat split].
    assert (Hex : find mine (applications s) = None).
    { destruct (find mine (applications s)) as [a|] eqn:E; [|reflexivity].
      exfalso. apply find_some in E. destruct E as [Hin Hm].
      apply (Hnone a Hin). now apply Hmine. }
    assert (Hp : hasId Property.id pid (properties s) = true).
    { pose proof (find_some _ _ Hprop) as [Hpin Hpid].
      apply String.eqb_eq in Hpid. rewrite <- Hpid.
      now apply hasId_In. }
    unfold submitApplication. rewrite Hrole. cbn [negb Role.eqb].
    run_handler. fold pid. rewrite Hprop. fold mine. rewrite Hex.
    unfold prisma.application.create.
    cbn [newApplication Application.id Application.propertyId
           Application.tenantId].
    fold pid. rewrite Hfresh, Htenant, Hp.
    reflexivity.
Qed.

(** ** withdrawApplication and updateApplicationStatus *)

(** C7. For an application the caller may see (the tenant's own for
    withdraw, one on a property of the manager for a decision APPROVED or
    REJECTED): the call succeeds exactly when the application is PENDING,
    and then sets the status of the row; in any other status it answers 400
    with code INVALID_STATUS_FOR_WITHDRAWAL, respectively
    INVALID_STATUS_FOR_UPDATE, the payload carrying the current status, and
    writes nothing. *)
Theorem application_changes_only_when_pending :
  forall env applicationId s application,
    (forall u r s',
        User.role u = Role.tenant ->
        find (fun a => (Application.id a =? applicationId)
                       && (Application.tenantId a =? User.id u))
             (applications s) = Some application ->
        withdrawApplication env (Some u) applicationId s = (r, s') ->
        (Response.success r = true
         <-> Application.status application = ApplicationStatus.PENDING)
        /\ (Application.status application = ApplicationStatus.PENDING ->
            Response.status r = 200%Z
            /\ s' = mkStore (tenants s) (properties s)
                      (applicationsWithStatus applicationId
                         ApplicationStatus.WITHDRAWN (now env)
                         (applications s))
                      (leases s) (payments s))
        /\ (Application.status application <> ApplicationStatus.PENDING ->
            r = Response.failure 400
                  ("Cannot withdraw application with status: "
                     ++ ApplicationStatus.toString
                          (Application.status application))
                  "INVALID_STATUS_FOR_WITHDRAWAL"
                  (CurrentStatus (Application.status application) "PENDING")
            /\ s' = s))
    /\
    (forall u decision r s',
        User.role u = Role.manager ->
        decision = ApplicationStatus.APPROVED
        \/ decision = ApplicationStatus.REJECTED ->
        find (applicationManagedBy applicationId (User.id u) s)
             (applications s) = Some application ->
        updateApplicationStatus env (Some u) applicationId
          (ApplicationStatus.toString decision) s = (r, s') ->
        (Response.success r = true
         <-> Application.status application = ApplicationStatus.PENDING)
        /\ (Application.status application = ApplicationStatus.PENDING ->
            Response.status r = 200%Z
            /\ s' = mkStore (tenants s) (properties s)
                      (applicationsWithStatus applicationId decision (now env)
                         (applications s))
                      (leases s) (payments s))
        /\ (Application.status application <> ApplicationStatus.PENDING ->
            r = Response.failure 400
                  ("Cannot update application with status: "
                     ++ ApplicationStatus.toString
                          (Application.status application))
                  "INVALID_STATUS_FOR_UPDATE"
                  (CurrentStatus (Application.status application) "PENDING")
            /\ s' = s)).
Proof.
  intros env applicationId s application. split.
  - intros u r s' Hrole Hfind.
    pose proof (find_some _ _ Hfind) as [Hin Hm].
    apply andb_true_iff in Hm. destruct Hm as [Hid _].
    unfold withdrawApplication. rewrite Hrole. cbn [negb Role.eqb].
    run_handler. rewrite Hfind.
    destruct (ApplicationStatus.eqb (Application.status application)
                ApplicationStatus.PENDING) eqn:Hst; cbn [negb].
    + apply ApplicationStatus_eqb_eq in Hst.
      unfold prisma.application.update.
      destruct (find_finds (fun a => Application.id a =? applicationId)
                  (applications s) application Hin Hid) as [row Hrow].
      rewrite Hrow. intros H. inversion H; subst r s'; clear H.
      split; [simpl; tauto|]. split; [auto | tauto].
    + assert (Hne : Application.status application
                    <> ApplicationStatus.PENDING).
      { rewrite <- ApplicationStatus_eqb_eq. congruence. }
      intros H. inversion H; subst r s'; clear H.
      split; [simpl; split; [discriminate | tauto]|].
      split; [tauto | auto].
  - intros u decision r s' Hrole Hdecision Hfind.
    pose proof (find_some _ _ Hfind) as [Hin Hm].
    unfold applicationManagedBy in Hm.
    apply andb_true_iff in Hm. destruct Hm as [Hid _].
    unfold updateApplicationStatus. rewrite Hrole. cbn [negb Role.eqb].
    assert (Hlisted : includes ["APPROVED"; "REJECTED"]
                        (ApplicationStatus.toString decision) = true
                      /\ ApplicationStatus.ofString
                           (ApplicationStatus.toString decision)
                         = Some decision).
    { destruct Hdecision; subst decision; split; reflexivity. }
    destruct Hlisted as [Hlisted Hparse].
    rewrite Hlisted. cbn [negb].
    run_handler. rewrite Hfind.
    destruct (ApplicationStatus.eqb (Application.status application)
                ApplicationStatus.PENDING) eqn:Hst; cbn [negb].
    + apply ApplicationStatus_eqb_eq in Hst.
      rewrite Hparse. unfold prisma.application.update.
      destruct (find_finds (fun a => Application.id a =? applicationId)
                  (applications s) application Hin Hid) as [row Hrow].
      rewrite Hrow. intros H. inversion H; subst r s'; clear H.
      split; [simpl; tauto|]. split; [auto | tauto].
    + assert (Hne : Application.status application
                    <> ApplicationStatus.PENDING).
      { rewrite <- ApplicationStatus_eqb_eq. congruence. }
      intros H. inversion H; subst r s'; clear H.
      split; [simpl; split; [discriminate | tauto]|].
      split; [tauto | auto].
Qed.

(** ** createPaymentRecord *)

Lemma leaseTenant_id s lease tenant :
  leaseTenant s lease = Some tenant -> Tenant.id tenant = Lease.tenantId lease.
Proof.
  unfold leaseTenant. intros H. apply find_some in H.
  destruct H as [_ H]. now apply String.eqb_eq in H.
Qed.

(** Every way in which [createPaymentRecord] can answer with
    [success: true]. *)
Lemma createPaymentRecord_success_inv env user paymentData s r s' :
  createPaymentRecord env user paymentData s = (r, s') ->
  Response.success r = true ->
  exists u lease tenant,
    user = Some u
    /\ truthy (CreatePaymentInput.leaseId paymentData) = true
    /\ find (paymentLeaseOf paymentData (User.id u) s) (leases s) = Some lease
    /\ leaseTenant s lease = Some tenant
    /\ r = Response.ok 201 "Payment record created successfully"
             (PaymentCreated
                (newPayment env tenant (leaseProperty s lease) paymentData))
    /\ s' = mkStore (tenants s) (properties s) (applications s) (leases s)
              (payments s
                 ++ [newPayment env tenant (leaseProperty s lease) paymentData]).
Proof.
  unfold createPaymentRecord. intros H Hok.
  destruct user as [u|]; simpl in H.
  2:{ inversion H; subst; discriminate. }
  destruct (Role.eqb (User.role u) Role.manager); simpl in H.
  2:{ inversion H; subst; discriminate. }
  revert H. unfold resolvePaymentContext.
  destruct (truthy (CreatePaymentInput.leaseId paymentData)) eqn:Hlease.
  - run_handler.
    destruct (find (paymentLeaseOf paymentData (User.id u) s) (leases s))
      as [lease|] eqn:Hfind.
    2:{ intros H; inversion H; subst; discriminate. }
    destruct (leaseTenant s lease) as [tenant|] eqn:Htenant.
    + unfold prisma.payment.create.
      repeat match goal with
             | |- context [if ?b then None else _] => destruct b
             end;
        intros H; inversion H; subst; try discriminate.
      exists u, lease, tenant. repeat split; auto.
    + rewrite Htenant. intros H; inversion H; subst; discriminate.
  - destruct (truthy (CreatePaymentInput.propertyId paymentData)).
    + run_handler. destruct (find _ (properties s));
        intros H; inversion H; subst; discriminate.
    + run_handler. intros H; inversion H; subst; discriminate.
Qed.

(** C9. A request that names a property of the requesting manager and no
    lease is answered 400 TENANT_REQUIRED and writes nothing. Hence every
    payment that is created names a lease: the lease is a row of the store
    on a property of the manager, and the tenant of the payment is the
    tenant of that lease (the request body has no tenant field). *)
Theorem createPaymentRecord_tenant_from_lease :
  forall env paymentData s,
    (forall u propertyId property,
        User.role u = Role.manager ->
        CreatePaymentInput.leaseId paymentData = None ->
        CreatePaymentInput.propertyId paymentData = Some propertyId ->
        propertyId <> "" ->
        find (paymentPropertyOf paymentData (User.id u)) (properties s)
          = Some property ->
        createPaymentRecord env (Some u) paymentData s
        = (Response.failure 400
             "Tenant information is required for payment records"
             "TENANT_REQUIRED" NoData,
           s))
    /\
    (forall user r s',
        createPaymentRecord env user paymentData s = (r, s') ->
        Response.success r = true ->
        exists u leaseId lease payment,
          user = Some u
          /\ CreatePaymentInput.leaseId paymentData = Some leaseId
          /\ In lease (leases s)
          /\ Lease.id lease = leaseId
          /\ propertyManagedBy s (Lease.propertyId lease) (User.id u) = true
          /\ Payment.tenantId payment = Lease.tenantId lease
          /\ Payment.leaseId payment = Some leaseId
          /\ r = Response.ok 201 "Payment record created successfully"
                   (PaymentCreated payment)
          /\ payments s' = (payments s ++ [payment])%list).
Proof.
  intros env paymentData s. split.
  - intros u propertyId property Hrole Hlease Hprop Hne Hfind.
    unfold createPaymentRecord. rewrite Hrole. cbn [negb Role.eqb].
    unfold resolvePaymentContext. rewrite Hlease, Hprop.
    cbn [truthy].
    apply String.eqb_neq in Hne. rewrite Hne. cbn [negb].
    run_handler. rewrite Hfind. reflexivity.
  - intros user r s' H Hok.
    destruct (createPaymentRecord_success_inv _ _ _ _ H Hok)
      as [u [lease [tenant [Hu [Htruthy [Hfind [Htenant [Hr Hs']]]]]]]].
    destruct (CreatePaymentInput.leaseId paymentData) as [leaseId|] eqn:Hid;
      [|discriminate].
    apply find_some in Hfind. destruct Hfind as [Hin Hm].
    unfold paymentLeaseOf in Hm. rewrite Hid in Hm. cbn [whereEq] in Hm.
    apply andb_true_iff in Hm. destruct Hm as [Hm Hp].
    apply String.eqb_eq in Hm.
    exists u, leaseId, lease,
      (newPayment env tenant (leaseProperty s lease) paymentData).
    subst s'. cbn [newPayment Payment.tenantId Payment.leaseId payments].
    rewrite (leaseTenant_id _ _ Htenant), Hid.
    repeat split; auto.
Qed.

(** C10. A payment against a lease of a property of the requesting manager
    is created (201, status PENDING, tenant of the lease) with no condition
    on the status of the lease, which no hypothesis mentions: it may be
    PENDING_SIGNATURE, ACTIVE, TERMINATED or COMPLETED. The insert has
    to be well-formed: a new payment id, the tenant row of the lease in
    place, and a propertyId, when the body carries one, that names a
    property. *)
Theorem createPaymentRecord_any_lease_status :
  forall env u paymentData s leaseId lease tenant,
    User.role u = Role.manager ->
    CreatePaymentInput.leaseId paymentData = Some leaseId ->
    leaseId <> "" ->
    find (paymentLeaseOf paymentData (User.id u) s) (leases s) = Some lease ->
    leaseTenant s lease = Some tenant ->
    hasId Payment.id (uuid env) (payments s) = false ->
    (truthy (CreatePaymentInput.propertyId paymentData) = true ->
     refOk Property.id (CreatePaymentInput.propertyId paymentData)
       (properties s) = true) ->
    let payment := newPayment env tenant (leaseProperty s lease) paymentData in
    createPaymentRecord env (Some u) paymentData s
    = (Response.ok 201 "Payment record created successfully"
         (PaymentCreated payment),
       mkStore (tenants s) (properties s) (applications s) (leases s)
               (payments s ++ [payment]))
    /\ Payment.status payment = PaymentStatus.PENDING
    /\ Payment.tenantId payment = Lease.tenantId lease
    /\ Payment.leaseId payment = Some (Lease.id lease).
Proof.
  intros env u paymentData s leaseId lease tenant
    Hrole Hid Hne Hfind Htenant Hfresh Hprop payment.
  pose proof (find_some _ _ Hfind) as [Hin Hm].
  unfold paymentLeaseOf in Hm. rewrite Hid in Hm. cbn [whereEq] in Hm.
  apply andb_true_iff in Hm. destruct Hm as [Hm _].
  apply String.eqb_eq in Hm.
  split; [|repeat split].
  - unfold createPaymentRecord. rewrite Hrole. cbn [negb Role.eqb].
    unfold resolvePaymentContext.
    assert (Htruthy : truthy (CreatePaymentInput.leaseId paymentData) = true).
    { rewrite Hid. cbn [truthy]. apply String.eqb_neq in Hne.
      now rewrite Hne. }
    rewrite Htruthy. run_handler.
    rewrite Hfind, Htenant.
    unfold prisma.payment.create.
    cbn [newPayment Payment.id Payment.tenantId Payment.leaseId
           Payment.propertyId].
    rewrite Hfresh.
    pose proof (find_some _ _ Htenant) as [Htin Htid].
    apply String.eqb_eq in Htid.
    rewrite (hasId_In Tenant.id _ _ Htin).
    rewrite Hid. cbn [refOk]. rewrite Hm.
    rewrite (hasId_In Lease.id _ _ Hin). cbn [negb].
    assert (Hp : refOk Property.id
                   (if truthy (CreatePaymentInput.propertyId paymentData)
                    then CreatePaymentInput.propertyId paymentData
                    else option_map Property.id (leaseProperty s lease))
                   (properties s) = true).
    { destruct (truthy (CreatePaymentInput.propertyId paymentData));
        [now apply Hprop|].
      destruct (leaseProperty s lease) as [p|] eqn:Hlp; [|reflexivity].
      unfold leaseProperty in Hlp. apply find_some in Hlp.
      destruct Hlp as [Hpin _]. cbn [option_map refOk].
      now apply hasId_In. }
    rewrite Hp. cbn [negb]. unfold payment, newPayment.
    rewrite Hid, Hm. reflexivity.
  - unfold payment. cbn [newPayment Payment.tenantId].
    exact (leaseTenant_id _ _ Htenant).
  - unfold payment. cbn [newPayment Payment.leaseId]. congruence.
Qed.

(** ** Every handler moves the store by one step *)

Lemma evolves_refl s : evolves s s.
Proof. split; auto using applications_kept, leases_kept. Qed.

Lemma submitApplication_evolves env user applicationData s :
  evolves s (snd (submitApplication env user applicationData s)).
Proof.
  unfold submitApplication. run_handler.
  destruct user as [u|]; [|kept].
  destruct (negb (Role.eqb (User.role u) Role.tenant)); [kept|].
  destruct (find _ (properties s)); [|kept].
  destruct (find _ (applications s)); [kept|].
  unfold prisma.application.create. cbn [newApplication Application.id].
  destruct (hasId Application.id (uuid env) (applications s)) eqn:Hfresh;
    [kept|].
  destruct (negb (hasId Property.id _ (properties s))); [kept|].
  destruct (negb (hasId Tenant.id _ (tenants s))); [kept|].
  simpl. split; simpl; auto using leases_kept.
  now apply applications_inserted.
Qed.

Lemma withdrawApplication_evolves env user applicationId s :
  evolves s (snd (withdrawApplication env user applicationId s)).
Proof.
  unfold withdrawApplication. run_handler.
  destruct user as [u|]; [|kept].
  destruct (negb (Role.eqb (User.role u) Role.tenant)); [kept|].
  destruct (find (fun a => (Application.id a =? applicationId)
                           && (Application.tenantId a =? User.id u))
                 (applications s)) as [a|] eqn:Hfind; [|kept].
  destruct (ApplicationStatus.eqb (Application.status a)
              ApplicationStatus.PENDING) eqn:Hst; cbn [negb]; [|kept].
  unfold prisma.application.update.
  destruct (find (fun r => Application.id r =? applicationId)
                 (applications s)); [|kept].
  apply find_some in Hfind. destruct Hfind as [Hin Hm].
  apply andb_true_iff in Hm. destruct Hm as [Hid _].
  apply String.eqb_eq in Hid. apply ApplicationStatus_eqb_eq in Hst.
  simpl. split; simpl; auto using leases_kept.
  rewrite <- Hid. now apply applications_decided.
Qed.

Lemma updateApplicationStatus_evolves env user applicationId status s :
  evolves s (snd (updateApplicationStatus env user applicationId status s)).
Proof.
  unfold updateApplicationStatus. run_handler.
  destruct user as [u|]; [|kept].
  destruct (negb (Role.eqb (User.role u) Role.manager)); [kept|].
  destruct (negb (includes _ status)); [kept|].
  destruct (find (applicationManagedBy applicationId (User.id u) s)
                 (applications s)) as [a|] eqn:Hfind; [|kept].
  destruct (ApplicationStatus.eqb (Application.status a)
              ApplicationStatus.PENDING) eqn:Hst; cbn [negb]; [|kept].
  destruct (ApplicationStatus.ofString status) as [newStatus|]; [|kept].
  unfold prisma.application.update.
  destruct (find (fun r => Application.id r =? applicationId)
                 (applications s)); [|kept].
  apply find_some in Hfind. destruct Hfind as [Hin Hm].
  unfold applicationManagedBy in Hm.
  apply andb_true_iff in Hm. destruct Hm as [Hid _].
  apply String.eqb_eq in Hid. apply ApplicationStatus_eqb_eq in Hst.
  simpl. split; simpl; auto using leases_kept.
  rewrite <- Hid. now apply applications_decided.
Qed.

Lemma createLease_evolves env user leaseData s :
  evolves s (snd (createLease env user leaseData s)).
Proof.
  destruct (createLease env user leaseData s) as [r s'] eqn:H.
  destruct (Response.success r) eqn:Hok.
  - destruct (createLease_success_inv _ _ _ _ H Hok)
      as [u [application [_ [_ [_ Hs']]]]].
    subst s'. simpl. split; simpl;
      auto using applications_kept, leases_inserted.
  - assert (Hs : s' = s); [|subst s'; kept].
    revert H. unfold createLease. run_handler.
    unfold prisma.lease.create.
    split_handler; intros H; inversion H; subst; auto; discriminate.
Qed.

Lemma updateLeaseStatus_evolves env user leaseId status s :
  evolves s (snd (updateLeaseStatus env user leaseId status s)).
Proof.
  unfold updateLeaseStatus. run_handler.
  destruct user as [u|]; [|kept].
  destruct (negb (Role.eqb (User.role u) Role.manager)); [kept|].
  destruct (negb (includes validStatuses status)); [kept|].
  destruct (find (leaseManagedBy leaseId (User.id u) s) (leases s))
    as [l|]; [|kept].
  destruct (negb (includes _ status)); [kept|].
  destruct (LeaseStatus.ofString status) as [newStatus|]; [|kept].
  unfold prisma.lease.update.
  destruct (find (fun r => Lease.id r =? leaseId) (leases s)); [|kept].
  simpl. split; simpl; auto using applications_kept.
  apply leases_moved.
Qed.

Lemma createPaymentRecord_evolves env user paymentData s :
  evolves s (snd (createPaymentRecord env user paymentData s)).
Proof.
  destruct (createPaymentRecord env user paymentData s) as [r s'] eqn:H.
  destruct (Response.success r) eqn:Hok.
  - destruct (createPaymentRecord_success_inv _ _ _ _ H Hok)
      as [u [lease [tenant [_ [_ [_ [_ [_ Hs']]]]]]]].
    subst s'. simpl. split; simpl; auto using applications_kept, leases_kept.
  - assert (Hs : s' = s); [|subst s'; kept].
    revert H. unfold createPaymentRecord, resolvePaymentContext. run_handler.
    unfold prisma.payment.create.
    split_handler; intros H; inversion H; subst; auto; discriminate.
Qed.

Lemma handle_evolves env c s : evolves s (snd (handle env c s)).
Proof.
  destruct c; simpl;
    auto using submitApplication_evolves, withdrawApplication_evolves,
      updateApplicationStatus_evolves, createLease_evolves,
      updateLeaseStatus_evolves, createPaymentRecord_evolves.
Qed.

(** ** One lease per application *)

Lemma hasId_false_not_In {A} (key : A -> string) (i : string) (rows : list A) :
  hasId key i rows = false -> ~ In i (map key rows).
Proof.
  unfold hasId. intros H Hin. apply in_map_iff in Hin.
  destruct Hin as [r [Hr Hin]].
  assert (existsb (fun r => key r =? i) rows = true); [|congruence].
  apply existsb_exists. exists r. split; [assumption|].
  now apply String.eqb_eq.
Qed.

Lemma NoDup_snoc {A} (xs : list A) (x : A) :
  NoDup xs -> ~ In x xs -> NoDup (xs ++ [x]).
Proof.
  induction 1 as [|y ys Hy Hys IH]; simpl; intros Hx.
  - constructor; [tauto | constructor].
  - constructor.
    + rewrite in_app_iff. simpl. intuition congruence.
    + apply IH. tauto.
Qed.

Lemma NoDup_key_injective {A} (key : A -> string) (rows : list A) (a b : A) :
  NoDup (map key rows) -> In a rows -> In b rows -> key a = key b -> a = b.
Proof.
  induction rows as [|r rows IH]; simpl; [tauto|].
  intros Hnd Ha Hb Hk. inversion Hnd as [|k ks Hnotin Hnd']; subst.
  destruct Ha as [Ha|Ha], Hb as [Hb|Hb]; subst; auto.
  - exfalso. apply Hnotin. rewrite Hk. now apply in_map.
  - exfalso. apply Hnotin. rewrite <- Hk. now apply in_map.
Qed.

Lemma applicationsWithStatus_keys applicationId st at_ rows :
  map Application.id (applicationsWithStatus applicationId st at_ rows)
  = map Application.id rows.
Proof.
  unfold applicationsWithStatus. rewrite map_map. apply map_ext.
  intros r. now destruct (Application.id r =? applicationId).
Qed.

Lemma applicationsStep_keys rows rows' :
  applicationsStep rows rows' ->
  NoDup (map Application.id rows) -> NoDup (map Application.id rows').
Proof.
  intros Hstep Hnd. destruct Hstep as [|row Hfresh|a st at_ Hin Hst].
  - assumption.
  - rewrite map_app. simpl. apply NoDup_snoc; [assumption|].
    now apply hasId_false_not_In.
  - now rewrite applicationsWithStatus_keys.
Qed.

(** A row that is not PENDING survives any request unchanged. *)
Lemma applicationsStep_settled rows rows' b :
  applicationsStep rows rows' ->
  NoDup (map Application.id rows) ->
  In b rows ->
  Application.status b <> ApplicationStatus.PENDING ->
  In b rows'.
Proof.
  intros Hstep Hnd Hb Hsettled. destruct Hstep as [|row Hfresh|a st at_ Hin Hst].
  - assumption.
  - apply in_or_app. now left.
  - unfold applicationsWithStatus. apply in_map_iff. exists b.
    split; [|assumption].
    destruct (String.eqb_spec (Application.id b) (Application.id a))
      as [E|_]; [|reflexivity].
    exfalso. apply Hsettled.
    now rewrite (NoDup_key_injective Application.id rows b a Hnd Hb Hin E).
Qed.

(** A reference from a lease to an application survives any request. *)
Lemma leasesStep_reference rows rows' applicationId :
  leasesStep rows rows' ->
  (exists l, In l rows /\ Lease.applicationId l = Some applicationId) ->
  exists l, In l rows' /\ Lease.applicationId l = Some applicationId.
Proof.
  intros Hstep [l [Hin Hl]]. destruct Hstep as [|row|leaseId st at_].
  - now exists l.
  - exists l. split; [apply in_or_app; now left | assumption].
  - unfold leasesWithStatus.
    exists (if Lease.id l =? leaseId
            then setLeaseStatus st at_ l else l).
    split.
    + apply in_map_iff. now exists l.
    + now destruct (Lease.id l =? leaseId).
Qed.

Lemma evolves_consumed applicationId managerId s s' :
  evolves s s' ->
  consumed applicationId managerId s -> consumed applicationId managerId s'.
Proof.
  intros [Ht Hp Ha Hl] [Hnd [a [Hin [Hid [Hst Hm]]]] Hlease].
  split.
  - eapply applicationsStep_keys; eassumption.
  - exists a. repeat split; auto.
    + eapply applicationsStep_settled; try eassumption. congruence.
    + unfold propertyManagedBy in *. now rewrite Hp.
  - eapply leasesStep_reference; eassumption.
Qed.

Lemma run_consumed applicationId managerId requests :
  forall s,
    consumed applicationId managerId s ->
    consumed applicationId managerId (run requests s).
Proof.
  induction requests as [|[env c] rest IH]; simpl; intros s Hs.
  - assumption.
  - apply IH. eapply evolves_consumed; [apply handle_evolves | exact Hs].
Qed.

Lemma consumed_createLease_conflict applicationId env u leaseData s :
  consumed applicationId (User.id u) s ->
  User.role u = Role.manager ->
  CreateLeaseInput.applicationId leaseData = Some applicationId ->
  exists existing,
    In existing (leases s)
    /\ Lease.applicationId existing = Some applicationId
    /\ createLease env (Some u) leaseData s
       = (Response.failure 409 "Lease already exists for this application"
            "LEASE_EXISTS"
            (ExistingLease (Lease.id existing) (Lease.status existing)
               (Lease.createdAt existing)),
          s).
Proof.
  intros [_ [a [Hin [Hid [Hst Hm]]]] [l [Hlin Hl]]] Hrole Hnamed.
  destruct (find_finds
              (approvedApplicationOf (Some applicationId) (User.id u) s)
              (applications s) a Hin) as [application Happ].
  { unfold approvedApplicationOf. cbn [whereEq].
    rewrite Hid, Hst, Hm, String.eqb_refl. reflexivity. }
  pose proof (approvedApplicationOf_found _ _ _ Happ) as [_ [Hkey _]].
  cbn [whereEq] in Hkey. apply String.eqb_eq in Hkey.
  destruct (find_finds
              (fun l => optEqb (Lease.applicationId l) applicationId)
              (leases s) l Hlin) as [existing Hex].
  { rewrite Hl. cbn [optEqb]. apply String.eqb_refl. }
  pose proof (find_some _ _ Hex) as [Hexin Hexref].
  exists existing. split; [assumption|]. split.
  - destruct (Lease.applicationId existing) as [x|]; [|discriminate].
    cbn [optEqb] in Hexref. apply String.eqb_eq in Hexref. congruence.
  - unfold createLease. rewrite Hrole, Hnamed. cbn [negb Role.eqb].
    run_handler. rewrite Happ, <- Hkey, Hex. reflexivity.
Qed.

(** C4. Once createLease has succeeded for an application named by its id,
    every createLease that names the same id and comes from that manager
    after any further requests is answered 409 LEASE_EXISTS and writes
    nothing; the lease it reports still references the application, in
    whatever status the requests in between have left it. *)
Theorem createLease_once_per_application :
  forall env u leaseData s r s' applicationId later env' u' leaseData',
    NoDup (map Application.id (applications s)) ->
    CreateLeaseInput.applicationId leaseData = Some applicationId ->
    createLease env (Some u) leaseData s = (r, s') ->
    Response.success r = true ->
    User.role u' = Role.manager ->
    User.id u' = User.id u ->
    CreateLeaseInput.applicationId leaseData' = Some applicationId ->
    exists existing,
      In existing (leases (run later s'))
      /\ Lease.applicationId existing = Some applicationId
      /\ createLease env' (Some u') leaseData' (run later s')
         = (Response.failure 409 "Lease already exists for this application"
              "LEASE_EXISTS"
              (ExistingLease (Lease.id existing) (Lease.status existing)
                 (Lease.createdAt existing)),
            run later s').
Proof.
  intros env u leaseData s r s' applicationId later env' u' leaseData'
    Hkeys Hnamed Hcreate Hok Hrole Hsame Hnamed'.
  apply consumed_createLease_conflict; [|assumption|assumption].
  apply run_consumed. rewrite Hsame.
  destruct (createLease_success_inv _ _ _ _ Hcreate Hok)
    as [u0 [application [Hu [Happ [_ Hs']]]]].
  inversion Hu; subst u0; clear Hu.
  pose proof (approvedApplicationOf_found _ _ _ Happ)
    as [Hin [Hkey [Hst Hm]]].
  rewrite Hnamed in Hkey. cbn [whereEq] in Hkey.
  apply String.eqb_eq in Hkey.
  subst s'. split; simpl.
  - assumption.
  - exists application. repeat split; auto.
  - exists (newLease env application leaseData). split.
    + apply in_or_app. right. now left.
    + simpl. congruence.
Qed.

(** ** authenticate *)

Lemma substring_all x : String.substring 0 (String.length x) x = x.
Proof. induction x as [|c x IH]; simpl; [reflexivity | now rewrite IH]. Qed.

Lemma bearer_token token :
  startsWith "Bearer " ("Bearer " ++ token) = true
  /\ substringFrom 7 ("Bearer " ++ token) = token.
Proof.
  split.
  - unfold startsWith. simpl. now destruct token.
  - unfold substringFrom. simpl. rewrite Nat.sub_0_r. apply substring_all.
Qed.

(** C5 fails on the code. [verifyToken] looks the key of the token's [kid]
    up and then only decodes the token, so the middleware attaches the
    claims of every well-formed token whose [kid] names a known key:
    whatever function [jwt_verify] checks signatures against the provider's
    keys, a token it rejects under the key of its [kid] is passed on to the
    handler with the user id, email and role of its payload. *)
Theorem authenticate_accepts_unverified_signature :
  forall (jwt_verify : string -> string -> bool)
         jwt_decode keys token decoded keyId publicKey,
    startsWith "Bearer " token = false ->
    jwt_decode token = Decoded decoded ->
    Jwt.kid decoded = Some keyId ->
    keyId <> "" ->
    lookupKey keys keyId = Some publicKey ->
    publicKey <> "" ->
    jwt_verify token publicKey = false ->
    authenticate jwt_decode (Some keys) (Some ("Bearer " ++ token))
    = Next (userOfPayload (Jwt.payload decoded)).
Proof.
  intros jwt_verify jwt_decode keys token decoded keyId publicKey
    Hplain Hdecode Hkid HkeyId Hkey Hpem _.
  destruct (bearer_token token) as [Hprefix Hrest].
  unfold authenticate. rewrite Hprefix, Hrest.
  replace (truthy (Some ("Bearer " ++ token))) with true by reflexivity.
  cbn [negb orb].
  unfold verifyToken, memberAt. rewrite Hplain, Hdecode, Hkid, Hkey.
  cbn [truthy memberTruthy].
  apply String.eqb_neq in HkeyId, Hpem. rewrite HkeyId, Hpem.
  reflexivity.
Qed.

(** ** The theorems at work on the concrete marketplace *)

(** While the first lease is ACTIVE for 2024, a lease for June 2024 from the
    third application is refused as a conflict, and one for 2025 is drafted. *)
Lemma createLease_conflict_or_created_witness :
  Response.code
    (fst (createLease (mkEnv "l3" 10) (Some Scenario.m1) Scenario.terms3
            Scenario.withThird))
  = Some "LEASE_CONFLICT"
  /\ Response.status
       (fst (createLease (mkEnv "l3" 10) (Some Scenario.m1)
               Scenario.terms3_2025 Scenario.withThird))
     = 201%Z.
Proof.
  split.
  - destruct (@createLease_conflict_or_created (mkEnv "l3" 10) Scenario.m1
                Scenario.terms3 Scenario.withThird Scenario.application3
                eq_refl eq_refl) as [Hconflict _].
    destruct Hconflict as [r [Hr [_ [_ [_ Hcode]]]]].
    + exists Scenario.lease1. simpl.
      repeat split; auto; vm_compute; discriminate.
    + rewrite Hr. apply Hcode. reflexivity.
  - destruct (@createLease_conflict_or_created (mkEnv "l3" 10) Scenario.m1
                Scenario.terms3_2025 Scenario.withThird Scenario.application3
                eq_refl eq_refl) as [_ Hcreated].
    destruct Hcreated as [Hrun _].
    + intros [l [Hin [_ [Hst [_ Hend]]]]]. simpl in Hin.
      destruct Hin as [E|[E|[]]]; subst l;
        [apply Hend; reflexivity | discriminate Hst].
    + reflexivity.
    + reflexivity.
    + reflexivity.
    + rewrite Hrun. reflexivity.
Defined.


(** After the lease for the first application has been drafted, activated
    and terminated, the application cannot be turned into a lease again. *)
Lemma createLease_once_per_application_witness :
  Response.code
    (fst (createLease (mkEnv "l9" 9) (Some Scenario.m1) Scenario.terms1
            Scenario.ended))
  = Some "LEASE_EXISTS".
Proof.
  destruct (@createLease_once_per_application (mkEnv "l1" 5) Scenario.m1
              Scenario.terms1 Scenario.approved
              (fst (createLease (mkEnv "l1" 5) (Some Scenario.m1)
                      Scenario.terms1 Scenario.approved))
              (snd (createLease (mkEnv "l1" 5) (Some Scenario.m1)
                      Scenario.terms1 Scenario.approved))
              "a1"
              [ (mkEnv "l2" 6, CreateLease (Some Scenario.m1) Scenario.terms2);
                (mkEnv "" 7, UpdateLeaseStatus (Some Scenario.m1) "l1" "ACTIVE");
                (mkEnv "" 8,
                 UpdateLeaseStatus (Some Scenario.m1) "l1" "TERMINATED") ]
              (mkEnv "l9" 9) Scenario.m1 Scenario.terms1)
    as [existing [_ [_ Hrun]]].
  - simpl. repeat constructor; simpl; intuition discriminate.
  - reflexivity.
  - reflexivity.
  - reflexivity.
  - reflexivity.
  - reflexivity.
  - reflexivity.
  - change (run _ _) with Scenario.ended in Hrun.
    rewrite Hrun. reflexivity.
Defined.

(** The forged token reaches the handlers as manager "m1", although the
    signature check rejects every token. *)
Lemma authenticate_accepts_unverified_signature_witness :
  authenticate Forged.jwt_decode (Some Forged.keys)
    (Some ("Bearer " ++ Forged.token))
  = Next (User.mk "m1" "intruder@example.com" Role.manager true None None).
Proof.
  apply (@authenticate_accepts_unverified_signature (fun _ _ => false)
           Forged.jwt_decode Forged.keys Forged.token Forged.decoded "k1"
           "-----BEGIN RSA PUBLIC KEY-----
AQAB
-----END RSA PUBLIC KEY-----");
    try reflexivity; discriminate.
Defined.

(** The first tenant's application is created on the empty store and
    refused once it exists, here after it has been approved. *)
Lemma submitApplication_conflict_or_created_witness :
  Response.status
    (fst (submitApplication (mkEnv "a1" 1) (Some Scenario.t1) Scenario.apply1
            Scenario.store0))
  = 201%Z
  /\ exists existing,
       Application.status existing = ApplicationStatus.APPROVED
       /\ submitApplication (mkEnv "a9" 9) (Some Scenario.t1) Scenario.apply1
            Scenario.firstActive
          = (Response.failure 409
               "You have already applied for this property"
               "APPLICATION_EXISTS"
               (ExistingApplication (Application.id existing)
                  (Application.status existing)
                  (Application.createdAt existing)),
             Scenario.firstActive).
Proof.
  split.
  - destruct (@submitApplication_conflict_or_created (mkEnv "a1" 1)
                Scenario.t1 Scenario.apply1 Scenario.store0
                (Property.mk "p1" "Upper portion near the park" "m1")
                eq_refl eq_refl) as [_ Hcreated].
    destruct Hcreated as [Hrun _].
    + intros a [].
    + reflexivity.
    + reflexivity.
    + rewrite Hrun. reflexivity.
  - destruct (@submitApplication_conflict_or_created (mkEnv "a9" 9)
                Scenario.t1 Scenario.apply1 Scenario.firstActive
                (Property.mk "p1" "Upper portion near the park" "m1")
                eq_refl eq_refl) as [Hconflict _].
    destruct (Hconflict Scenario.application1)
      as [existing [Hin [Htenant [_ Hrun]]]].
    + simpl. auto.
    + reflexivity.
    + reflexivity.
    + exists existing. split; [|exact Hrun].
      simpl in Hin. destruct Hin as [E|[E|[]]]; subst existing;
        [reflexivity | discriminate Htenant].
Defined.

(** Withdrawing the approved first application reports APPROVED; while it
    was still PENDING the manager's approval went through. *)
Lemma application_changes_only_when_pending_witness :
  Response.data
    (fst (withdrawApplication (mkEnv "" 9) (Some Scenario.t1) "a1"
            Scenario.firstActive))
  = CurrentStatus ApplicationStatus.APPROVED "PENDING"
  /\ Response.status
       (fst (updateApplicationStatus (mkEnv "" 3) (Some Scenario.m1) "a1"
               "APPROVED" Scenario.applied))
     = 200%Z.
Proof.
  split.
  - destruct (@application_changes_only_when_pending (mkEnv "" 9) "a1"
                Scenario.firstActive Scenario.application1) as [Hwithdraw _].
    destruct (Hwithdraw Scenario.t1
                (fst (withdrawApplication (mkEnv "" 9) (Some Scenario.t1) "a1"
                        Scenario.firstActive))
                (snd (withdrawApplication (mkEnv "" 9) (Some Scenario.t1) "a1"
                        Scenario.firstActive))
                eq_refl eq_refl eq_refl) as [_ [_ Hsettled]].
    destruct Hsettled as [Hr _]; [discriminate|].
    rewrite Hr. reflexivity.
  - destruct (@application_changes_only_when_pending (mkEnv "" 3) "a1"
                Scenario.applied Scenario.pending1) as [_ Hdecide].
    destruct (Hdecide Scenario.m1 ApplicationStatus.APPROVED
                (fst (updateApplicationStatus (mkEnv "" 3) (Some Scenario.m1)
                        "a1" "APPROVED" Scenario.applied))
                (snd (updateApplicationStatus (mkEnv "" 3) (Some Scenario.m1)
                        "a1" "APPROVED" Scenario.applied))
                eq_refl (or_introl eq_refl) eq_refl eq_refl)
      as [_ [Hpending _]].
    destruct Hpending as [Hstatus _]; [reflexivity|].
    exact Hstatus.
Defined.

(** Drafting the first lease leaves both applications as they were. *)
Lemma createLease_frame_witness :
  applications
    (snd (createLease (mkEnv "l1" 5) (Some Scenario.m1) Scenario.terms1
            Scenario.approved))
  = applications Scenario.approved.
Proof.
  destruct (@createLease_frame (mkEnv "l1" 5) (Some Scenario.m1)
              Scenario.terms1 Scenario.approved
              (fst (createLease (mkEnv "l1" 5) (Some Scenario.m1)
                      Scenario.terms1 Scenario.approved))
              (snd (createLease (mkEnv "l1" 5) (Some Scenario.m1)
                      Scenario.terms1 Scenario.approved))
              eq_refl eq_refl) as [Happs _].
  exact Happs.
Defined.

(** An application fee recorded against the property alone is refused; rent
    recorded against the first lease is booked on the tenant of that
    lease. *)
Lemma createPaymentRecord_tenant_from_lease_witness :
  Response.code
    (fst (createPaymentRecord (mkEnv "pay1" 9) (Some Scenario.m1)
            Ledger.feeOnProperty Scenario.firstActive))
  = Some "TENANT_REQUIRED"
  /\ exists payment,
       Payment.tenantId payment = "t1"
       /\ payments
            (snd (createPaymentRecord (mkEnv "pay1" 9) (Some Scenario.m1)
                    Ledger.rentOnLease1 Scenario.firstActive))
          = [payment].
Proof.
  split.
  - destruct (@createPaymentRecord_tenant_from_lease (mkEnv "pay1" 9)
                Ledger.feeOnProperty Scenario.firstActive) as [Hrefused _].
    rewrite (Hrefused Scenario.m1 "p1"
               (Property.mk "p1" "Upper portion near the park" "m1")
               eq_refl eq_refl eq_refl);
      [reflexivity | discriminate | reflexivity].
  - destruct (@createPaymentRecord_tenant_from_lease (mkEnv "pay1" 9)
                Ledger.rentOnLease1 Scenario.firstActive) as [_ Hcreated].
    destruct (Hcreated (Some Scenario.m1)
                (fst (createPaymentRecord (mkEnv "pay1" 9) (Some Scenario.m1)
                        Ledger.rentOnLease1 Scenario.firstActive))
                (snd (createPaymentRecord (mkEnv "pay1" 9) (Some Scenario.m1)
                        Ledger.rentOnLease1 Scenario.firstActive))
                eq_refl eq_refl)
      as [u [leaseId [lease [payment
            [_ [Hnamed [Hin [Hid [_ [Htenant [_ [_ Hrows]]]]]]]]]]]].
    exists payment. split; [|exact Hrows].
    rewrite Htenant. injection Hnamed as <-.
    simpl in Hin. destruct Hin as [E|[E|[]]]; subst lease;
      [reflexivity | discriminate Hid].
Defined.

(** Rent is recorded against the first lease after it has been terminated,
    and a deposit against the second lease, which was never activated. *)
Lemma createPaymentRecord_any_lease_status_witness :
  Response.status
    (fst (createPaymentRecord (mkEnv "pay1" 9) (Some Scenario.m1)
            Ledger.rentOnLease1 Scenario.ended))
  = 201%Z
  /\ Response.status
       (fst (createPaymentRecord (mkEnv "pay2" 10) (Some Scenario.m1)
               Ledger.depositOnLease2 Scenario.ended))
     = 201%Z.
Proof.
  split.
  - destruct (@createPaymentRecord_any_lease_status (mkEnv "pay1" 9)
                Scenario.m1 Ledger.rentOnLease1 Scenario.ended "l1"
                Scenario.lease1Ended Ledger.tenant1) as [Hrun _].
    + reflexivity.
    + reflexivity.
    + discriminate.
    + reflexivity.
    + reflexivity.
    + reflexivity.
    + discriminate.
    + rewrite Hrun. reflexivity.
  - destruct (@createPaymentRecord_any_lease_status (mkEnv "pay2" 10)
                Scenario.m1 Ledger.depositOnLease2 Scenario.ended "l2"
                Scenario.lease2 Ledger.tenant2) as [Hrun _].
    + reflexivity.
    + reflexivity.
    + discriminate.
    + reflexivity.
    + reflexivity.
    + reflexivity.
    + reflexivity.
    + rewrite Hrun. reflexivity.
Defined.

(** * Further properties of the middleware *)

(** ** The key cache *)


(** X2. When the cache has expired and the keys cannot be fetched (no user
    pool configured, or the request fails), [getCognitoPublicKeys] throws
    and keeps the cache as it was: the expired keys are not served. *)
Theorem getCognitoPublicKeys_no_stale_keys :
  forall userPoolId now response cache,
    (KeyCache.cacheExpiry cache <= now)%Z ->
    truthy userPoolId = false \/ response = None ->
    getCognitoPublicKeys userPoolId now response cache = (None, cache).
Proof.
  intros userPoolId now response cache Hexpired Hfail.
  unfold getCognitoPublicKeys.
  apply Z.ltb_ge in Hexpired. rewrite Hexpired.
  destruct Hfail as [Hpool|Hresp].
  - rewrite Hpool. simpl. now destruct (KeyCache.cognitoKeysCache cache).
  - subst response.
    destruct (negb (truthy userPoolId));
      now destruct (KeyCache.cognitoKeysCache cache).
Qed.

Lemma lookupKey_addJwksKey keys key keyId :
  lookupKey (addJwksKey keys key) keyId
  = if storedUnder keyId key
    then option_map pemOf (JwksKey.n key)
    else lookupKey keys keyId.
Proof.
  unfold addJwksKey, storedUnder.
  destruct (JwksKey.kid key) as [kid|]; [|reflexivity].
  destruct (JwksKey.n key) as [n|]; [|reflexivity].
  cbn [truthy].
  destruct (kid =? "") eqn:Hkid; cbn [negb andb].
  { now rewrite !andb_false_r. }
  destruct (n =? "") eqn:Hn; cbn [negb andb].
  { now rewrite !andb_false_r. }
  destruct (kid =? "__proto__") eqn:Hproto; cbn [negb].
  { now rewrite !andb_false_r. }
  rewrite !andb_true_r. unfold lookupKey. cbn [find fst].
  now destruct (kid =? keyId).
Qed.

(** The properties of its own that the table built from a JWKS document
    has. *)
Lemma lookupKey_jwksToKeys (keys : list JwksKey.t) (keyId : string) :
  lookupKey (jwksToKeys (Some keys)) keyId
  = match find (storedUnder keyId) (rev keys) with
    | Some key => option_map pemOf (JwksKey.n key)
    | None => None
    end.
Proof.
  unfold jwksToKeys.
  induction keys as [|key keys IH] using rev_ind.
  - reflexivity.
  - rewrite fold_left_app, rev_app_distr. cbn [fold_left rev app find].
    rewrite lookupKey_addJwksKey.
    destruct (storedUnder keyId key); [reflexivity | exact IH].
Qed.

Lemma storedUnder_modulus keyId key :
  storedUnder keyId key = true ->
  keyId <> "__proto__"
  /\ exists n, JwksKey.kid key = Some keyId /\ JwksKey.n key = Some n
               /\ n <> "".
Proof.
  unfold storedUnder.
  destruct (JwksKey.kid key) as [kid|]; [|discriminate].
  destruct (JwksKey.n key) as [n|]; [|discriminate].
  intros H. apply andb_true_iff in H. destruct H as [H Hproto].
  apply andb_true_iff in H. destruct H as [H Hn].
  apply andb_true_iff in H. destruct H as [Hid _].
  apply String.eqb_eq in Hid. subst kid.
  apply negb_true_iff in Hproto, Hn.
  apply String.eqb_neq in Hproto, Hn.
  split; [exact Hproto|]. exists n. auto.
Qed.

Lemma existsb_reversed {A} (f : A -> bool) (l : list A) :
  existsb f (rev l) = existsb f l.
Proof.
  induction l as [|x l IH]; [reflexivity|].
  cbn [rev existsb]. rewrite existsb_app, IH. cbn [existsb].
  rewrite orb_false_r. apply orb_comm.
Qed.

Lemma pemOf_truthy n : truthy (Some (pemOf n)) = true.
Proof. reflexivity. Qed.

(** X3. Reading the table built from a JWKS document at a key id, as
    [publicKeys[keyId]] does, gives the PEM text around the modulus [n] of
    the last entry of the document that carries this [kid] and a modulus,
    both non-empty, the [kid] not being "__proto__"; without such an entry
    it gives the member of that name that the table inherits from
    [Object.prototype], if there is one, and [undefined] otherwise. So
    "__proto__" always reads as the prototype, and the value read is truthy
    exactly for the ids of such entries and for the names of the inherited
    members. *)
Theorem jwksToKeys_lookup :
  forall (keys : list JwksKey.t) (keyId : string),
    let table := jwksToKeys (Some keys) in
    (forall key,
        find (storedUnder keyId) (rev keys) = Some key ->
        exists n, JwksKey.n key = Some n /\ n <> ""
                  /\ memberAt table keyId = Own (pemOf n))
    /\ (find (storedUnder keyId) (rev keys) = None ->
        memberAt table keyId
        = if includes objectPrototypeMembers keyId then Inherited
          else Undefined)
    /\ memberAt table "__proto__" = Inherited
    /\ (memberTruthy (memberAt table keyId) = true
        <-> existsb (storedUnder keyId) keys = true
            \/ In keyId objectPrototypeMembers).
Proof.
  intros keys keyId table.
  assert (Hat : forall k,
             memberAt table k
             = match find (storedUnder k) (rev keys) with
               | Some key =>
                 match JwksKey.n key with
                 | Some n => Own (pemOf n)
                 | None => if includes objectPrototypeMembers k
                           then Inherited else Undefined
                 end
               | None => if includes objectPrototypeMembers k
                         then Inherited else Undefined
               end).
  { intros k. unfold memberAt, table. rewrite lookupKey_jwksToKeys.
    destruct (find (storedUnder k) (rev keys)) as [key|]; [|reflexivity].
    now destruct (JwksKey.n key). }
  assert (Hnone : forall k,
             find (storedUnder k) (rev keys) = None
             <-> existsb (storedUnder k) keys = false).
  { intros k. rewrite <- (existsb_reversed (storedUnder k) keys).
    split.
    - intros H. apply find_none_existsb. exact H.
    - intros H. destruct (find (storedUnder k) (rev keys)) as [key|] eqn:E;
        [|reflexivity].
      apply find_some in E. destruct E as [Hin Hk].
      assert (existsb (storedUnder k) (rev keys) = true).
      { apply existsb_exists. now exists key. }
      congruence. }
  split; [|split; [|split]].
  - intros key Hfind. pose proof (find_some _ _ Hfind) as [_ Hstored].
    destruct (storedUnder_modulus _ _ Hstored) as [_ [n [_ [Hn Hne]]]].
    exists n. split; [exact Hn|]. split; [exact Hne|].
    rewrite Hat, Hfind, Hn. reflexivity.
  - intros Hfind. rewrite Hat, Hfind. reflexivity.
  - rewrite Hat.
    destruct (find (storedUnder "__proto__") (rev keys)) as [key|] eqn:E;
      [|reflexivity].
    apply find_some in E. destruct E as [_ Hstored].
    destruct (storedUnder_modulus _ _ Hstored) as [Hne _]. congruence.
  - rewrite Hat.
    destruct (find (storedUnder keyId) (rev keys)) as [key|] eqn:E.
    + pose proof (find_some _ _ E) as [Hin Hstored].
      destruct (storedUnder_modulus _ _ Hstored) as [_ [n [_ [Hn _]]]].
      rewrite Hn. cbn [memberTruthy]. rewrite pemOf_truthy.
      split; [|reflexivity]. intros _. left.
      apply existsb_exists. exists key. split; [|exact Hstored].
      apply in_rev. exact Hin.
    + apply Hnone in E. rewrite E.
      destruct (includes objectPrototypeMembers keyId) eqn:Hinc;
        cbn [memberTruthy].
      * split; [|reflexivity]. intros _. right. now apply includes_In.
      * split; [discriminate|]. intros [H|H]; [discriminate|].
        apply includes_In in H. congruence.
Qed.

(** ** authenticate and the guards *)

Lemma bearer_header token :
  truthy (Some ("Bearer " ++ token)) = true
  /\ startsWith "Bearer " ("Bearer " ++ token) = true
  /\ substringFrom 7 ("Bearer " ++ token) = token.
Proof.
  destruct (bearer_token token) as [Hp Hs]. repeat split; assumption.
Qed.

Lemma authenticate_next jwt_decode keys token decoded keyId publicKey :
  startsWith "Bearer " token = false ->
  jwt_decode token = Decoded decoded ->
  Jwt.kid decoded = Some keyId ->
  keyId <> "" ->
  lookupKey keys keyId = Some publicKey ->
  publicKey <> "" ->
  authenticate jwt_decode (Some keys) (Some ("Bearer " ++ token))
  = Next (userOfPayload (Jwt.payload decoded)).
Proof.
  intros Hplain Hdec Hkid Hne Hkey Hpem.
  destruct (bearer_header token) as [Ht [Hp Hs]].
  unfold authenticate. rewrite Ht, Hp, Hs. cbn [negb orb].
  unfold verifyToken, memberAt. rewrite Hplain, Hdec, Hkid, Hkey.
  cbn [truthy memberTruthy].
  apply String.eqb_neq in Hne, Hpem. rewrite Hne, Hpem. reflexivity.
Qed.

(** X4. The refusals of [authenticate]. Without an Authorization header, or
    with one that does not start with "Bearer ", the answer is 401
    AUTH_TOKEN_MISSING. For a header "Bearer <token>": a token for which
    [jwt.decode] returns [null], or whose header has no [kid], gives 401
    AUTH_TOKEN_INVALID; a token on which [jwt.decode] throws is answered by
    the message of the error, 401 AUTH_TOKEN_EXPIRED for a
    [JsonWebTokenError] and for a message with "expired" in it, else 401
    AUTH_TOKEN_INVALID for a message with "Invalid" in it, else 401
    AUTH_FAILED; a decoded token gives 401 AUTH_FAILED when the keys
    cannot be fetched or reading the table at its [kid] gives nothing
    truthy. *)
Theorem authenticate_refusals :
  forall jwt_decode publicKeys,
    authenticate jwt_decode publicKeys None = Reply tokenMissing
    /\ (forall authHeader,
           startsWith "Bearer " authHeader = false ->
           authenticate jwt_decode publicKeys (Some authHeader)
           = Reply tokenMissing)
    /\ (forall token,
           startsWith "Bearer " token = false ->
           (jwt_decode token = NotAToken
            \/ exists decoded, jwt_decode token = Decoded decoded
                               /\ truthy (Jwt.kid decoded) = false) ->
           authenticate jwt_decode publicKeys (Some ("Bearer " ++ token))
           = Reply tokenInvalid)
    /\ (forall token error,
           startsWith "Bearer " token = false ->
           jwt_decode token = Thrown error ->
           authenticate jwt_decode publicKeys (Some ("Bearer " ++ token))
           = Reply (if JsError.isJsonWebTokenError error then tokenExpired
                    else refusalFor (JsError.message error)))
    /\ (forall token decoded keyId,
           startsWith "Bearer " token = false ->
           jwt_decode token = Decoded decoded ->
           Jwt.kid decoded = Some keyId ->
           keyId <> "" ->
           (publicKeys = None
            \/ exists keys, publicKeys = Some keys
                            /\ memberTruthy (memberAt keys keyId) = false) ->
           authenticate jwt_decode publicKeys (Some ("Bearer " ++ token))
           = Reply authFailed).
Proof.
  intros jwt_decode publicKeys. split; [reflexivity|].
  split; [|split; [|split]].
  - intros authHeader Hprefix. unfold authenticate. rewrite Hprefix.
    cbn [negb]. now rewrite orb_true_r.
  - intros token Hplain Hbad.
    destruct (bearer_header token) as [Ht [Hp Hs]].
    unfold authenticate. rewrite Ht, Hp, Hs. cbn [negb orb].
    unfold verifyToken. rewrite Hplain.
    destruct Hbad as [Hnone|[decoded [Hdec Hkid]]].
    + rewrite Hnone. reflexivity.
    + rewrite Hdec, Hkid. reflexivity.
  - intros token error Hplain Hthrown.
    destruct (bearer_header token) as [Ht [Hp Hs]].
    unfold authenticate. rewrite Ht, Hp, Hs. cbn [negb orb].
    unfold verifyToken. rewrite Hplain, Hthrown. unfold rethrown.
    destruct (JsError.isJsonWebTokenError error); [reflexivity|].
    unfold refusalFor, tokenExpired, tokenInvalid, authFailed.
    destruct (strIncludes "expired" (JsError.message error));
      [reflexivity|].
    destruct (strIncludes "Invalid" (JsError.message error)); reflexivity.
  - intros token decoded keyId Hplain Hdec Hkid Hne Hkeys.
    destruct (bearer_header token) as [Ht [Hp Hs]].
    unfold authenticate. rewrite Ht, Hp, Hs. cbn [negb orb].
    unfold verifyToken. rewrite Hplain, Hdec, Hkid.
    cbn [truthy]. apply String.eqb_neq in Hne. rewrite Hne. cbn [negb].
    destruct Hkeys as [Hnone|[keys [Hsome Hlookup]]].
    + rewrite Hnone. reflexivity.
    + rewrite Hsome, Hlookup. reflexivity.
Qed.

(** X5. [verifyToken] strips a "Bearer " prefix that [authenticate] has
    left: the header "Bearer Bearer <token>" is treated like
    "Bearer <token>". *)
Theorem authenticate_double_bearer :
  forall jwt_decode publicKeys token,
    startsWith "Bearer " token = false ->
    authenticate jwt_decode publicKeys (Some ("Bearer Bearer " ++ token))
    = authenticate jwt_decode publicKeys (Some ("Bearer " ++ token)).
Proof.
  intros jwt_decode publicKeys token Hplain.
  destruct (bearer_header token) as [Ht [Hp Hs]].
  destruct (bearer_header ("Bearer " ++ token)) as [Ht2 [Hp2 Hs2]].
  change ("Bearer " ++ "Bearer " ++ token)
    with ("Bearer Bearer " ++ token) in *.
  unfold authenticate. rewrite Ht, Hp, Hs, Ht2, Hp2, Hs2.
  cbn [negb orb]. unfold verifyToken. rewrite Hp, Hs, Hplain.
  reflexivity.
Qed.

Lemma extractUserRole_spec tokenPayload role :
  role <> Role.tenant ->
  (extractUserRole tokenPayload = role
   <-> CognitoTokenPayload.custom_role tokenPayload = Some (roleName role)).
Proof.
  intros Hrole. unfold extractUserRole.
  destruct (CognitoTokenPayload.custom_role tokenPayload) as [claim|].
  2:{ split; [intros E; congruence | discriminate]. }
  destruct (String.eqb_spec claim "") as [->|_];
    [|destruct (String.eqb_spec claim "tenant") as [->|_];
      [|destruct (String.eqb_spec claim "manager") as [->|Hm];
        [|destruct (String.eqb_spec claim "admin") as [->|Ha]]]];
    (split; [intros E | intros E; injection E as E]);
    destruct role; simpl in *; congruence.
Qed.

(** X6. On a registration route for managers or admins
    ([authenticate], [authorize(role)], [requireEmailVerified]) a token
    that [authenticate] lets through reaches the handler exactly when its
    [custom:role] claim is the name of the role, letter for letter, and its
    [email_verified] claim is true; a missing, empty, unknown or
    differently spelled role claim counts as tenant and is refused. *)
Theorem guardedRegistration_passes_iff :
  forall jwt_decode keys token decoded keyId publicKey role,
    startsWith "Bearer " token = false ->
    jwt_decode token = Decoded decoded ->
    Jwt.kid decoded = Some keyId ->
    keyId <> "" ->
    lookupKey keys keyId = Some publicKey ->
    publicKey <> "" ->
    role <> Role.tenant ->
    (guardedRegistration jwt_decode (Some keys) role
       (Some ("Bearer " ++ token))
     = Next (userOfPayload (Jwt.payload decoded))
     <-> CognitoTokenPayload.custom_role (Jwt.payload decoded)
         = Some (roleName role)
         /\ CognitoTokenPayload.email_verified (Jwt.payload decoded) = true).
Proof.
  intros jwt_decode keys token decoded keyId publicKey role
    Hplain Hdec Hkid Hne Hkey Hpem Hrole.
  unfold guardedRegistration.
  rewrite (authenticate_next jwt_decode keys token Hplain Hdec Hkid Hne
             Hkey Hpem).
  rewrite <- (extractUserRole_spec (Jwt.payload decoded) Hrole).
  unfold authorize, requireEmailVerified.
  cbn [userOfPayload User.role User.emailVerified existsb].
  rewrite orb_false_r.
  destruct (Role.eqb role (extractUserRole (Jwt.payload decoded))) eqn:Heq;
    cbn [negb].
  - assert (E : extractUserRole (Jwt.payload decoded) = role).
    { destruct role, (extractUserRole (Jwt.payload decoded));
        simpl in Heq; congruence. }
    destruct (CognitoTokenPayload.email_verified (Jwt.payload decoded));
      cbn [negb]; split; intros H; try discriminate; auto.
    destruct H; discriminate.
  - split; [discriminate|]. intros [E _]. rewrite E in Heq.
    destruct role; discriminate.
Qed.

(** X7. [optionalAuth] lets a request go on anonymously exactly when it
    carries no Authorization header or one that does not start with
    "Bearer "; with a bearer header it does what [authenticate] does, so a
    token that [authenticate] refuses is answered 401 and the request does
    not go on. *)
Theorem optionalAuth_anonymous_iff :
  forall jwt_decode publicKeys authorization,
    (optionalAuth jwt_decode publicKeys authorization = Continue None
     <-> authorization = None
         \/ exists authHeader, authorization = Some authHeader
              /\ startsWith "Bearer " authHeader = false)
    /\ (forall authHeader response,
           authorization = Some authHeader ->
           startsWith "Bearer " authHeader = true ->
           authenticate jwt_decode publicKeys authorization = Reply response ->
           optionalAuth jwt_decode publicKeys authorization
           = Respond response).
Proof.
  intros jwt_decode publicKeys authorization. split.
  - destruct authorization as [authHeader|].
    2:{ simpl. split; auto. }
    unfold optionalAuth.
    destruct (startsWith "Bearer " authHeader) eqn:Hp.
    + assert (Ht : truthy (Some authHeader) = true).
      { destruct authHeader; [discriminate | reflexivity]. }
      rewrite Ht. cbn [negb orb].
      split.
      * destruct (authenticate jwt_decode publicKeys (Some authHeader));
          discriminate.
      * intros [H|[x [Hx Hf]]]; [discriminate|].
        injection Hx as <-. congruence.
    + cbn [negb]. rewrite orb_true_r. split; [|reflexivity].
      intros _. right. now exists authHeader.
  - intros authHeader response -> Hp Hauth.
    unfold optionalAuth. rewrite Hp.
    assert (Ht : truthy (Some authHeader) = true).
    { destruct authHeader; [discriminate | reflexivity]. }
    rewrite Ht. cbn [negb orb]. now rewrite Hauth.
Qed.

(** * Further properties of the payment controller *)

(** ** updatePaymentStatus *)

Lemma managedPayment_found paymentId managerId s payment :
  find (managedPayment paymentId managerId s) (payments s) = Some payment ->
  In payment (payments s) /\ Payment.id payment = paymentId
  /\ paymentManagedBy managerId s payment = true.
Proof.
  intros H. apply find_some in H. destruct H as [Hin H].
  unfold managedPayment in H. apply andb_true_iff in H.
  destruct H as [Hid Hm]. apply String.eqb_eq in Hid. auto.
Qed.

(** The row that [prisma.payment.update] rewrites is the first one with the
    key, and the answer carries it with the request's values applied. *)
Lemma updatePaymentStatus_found env u paymentId updateData s payment :
  User.role u = Role.manager ->
  find (managedPayment paymentId (User.id u) s) (payments s) = Some payment ->
  exists row,
    find (fun p => Payment.id p =? paymentId) (payments s) = Some row
    /\ updatePaymentStatus env (Some u) paymentId updateData s
       = (Answer.ok 200 "Payment updated successfully"
            (PaymentUpdated.mk (applyPaymentUpdate updateData (now env) row)
               (Payment.status payment)
               (UpdatePaymentInput.status updateData) (now env)),
          mkStore (tenants s) (properties s) (applications s) (leases s)
                  (paymentsUpdated paymentId updateData (now env)
                     (payments s))).
Proof.
  intros Hrole Hfind.
  pose proof (managedPayment_found _ _ _ Hfind) as [Hin [Hid _]].
  destruct (find_finds (fun p => Payment.id p =? paymentId) (payments s)
              payment Hin) as [row Hrow].
  { rewrite Hid. apply String.eqb_refl. }
  exists row. split; [exact Hrow|].
  unfold updatePaymentStatus. rewrite Hrole. cbn [negb Role.eqb].
  unfold prismaPayment.findFirst, prismaPayment.update. run_handler.
  rewrite Hfind, Hrow. reflexivity.
Qed.

Lemma paymentsUpdated_rows paymentId updateData at_ rows p' :
  In p' (paymentsUpdated paymentId updateData at_ rows) ->
  exists p, In p rows
    /\ p' = if Payment.id p =? paymentId
            then applyPaymentUpdate updateData at_ p else p.
Proof.
  unfold paymentsUpdated. intros H. apply in_map_iff in H.
  destruct H as [p [E Hin]]. exists p. split; [exact Hin | now symmetry].
Qed.

(** X8. Payments have no transition table: for a payment on a property of
    the requesting manager (through its lease or directly) every status of
    the schema is accepted as the new status, whatever the current one,
    REFUNDED back to PENDING included. The answer is 200 and reports the
    old and the new status; the payment it carries is a row of the store
    afterwards, and every row of the store with that key then has the new
    status, the time of the request as [updatedAt], and the reference,
    receipt and note of the request where the request gives them. *)
Theorem updatePaymentStatus_any_transition :
  forall env u paymentId updateData s payment r s',
    User.role u = Role.manager ->
    find (managedPayment paymentId (User.id u) s) (payments s)
      = Some payment ->
    updatePaymentStatus env (Some u) paymentId updateData s = (r, s') ->
    exists updated,
      r = Answer.ok 200 "Payment updated successfully"
            (PaymentUpdated.mk updated (Payment.status payment)
               (UpdatePaymentInput.status updateData) (now env))
      /\ In updated (payments s')
      /\ Payment.id updated = paymentId
      /\ forall p',
           In p' (payments s') ->
           Payment.id p' = paymentId ->
           Payment.status p' = UpdatePaymentInput.status updateData
           /\ Payment.updatedAt p' = now env
           /\ (forall x, UpdatePaymentInput.referenceId updateData = Some x ->
                          Payment.referenceId p' = Some x)
           /\ (forall x, UpdatePaymentInput.receiptUrl updateData = Some x ->
                          Payment.receiptUrl p' = Some x)
           /\ (forall x, UpdatePaymentInput.note updateData = Some x ->
                          Payment.note p' = Some x).
Proof.
  intros env u paymentId updateData s payment r s' Hrole Hfind Hrun.
  destruct (@updatePaymentStatus_found env u paymentId updateData s payment
              Hrole Hfind) as [row [Hrow Hdone]].
  rewrite Hdone in Hrun. injection Hrun as <- <-.
  exists (applyPaymentUpdate updateData (now env) row).
  apply find_some in Hrow. destruct Hrow as [Hrowin Hrowid].
  split; [reflexivity|]. cbn [payments].
  split; [|split].
  - unfold paymentsUpdated. apply in_map_iff. exists row.
    rewrite Hrowid. split; [reflexivity | exact Hrowin].
  - now apply String.eqb_eq in Hrowid.
  - intros p' Hin Hid.
    destruct (paymentsUpdated_rows _ _ _ _ _ Hin) as [p [_ E]].
    destruct (String.eqb_spec (Payment.id p) paymentId) as [_|N].
    + subst p'. cbn [applyPaymentUpdate Payment.status Payment.updatedAt
                       Payment.referenceId Payment.receiptUrl Payment.note].
      repeat split; try reflexivity; intros x Hx; rewrite Hx; reflexivity.
    + subst p'. contradiction.
Qed.

Lemma paymentsUpdated_same paymentId updateData at_ rows :
  Forall2 (fun p p' => samePayment p p'
                       /\ (Payment.id p <> paymentId -> p' = p))
          rows (paymentsUpdated paymentId updateData at_ rows).
Proof.
  induction rows as [|r rows IH]; simpl; constructor; [|exact IH].
  destruct (String.eqb_spec (Payment.id r) paymentId) as [E|N].
  - split; [|contradiction]. unfold samePayment. simpl. tauto.
  - split; [|reflexivity]. unfold samePayment. tauto.
Qed.

Lemma Forall2_same {A} (R : A -> A -> Prop) (rows : list A) :
  (forall r, R r r) -> Forall2 R rows rows.
Proof. intros HR. induction rows; constructor; auto. Qed.

(** Every way in which [updatePaymentStatus] can end. *)
Lemma updatePaymentStatus_cases env user paymentId updateData s r s' :
  updatePaymentStatus env user paymentId updateData s = (r, s') ->
  (Answer.success r = false /\ s' = s)
  \/ (exists u payment,
        user = Some u
        /\ User.role u = Role.manager
        /\ find (managedPayment paymentId (User.id u) s) (payments s)
           = Some payment
        /\ Answer.success r = true
        /\ s' = mkStore (tenants s) (properties s) (applications s) (leases s)
                  (paymentsUpdated paymentId updateData (now env)
                     (payments s))).
Proof.
  unfold updatePaymentStatus.
  destruct user as [u|]; simpl.
  2:{ intros H; inversion H; subst; auto. }
  destruct (Role.eqb (User.role u) Role.manager) eqn:Hrole; simpl.
  2:{ intros H; inversion H; subst; auto. }
  unfold prismaPayment.findFirst, prismaPayment.update. run_handler.
  destruct (find (managedPayment paymentId (User.id u) s) (payments s))
    as [payment|] eqn:Hfind.
  2:{ intros H; inversion H; subst; auto. }
  destruct (find (fun p => Payment.id p =? paymentId) (payments s)).
  2:{ intros H; inversion H; subst; auto. }
  intros H; inversion H; subst. right. exists u, payment.
  repeat split; auto.
  destruct (User.role u); simpl in Hrole; congruence.
Qed.

(** X9. Whoever calls [updatePaymentStatus] with whatever body, the
    tenant, property, application and lease tables stay as they are, no
    payment row is added or removed, and of every payment row the key, the
    tenant, the lease and property references, the amount, the currency,
    the type, the method, the payment date and the creation time are kept;
    rows under another key are untouched. *)
Theorem updatePaymentStatus_frame :
  forall env user paymentId updateData s r s',
    updatePaymentStatus env user paymentId updateData s = (r, s') ->
    tenants s' = tenants s
    /\ properties s' = properties s
    /\ applications s' = applications s
    /\ leases s' = leases s
    /\ Forall2 (fun p p' => samePayment p p'
                            /\ (Payment.id p <> paymentId -> p' = p))
               (payments s) (payments s').
Proof.
  intros env user paymentId updateData s r s' H.
  destruct (updatePaymentStatus_cases _ _ _ _ _ H)
    as [[_ ->]|[u [payment [_ [_ [_ [_ ->]]]]]]].
  - repeat split. apply Forall2_same. intros p.
    unfold samePayment. tauto.
  - simpl. repeat split. apply paymentsUpdated_same.
Qed.

(** X10. A manager who manages no payment with the given key (the key
    names no payment, or only payments whose lease and property belong to
    other managers) gets 404 PAYMENT_NOT_FOUND from [updatePaymentStatus];
    a caller who is not a manager gets 403; nothing is written. *)
Theorem updatePaymentStatus_refuses_strangers :
  forall env u paymentId updateData s,
    (User.role u <> Role.manager ->
     updatePaymentStatus env (Some u) paymentId updateData s
     = (Answer.failure 403 "Access denied. Manager role required."
          "ACCESS_DENIED", s))
    /\ (User.role u = Role.manager ->
        (forall p, In p (payments s) -> Payment.id p = paymentId ->
                   paymentManagedBy (User.id u) s p = false) ->
        updatePaymentStatus env (Some u) paymentId updateData s
        = (Answer.failure 404 "Payment not found or access denied"
             "PAYMENT_NOT_FOUND", s)).
Proof.
  intros env u paymentId updateData s. split.
  - intros Hrole. unfold updatePaymentStatus.
    destruct (User.role u) eqn:E; try contradiction; reflexivity.
  - intros Hrole Hnone. unfold updatePaymentStatus. rewrite Hrole.
    cbn [negb Role.eqb]. unfold prismaPayment.findFirst. run_handler.
    destruct (find (managedPayment paymentId (User.id u) s) (payments s))
      as [payment|] eqn:Hfind; [|reflexivity].
    exfalso. apply managedPayment_found in Hfind.
    destruct Hfind as [Hin [Hid Hm]].
    rewrite (Hnone payment Hin Hid) in Hm. discriminate.
Qed.

(** ** getPaymentById *)

(** X11. [getPaymentById] never writes. It answers 200 only with a payment
    row that has the requested key and that the caller may see: a tenant
    its own payments, a manager the payments on a lease or property it
    manages. A payment the caller may not see is answered exactly like a
    key that names nothing: 404 PAYMENT_NOT_FOUND. *)
Theorem getPaymentById_shows_only_visible :
  forall env u paymentId s,
    snd (getPaymentById env (Some u) paymentId s) = s
    /\ (forall view,
           Answer.data (fst (getPaymentById env (Some u) paymentId s))
             = Some view ->
           In (PaymentView.payment view) (payments s)
           /\ Payment.id (PaymentView.payment view) = paymentId
           /\ (User.role u = Role.tenant ->
               Payment.tenantId (PaymentView.payment view) = User.id u)
           /\ (User.role u = Role.manager ->
               paymentManagedBy (User.id u) s (PaymentView.payment view)
               = true))
    /\ ((forall p, In p (payments s) -> Payment.id p = paymentId ->
                   visiblePayment paymentId u s p = false) ->
        fst (getPaymentById env (Some u) paymentId s)
        = Answer.failure 404 "Payment not found or access denied"
            "PAYMENT_NOT_FOUND").
Proof.
  intros env u paymentId s.
  unfold getPaymentById, prismaPayment.findFirst. run_handler.
  destruct (find (visiblePayment paymentId u s) (payments s))
    as [payment|] eqn:Hfind; simpl.
  - split; [reflexivity|]. split.
    + intros view Hview. injection Hview as <-. simpl.
      apply find_some in Hfind. destruct Hfind as [Hin Hv].
      unfold visiblePayment in Hv. apply andb_true_iff in Hv.
      destruct Hv as [Hid Hrole]. apply String.eqb_eq in Hid.
      repeat split; auto; intros E; rewrite E in Hrole;
        [now apply String.eqb_eq | assumption].
    + intros Hnone. exfalso.
      apply find_some in Hfind. destruct Hfind as [Hin Hv].
      assert (Hid : Payment.id payment = paymentId).
      { unfold visiblePayment in Hv. apply andb_true_iff in Hv.
        destruct Hv as [Hid _]. now apply String.eqb_eq. }
      rewrite (Hnone payment Hin Hid) in Hv. discriminate.
  - split; [reflexivity|]. split; [discriminate | reflexivity].
Qed.

(** A payment that [createPaymentRecord] has created was inserted under a
    key that no payment had. *)
Lemma createPaymentRecord_success_fresh env user paymentData s r s' :
  createPaymentRecord env user paymentData s = (r, s') ->
  Response.success r = true ->
  hasId Payment.id (uuid env) (payments s) = false.
Proof.
  intros H Hok.
  destruct (hasId Payment.id (uuid env) (payments s)) eqn:Hfresh;
    [|reflexivity].
  exfalso. revert H.
  unfold createPaymentRecord, resolvePaymentContext. run_handler.
  unfold prisma.payment.create.
  split_handler; intros H; inversion H; subst; try discriminate.
  cbn [newPayment Payment.id] in *. congruence.
Qed.

Lemma find_snoc_fresh {A} (key : A -> string) (f : A -> bool)
  (rows : list A) (row : A) :
  hasId key (key row) rows = false ->
  (forall r, f r = true -> key r = key row) ->
  f row = true ->
  find f (rows ++ [row]) = Some row.
Proof.
  intros Hfresh Hkey Hrow.
  induction rows as [|r rows IH]; simpl.
  - now rewrite Hrow.
  - unfold hasId in Hfresh. simpl in Hfresh.
    apply orb_false_iff in Hfresh. destruct Hfresh as [Hr Hrest].
    destruct (f r) eqn:Hfr.
    + apply Hkey in Hfr. rewrite Hfr, String.eqb_refl in Hr. discriminate.
    + now apply IH.
Qed.

(** X12. A payment that [createPaymentRecord] has just recorded can be
    read back under its key: [getPaymentById] answers 200 with exactly the
    created row both to the manager who recorded it and to the tenant of
    the lease it was recorded against. *)
Theorem createPaymentRecord_then_getPaymentById :
  forall env u paymentData s r s',
    createPaymentRecord env (Some u) paymentData s = (r, s') ->
    Response.success r = true ->
    exists payment,
      r = Response.ok 201 "Payment record created successfully"
            (PaymentCreated payment)
      /\ Payment.id payment = uuid env
      /\ (forall env',
             getPaymentById env' (Some u) (uuid env) s'
             = (Answer.ok 200 "Payment details retrieved successfully"
                  (PaymentView.mk payment (now env') Role.manager), s'))
      /\ (forall env' t,
             User.role t = Role.tenant ->
             User.id t = Payment.tenantId payment ->
             getPaymentById env' (Some t) (uuid env) s'
             = (Answer.ok 200 "Payment details retrieved successfully"
                  (PaymentView.mk payment (now env') Role.tenant), s')).
Proof.
  intros env u paymentData s r s' H Hok.
  pose proof (createPaymentRecord_success_fresh _ _ _ _ H Hok) as Hfresh.
  destruct (createPaymentRecord_success_inv _ _ _ _ H Hok)
    as [u0 [lease [tenant [Hu [Htruthy [Hfind [Htenant [Hr Hs']]]]]]]].
  injection Hu as <-.
  set (payment := newPayment env tenant (leaseProperty s lease) paymentData)
    in *.
  assert (Hrole : User.role u = Role.manager).
  { revert H. unfold createPaymentRecord.
    destruct (User.role u) eqn:E; simpl; try reflexivity;
      intros H; inversion H; subst; discriminate. }
  exists payment. split; [assumption|]. split; [reflexivity|].
  assert (Hkey : forall who p,
             visiblePayment (uuid env) who s' p = true ->
             Payment.id p = Payment.id payment).
  { intros who p Hv. unfold visiblePayment in Hv.
    apply andb_true_iff in Hv. destruct Hv as [Hid _].
    now apply String.eqb_eq in Hid. }
  split.
  - intros env'. unfold getPaymentById, prismaPayment.findFirst.
    run_handler. rewrite Hrole.
    replace (payments s') with (payments s ++ [payment])%list
      by (subst s'; reflexivity).
    rewrite (@find_snoc_fresh _ Payment.id (visiblePayment (uuid env) u s')
               (payments s) payment Hfresh (Hkey u)); [reflexivity|].
    unfold visiblePayment. rewrite Hrole.
    change (Payment.id payment) with (uuid env). rewrite String.eqb_refl.
    unfold paymentManagedBy.
    change (Payment.leaseId payment)
      with (CreatePaymentInput.leaseId paymentData).
    pose proof (find_some _ _ Hfind) as [Hlin Hlm].
    unfold paymentLeaseOf in Hlm.
    destruct (CreatePaymentInput.leaseId paymentData) as [leaseId|];
      [|discriminate].
    cbn [whereEq] in Hlm. apply andb_true_iff in Hlm.
    destruct Hlm as [Hlid Hlp]. apply String.eqb_eq in Hlid.
    assert (Hex : existsb
              (fun l => (Lease.id l =? leaseId)
                        && propertyManagedBy s' (Lease.propertyId l)
                             (User.id u)) (leases s') = true).
    { apply existsb_exists. exists lease. subst s'. simpl. split; [assumption|].
      rewrite <- Hlid, String.eqb_refl. exact Hlp. }
    rewrite Hex. reflexivity.
  - intros env' t Hrolet Hidt. unfold getPaymentById, prismaPayment.findFirst.
    run_handler. rewrite Hrolet.
    replace (payments s') with (payments s ++ [payment])%list
      by (subst s'; reflexivity).
    rewrite (@find_snoc_fresh _ Payment.id (visiblePayment (uuid env) t s')
               (payments s) payment Hfresh (Hkey t)); [reflexivity|].
    unfold visiblePayment. rewrite Hrolet, Hidt.
    change (Payment.id payment) with (uuid env).
    now rewrite !String.eqb_refl.
Qed.

(** ** getManagerPayments and getTenantPayments *)

Lemma listPayments_inv orderPayments where_ q s list s' :
  listPayments orderPayments where_ q s = Some (list, s') ->
  s' = s
  /\ exists ordered,
       orderPayments (fst (orderOf (PaymentQuery.sort q) ("paymentDate", true)))
         (snd (orderOf (PaymentQuery.sort q) ("paymentDate", true)))
         (filter where_ (payments s)) = Some ordered
       /\ PaymentList.payments list = pageOf q ordered
       /\ PaymentList.pagination list
          = paginationOf (PaymentQuery.page q) (PaymentQuery.limit q)
              (countWhere where_ (payments s))
       /\ PaymentList.stats list
          = paymentStats (countWhere where_ (payments s)) (pageOf q ordered).
Proof.
  unfold listPayments, findManyPayments, countPayments, bind, ret, gets.
  cbv zeta.
  destruct (orderPayments _ _ (filter where_ (payments s)))
    as [ordered|] eqn:Horder; [|discriminate].
  intros H. inversion H; subst. split; [reflexivity|].
  exists ordered. repeat split; auto.
Qed.

Lemma getTenantPayments_inv orderPayments u q s list :
  Answer.data (fst (getTenantPayments orderPayments (Some u) q s)) = Some list ->
  User.role u = Role.tenant
  /\ listPayments orderPayments (tenantPaymentFilter (User.id u) q) q s
     = Some (list, s).
Proof.
  unfold getTenantPayments, tryCatch.
  destruct (User.role u) eqn:Hrole; cbn [negb Role.eqb];
    try (unfold ret; simpl; discriminate).
  unfold bind at 1.
  destruct (listPayments orderPayments (tenantPaymentFilter (User.id u) q) q s)
    as [[list' s']|] eqn:Hlist; [|simpl; discriminate].
  pose proof (listPayments_inv _ _ _ _ Hlist) as [-> _].
  unfold ret. simpl. intros H. injection H as <-. auto.
Qed.

Lemma getManagerPayments_inv orderPayments u q s list :
  Answer.data (fst (getManagerPayments orderPayments (Some u) q s))
    = Some list ->
  User.role u = Role.manager
  /\ listPayments orderPayments (managerPaymentFilter (User.id u) q s) q s
     = Some (list, s).
Proof.
  unfold getManagerPayments, tryCatch.
  destruct (User.role u) eqn:Hrole; cbn [negb Role.eqb];
    try (unfold ret; simpl; discriminate).
  unfold bind at 1. unfold gets at 1. unfold bind at 1.
  destruct (listPayments orderPayments
              (managerPaymentFilter (User.id u) q s) q s)
    as [[list' s']|] eqn:Hlist; [|simpl; discriminate].
  pose proof (listPayments_inv _ _ _ _ Hlist) as [-> _].
  unfold ret. simpl. intros H. injection H as <-. auto.
Qed.

Lemma In_firstn {A} (n : nat) (rows : list A) (x : A) :
  In x (firstn n rows) -> In x rows.
Proof.
  intros H. rewrite <- (firstn_skipn n rows). apply in_or_app. now left.
Qed.

Lemma In_skipn {A} (n : nat) (rows : list A) (x : A) :
  In x (skipn n rows) -> In x rows.
Proof.
  intros H. rewrite <- (firstn_skipn n rows). apply in_or_app. now right.
Qed.

Lemma pageOf_In q ordered p : In p (pageOf q ordered) -> In p ordered.
Proof.
  unfold pageOf. intros H.
  apply In_firstn in H. now apply In_skipn in H.
Qed.

(** X13. The payment lists keep to the caller: every payment that
    [getTenantPayments] returns is a row of the store whose tenant is the
    caller and that passes the status, type and lease filters of the
    query; every payment that [getManagerPayments] returns is a row on a
    lease or property that the caller manages. *)
Theorem payment_lists_keep_to_the_caller :
  forall orderPayments u q s list p,
    rearranges orderPayments ->
    In p (PaymentList.payments list) ->
    (Answer.data (fst (getTenantPayments orderPayments (Some u) q s))
       = Some list ->
     In p (payments s)
     /\ Payment.tenantId p = User.id u
     /\ tenantPaymentFilter (User.id u) q p = true)
    /\ (Answer.data (fst (getManagerPayments orderPayments (Some u) q s))
          = Some list ->
        In p (payments s)
        /\ paymentManagedBy (User.id u) s p = true
        /\ managerPaymentFilter (User.id u) q s p = true).
Proof.
  intros orderPayments u q s list p Hperm Hin. split; intros Hdata.
  - apply getTenantPayments_inv in Hdata. destruct Hdata as [_ Hlist].
    apply listPayments_inv in Hlist.
    destruct Hlist as [_ [ordered [Horder [Hpage _]]]].
    rewrite Hpage in Hin. apply pageOf_In in Hin.
    apply Hperm in Horder.
    apply (Permutation_in _ (Permutation_sym Horder)) in Hin.
    apply filter_In in Hin. destruct Hin as [Hin Hf].
    repeat split; auto.
    unfold tenantPaymentFilter in Hf. rewrite !andb_true_iff in Hf.
    now apply String.eqb_eq.
  - apply getManagerPayments_inv in Hdata. destruct Hdata as [_ Hlist].
    apply listPayments_inv in Hlist.
    destruct Hlist as [_ [ordered [Horder [Hpage _]]]].
    rewrite Hpage in Hin. apply pageOf_In in Hin.
    apply Hperm in Horder.
    apply (Permutation_in _ (Permutation_sym Horder)) in Hin.
    apply filter_In in Hin. destruct Hin as [Hin Hf].
    repeat split; auto.
    unfold managerPaymentFilter in Hf. rewrite !andb_true_iff in Hf.
    tauto.
Qed.

Lemma ceilDiv_spec a b :
  (0 < b)%Z -> ((ceilDiv a b - 1) * b < a <= ceilDiv a b * b)%Z.
Proof.
  intros Hb. unfold ceilDiv.
  pose proof (Z.div_mod (- a) b) as Hdiv.
  pose proof (Z.mod_pos_bound (- a) b Hb) as Hmod.
  nia.
Qed.

Lemma pageOf_length q rows ordered :
  Permutation rows ordered ->
  Z.of_nat (List.length (pageOf q ordered))
  = Z.max 0
      (Z.min (Z.pos (PaymentQuery.limit q))
         (Z.of_nat (List.length rows)
          - (Z.pos (PaymentQuery.page q) - 1) * Z.pos (PaymentQuery.limit q)))%Z.
Proof.
  intros Hperm. unfold pageOf.
  rewrite length_firstn, length_skipn, <- (Permutation_length Hperm).
  nia.
Qed.

Lemma listedBy_inv orderPayments u q s where_ list :
  listedBy orderPayments u q s where_ list ->
  listPayments orderPayments where_ q s = Some (list, s).
Proof.
  intros [[-> H]|[-> H]].
  - now apply getTenantPayments_inv in H.
  - now apply getManagerPayments_inv in H.
Qed.

(** X14. Pagination of the payment lists. [totalCount] is the number of
    rows of the store that pass the filter; [totalPages] is the least
    number of pages of [limit] rows that hold them; [hasNextPage] holds
    exactly when rows remain after this page ([page * limit < totalCount])
    and [hasPrevPage] exactly from page 2 on; the page itself holds
    [limit] rows, or what is left after the [(page - 1) * limit] rows
    before it, or none. *)
Theorem payment_lists_pagination :
  forall orderPayments u q s where_ list,
    rearranges orderPayments ->
    listedBy orderPayments u q s where_ list ->
    let pagination := PaymentList.pagination list in
    let page := Z.pos (PaymentQuery.page q) in
    let limit := Z.pos (PaymentQuery.limit q) in
    let totalCount := Pagination.totalCount pagination in
    let totalPages := Pagination.totalPages pagination in
    totalCount = countWhere where_ (payments s)
    /\ ((totalPages - 1) * limit < totalCount <= totalPages * limit)%Z
    /\ (Pagination.hasNextPage pagination = true
        <-> (page * limit < totalCount)%Z)
    /\ (Pagination.hasPrevPage pagination = true <-> (1 < page)%Z)
    /\ Z.of_nat (List.length (PaymentList.payments list))
       = Z.max 0 (Z.min limit (totalCount - (page - 1) * limit))%Z.
Proof.
  intros orderPayments u q s where_ list Hperm Hlisted.
  apply listedBy_inv, listPayments_inv in Hlisted.
  destruct Hlisted as [_ [ordered [Horder [Hpage [Hpagination _]]]]].
  rewrite Hpagination, Hpage.
  cbv zeta. unfold paginationOf.
  cbn [Pagination.totalCount Pagination.totalPages Pagination.hasNextPage
         Pagination.hasPrevPage].
  pose proof (ceilDiv_spec (countWhere where_ (payments s))
                (Pos2Z.is_pos (PaymentQuery.limit q))) as Hceil.
  split; [reflexivity|]. split; [exact Hceil|].
  split; [rewrite Z.ltb_lt; nia|].
  split; [rewrite Z.gtb_lt; lia|].
  apply Hperm in Horder. rewrite (pageOf_length q Horder).
  reflexivity.
Qed.

Lemma status_counts (rows : list Payment.t) :
  let count st :=
    countWhere (fun p => PaymentStatus_eqb (Payment.status p) st) rows in
  (count PaymentStatus.COMPLETED + count PaymentStatus.PENDING
   + count PaymentStatus.FAILED + count PaymentStatus.REFUNDED
   = Z.of_nat (List.length rows))%Z.
Proof.
  cbv zeta. unfold countWhere.
  induction rows as [|r rows IH]; [reflexivity|].
  cbn [filter List.length].
  destruct (Payment.status r); cbn [PaymentStatus_eqb List.length]; lia.
Qed.

(** X15. The status counts of a payment list are taken over the returned
    page, not over all rows that match: [completed], [pending] and
    [failed] together with the REFUNDED rows of the page add up to the
    length of the page, so they never exceed [limit], whereas [total] is
    the number of all matching rows. *)
Theorem payment_lists_stats_cover_the_page :
  forall orderPayments u q s where_ list,
    rearranges orderPayments ->
    listedBy orderPayments u q s where_ list ->
    let stats := PaymentList.stats list in
    let page := PaymentList.payments list in
    PaymentStats.total stats = countWhere where_ (payments s)
    /\ (PaymentStats.completed stats + PaymentStats.pending stats
        + PaymentStats.failed stats
        + countWhere (fun p => PaymentStatus_eqb (Payment.status p)
                                 PaymentStatus.REFUNDED) page
        = Z.of_nat (List.length page))%Z
    /\ (PaymentStats.completed stats + PaymentStats.pending stats
        + PaymentStats.failed stats
        <= Z.pos (PaymentQuery.limit q))%Z
    /\ PaymentStats.totalAmount stats = sumCompleted page.
Proof.
  intros orderPayments u q s where_ list Hperm Hlisted.
  apply listedBy_inv, listPayments_inv in Hlisted.
  destruct Hlisted as [_ [ordered [Horder [Hpage [_ Hstats]]]]].
  cbv zeta. rewrite Hstats, Hpage. unfold paymentStats.
  cbn [PaymentStats.total PaymentStats.completed PaymentStats.pending
         PaymentStats.failed PaymentStats.totalAmount].
  pose proof (status_counts (pageOf q ordered)) as Hcounts.
  cbv zeta in Hcounts.
  split; [reflexivity|]. split; [exact Hcounts|]. split; [|reflexivity].
  apply Hperm in Horder. pose proof (pageOf_length q Horder) as Hlen.
  assert (0 <= countWhere
                 (fun p => PaymentStatus_eqb (Payment.status p)
                             PaymentStatus.REFUNDED) (pageOf q ordered))%Z
    by (unfold countWhere; lia).
  lia.
Qed.

(** * Further properties of the lease controller *)

(** ** getLeaseById *)

(** X16. [getLeaseById] never writes. It answers 200 only with a lease row
    that has the requested key and that the caller may see (a tenant its
    own leases, a manager the leases on its properties), together with the
    metrics of that lease; a lease the caller may not see is answered
    like a key that names nothing, 404 LEASE_NOT_FOUND. *)
Theorem getLeaseById_shows_only_visible :
  forall env u leaseId s,
    snd (getLeaseById env (Some u) leaseId s) = s
    /\ (forall view,
           Answer.data (fst (getLeaseById env (Some u) leaseId s))
             = Some view ->
           In (LeaseView.lease view) (leases s)
           /\ Lease.id (LeaseView.lease view) = leaseId
           /\ LeaseView.metrics view
              = leaseMetrics (now env) s (LeaseView.lease view)
           /\ (User.role u = Role.tenant ->
               Lease.tenantId (LeaseView.lease view) = User.id u)
           /\ (User.role u = Role.manager ->
               propertyManagedBy s (Lease.propertyId (LeaseView.lease view))
                 (User.id u) = true))
    /\ ((forall l, In l (leases s) -> Lease.id l = leaseId ->
                   visibleLease leaseId u s l = false) ->
        fst (getLeaseById env (Some u) leaseId s)
        = Answer.failure 404 "Lease not found or access denied"
            "LEASE_NOT_FOUND").
Proof.
  intros env u leaseId s.
  unfold getLeaseById. run_handler.
  destruct (find (visibleLease leaseId u s) (leases s))
    as [lease|] eqn:Hfind; simpl.
  - split; [reflexivity|]. split.
    + intros view Hview. injection Hview as <-. simpl.
      apply find_some in Hfind. destruct Hfind as [Hin Hv].
      unfold visibleLease in Hv. apply andb_true_iff in Hv.
      destruct Hv as [Hid Hrole]. apply String.eqb_eq in Hid.
      repeat split; auto; intros E; rewrite E in Hrole;
        [now apply String.eqb_eq | assumption].
    + intros Hnone. exfalso.
      apply find_some in Hfind. destruct Hfind as [Hin Hv].
      assert (Hid : Lease.id lease = leaseId).
      { unfold visibleLease in Hv. apply andb_true_iff in Hv.
        destruct Hv as [Hid _]. now apply String.eqb_eq. }
      rewrite (Hnone lease Hin Hid) in Hv. discriminate.
  - split; [reflexivity|]. split; [discriminate | reflexivity].
Qed.

(** X17. [daysUntilExpiry] is reported for an ACTIVE lease only. It is the
    number of days, rounded up, from now to the end date: the least [d]
    with [endDate <= now + d days]. It is therefore 0 or negative exactly
    when the end date has been reached, and 1 during the last day. *)
Theorem daysUntilExpiry_rounds_up :
  forall now s lease,
    (Lease.status lease <> LeaseStatus.ACTIVE ->
     LeaseMetrics.daysUntilExpiry (leaseMetrics now s lease) = None)
    /\ (Lease.status lease = LeaseStatus.ACTIVE ->
        exists d,
          LeaseMetrics.daysUntilExpiry (leaseMetrics now s lease) = Some d
          /\ (now + (d - 1) * MS_PER_DAY < Lease.endDate lease
              <= now + d * MS_PER_DAY)%Z
          /\ ((d <= 0)%Z <-> (Lease.endDate lease <= now)%Z)).
Proof.
  intros now s lease. unfold leaseMetrics. cbn [LeaseMetrics.daysUntilExpiry].
  split.
  - intros Hst.
    destruct (LeaseStatus.eqb (Lease.status lease) LeaseStatus.ACTIVE)
      eqn:E; [|reflexivity].
    apply LeaseStatus_eqb_eq in E. contradiction.
  - intros Hst. rewrite Hst. cbn [LeaseStatus.eqb].
    eexists. split; [reflexivity|].
    assert (Hday : (0 < MS_PER_DAY)%Z) by reflexivity.
    pose proof (@ceilDiv_spec (Lease.endDate lease - now) _ Hday) as Hceil.
    split; [lia | nia].
Qed.

Lemma sumCompleted_from (rows : list Payment.t) (start : Z) :
  fold_left (fun sum p => (sum + Payment.amount p)%Z) rows start
  = (start + fold_left (fun sum p => (sum + Payment.amount p)%Z) rows 0)%Z.
Proof.
  revert start. induction rows as [|r rows IH]; intros start; simpl.
  - lia.
  - rewrite IH, (IH (Payment.amount r)). lia.
Qed.

Lemma sumCompleted_snoc rows p :
  sumCompleted (rows ++ [p])
  = (sumCompleted rows
     + if PaymentStatus_eqb (Payment.status p) PaymentStatus.COMPLETED
       then Payment.amount p else 0)%Z.
Proof.
  unfold sumCompleted. rewrite filter_app, fold_left_app. cbn [filter].
  destruct (PaymentStatus_eqb (Payment.status p) PaymentStatus.COMPLETED);
    simpl; lia.
Qed.

Lemma paymentsUpdated_fresh paymentId updateData at_ rows :
  hasId Payment.id paymentId rows = false ->
  paymentsUpdated paymentId updateData at_ rows = rows.
Proof.
  unfold hasId, paymentsUpdated.
  induction rows as [|r rows IH]; simpl; [reflexivity|].
  intros H. apply orb_false_iff in H. destruct H as [Hr Hrest].
  now rewrite Hr, IH.
Qed.

(** What a successful [createPaymentRecord] by a user has done. *)
Lemma createPaymentRecord_created env u paymentData s r s1 :
  createPaymentRecord env (Some u) paymentData s = (r, s1) ->
  Response.success r = true ->
  exists payment,
    s1 = mkStore (tenants s) (properties s) (applications s) (leases s)
           (payments s ++ [payment])
    /\ Payment.id payment = uuid env
    /\ Payment.leaseId payment = CreatePaymentInput.leaseId paymentData
    /\ Payment.amount payment = CreatePaymentInput.amount paymentData
    /\ Payment.status payment = PaymentStatus.PENDING
    /\ User.role u = Role.manager
    /\ paymentManagedBy (User.id u) s1 payment = true.
Proof.
  intros H Hok.
  destruct (createPaymentRecord_success_inv _ _ _ _ H Hok)
    as [u0 [lease [tenant [Hu [Htruthy [Hfind [Htenant [Hr Hs']]]]]]]].
  injection Hu as <-.
  exists (newPayment env tenant (leaseProperty s lease) paymentData).
  split; [assumption|]. repeat split.
  - revert H. unfold createPaymentRecord.
    destruct (User.role u) eqn:E; simpl; try reflexivity;
      intros H; inversion H; subst; discriminate.
  - unfold paymentManagedBy. cbn [newPayment Payment.leaseId].
    pose proof (find_some _ _ Hfind) as [Hlin Hlm].
    unfold paymentLeaseOf in Hlm.
    destruct (CreatePaymentInput.leaseId paymentData) as [leaseId|];
      [|discriminate].
    cbn [whereEq] in Hlm. apply andb_true_iff in Hlm.
    destruct Hlm as [Hlid Hlp]. apply String.eqb_eq in Hlid.
    assert (Hex : existsb
              (fun l => (Lease.id l =? leaseId)
                        && propertyManagedBy s1 (Lease.propertyId l)
                             (User.id u)) (leases s1) = true).
    { apply existsb_exists. exists lease. subst s1. simpl. split; [assumption|].
      rewrite <- Hlid, String.eqb_refl. exact Hlp. }
    now rewrite Hex.
Qed.

(** X18. How a recorded payment enters the metrics of its lease. After
    [createPaymentRecord] has recorded a payment against a lease,
    [totalPayments] of that lease is one more and [totalPaid] is
    unchanged, the new payment being PENDING; once [updatePaymentStatus]
    by that manager has set its status, [totalPaid] has grown by the
    amount if the new status is COMPLETED and not at all otherwise. *)
Theorem recorded_payment_in_lease_metrics :
  forall env u paymentData s r s1 env2 updateData clock lease,
    createPaymentRecord env (Some u) paymentData s = (r, s1) ->
    Response.success r = true ->
    CreatePaymentInput.leaseId paymentData = Some (Lease.id lease) ->
    let before := leaseMetrics clock s lease in
    let recorded := leaseMetrics clock s1 lease in
    let result := updatePaymentStatus env2 (Some u) (uuid env) updateData s1 in
    let settled := leaseMetrics clock (snd result) lease in
    LeaseMetrics.totalPayments recorded
      = (LeaseMetrics.totalPayments before + 1)%Z
    /\ LeaseMetrics.totalPaid recorded = LeaseMetrics.totalPaid before
    /\ Answer.success (fst result) = true
    /\ LeaseMetrics.totalPayments settled
       = (LeaseMetrics.totalPayments before + 1)%Z
    /\ LeaseMetrics.totalPaid settled
       = (LeaseMetrics.totalPaid before
          + if PaymentStatus_eqb (UpdatePaymentInput.status updateData)
                 PaymentStatus.COMPLETED
            then CreatePaymentInput.amount paymentData else 0)%Z.
Proof.
  intros env u paymentData s r s1 env2 updateData clock lease H Hok Hlease.
  pose proof (createPaymentRecord_success_fresh _ _ _ _ H Hok) as Hfresh.
  destruct (@createPaymentRecord_created _ _ _ _ _ _ H Hok)
    as [payment [Hs1 [Hid [Hlid [Hamount [Hstatus [Hrole Hmanaged]]]]]]].
  cbv zeta.
  assert (Hmine : optEqb (Payment.leaseId payment) (Lease.id lease) = true).
  { rewrite Hlid, Hlease. cbn [optEqb]. apply String.eqb_refl. }
  assert (Hrows1 : leasePayments s1 lease
                   = (leasePayments s lease ++ [payment])%list).
  { unfold leasePayments. rewrite Hs1. cbn [payments].
    rewrite filter_app. cbn [filter]. now rewrite Hmine. }
  assert (Hfind : find (managedPayment (uuid env) (User.id u) s1) (payments s1)
                  = Some payment).
  { rewrite Hs1 at 2. cbn [payments].
    apply (@find_snoc_fresh _ Payment.id); rewrite ?Hid; auto.
    - intros p Hp. unfold managedPayment in Hp.
      apply andb_true_iff in Hp. destruct Hp as [Hp _].
      now apply String.eqb_eq in Hp.
    - unfold managedPayment. now rewrite Hid, String.eqb_refl, Hmanaged. }
  destruct (@updatePaymentStatus_found env2 u (uuid env) updateData s1
              payment Hrole Hfind)
    as [row [_ Hrun]].
  rewrite Hrun. cbn [fst snd Answer.success Answer.ok].
  assert (Hrows2 :
    leasePayments
      (mkStore (tenants s1) (properties s1) (applications s1) (leases s1)
         (paymentsUpdated (uuid env) updateData (now env2) (payments s1)))
      lease
    = (leasePayments s lease
       ++ [applyPaymentUpdate updateData (now env2) payment])%list).
  { unfold leasePayments. cbn [payments]. rewrite Hs1. cbn [payments].
    unfold paymentsUpdated at 1. rewrite map_app.
    fold (paymentsUpdated (uuid env) updateData (now env2) (payments s)).
    rewrite (@paymentsUpdated_fresh _ updateData (now env2) _ Hfresh).
    cbn [map].
    rewrite Hid, String.eqb_refl, filter_app. cbn [filter].
    cbn [applyPaymentUpdate Payment.leaseId]. now rewrite Hmine. }
  unfold leaseMetrics.
  cbn [LeaseMetrics.totalPayments LeaseMetrics.totalPaid].
  rewrite Hrows1, Hrows2, !length_app, !sumCompleted_snoc.
  cbn [List.length applyPaymentUpdate Payment.status Payment.amount].
  rewrite Hstatus, Hamount. cbn [PaymentStatus_eqb].
  repeat split; lia.
Qed.

(** * Invariants over runs of the API *)

(** ** What one request does to the lease and payment tables *)

Ltac untouched :=
  split; [apply leases_same | apply payments_same].

Lemma createLease_success_checks env user leaseData s r s' :
  createLease env user leaseData s = (r, s') ->
  Response.success r = true ->
  hasId Lease.id (uuid env) (leases s) = false
  /\ forall u application,
       user = Some u ->
       find (approvedApplicationOf (CreateLeaseInput.applicationId leaseData)
               (User.id u) s) (applications s) = Some application ->
       find (fun l => optEqb (Lease.applicationId l)
                        (Application.id application)) (leases s) = None.
Proof.
  intros H Hok. revert H. unfold createLease. run_handler.
  unfold prisma.lease.create.
  split_handler; intros H; inversion H; subst; try discriminate.
  cbn [newLease Lease.id] in *. split; [assumption|].
  intros u0 application0 Hu Happ. injection Hu as <-.
  match goal with
  | Hfound : find (approvedApplicationOf _ _ _) _ = Some ?a |- _ =>
    rewrite Hfound in Happ; injection Happ as <-
  end.
  assumption.
Qed.

Lemma createLease_advances env user leaseData s :
  leasesAdvance s (leases (snd (createLease env user leaseData s)))
  /\ paymentsAdvance s (payments (snd (createLease env user leaseData s))).
Proof.
  destruct (createLease env user leaseData s) as [r s'] eqn:H.
  destruct (Response.success r) eqn:Hok.
  - destruct (createLease_success_checks _ _ _ _ H Hok) as [Hfresh Hfree].
    destruct (createLease_success_inv _ _ _ _ H Hok)
      as [u [application [Hu [Happ [_ Hs']]]]].
    pose proof (approvedApplicationOf_found _ _ _ Happ)
      as [Hin [_ [Hst _]]].
    specialize (Hfree u application Hu Happ).
    subst s'. cbn [snd leases payments]. split; [|apply payments_same].
    apply leases_drafted with (a := application); auto.
    intros l Hl Href.
    pose proof (find_none _ _ Hfree l Hl) as Hno. cbv beta in Hno.
    rewrite Href in Hno. cbn [optEqb] in Hno.
    now rewrite String.eqb_refl in Hno.
  - assert (Hs : s' = s); [|subst s'; cbn [snd]; untouched].
    revert H. unfold createLease. run_handler.
    unfold prisma.lease.create.
    split_handler; intros H; inversion H; subst; auto; discriminate.
Qed.

Lemma updateLeaseStatus_advances env user leaseId status s :
  leasesAdvance s (leases (snd (updateLeaseStatus env user leaseId status s)))
  /\ paymentsAdvance s
       (payments (snd (updateLeaseStatus env user leaseId status s))).
Proof.
  unfold updateLeaseStatus. run_handler.
  destruct user as [u|]; [|cbn [snd]; untouched].
  destruct (negb (Role.eqb (User.role u) Role.manager)); [cbn [snd]; untouched|].
  destruct (negb (includes validStatuses status)); [cbn [snd]; untouched|].
  destruct (find (leaseManagedBy leaseId (User.id u) s) (leases s))
    as [l|] eqn:Hfind; [|cbn [snd]; untouched].
  destruct (includes (validTransitions (Lease.status l)) status) eqn:Htable;
    cbn [negb]; [|cbn [snd]; untouched].
  destruct (validTransitions_valid _ _ Htable)
    as [_ [newStatus [Hparse Hprint]]].
  rewrite Hparse. unfold prisma.lease.update.
  destruct (find (fun r => Lease.id r =? leaseId) (leases s));
    [|cbn [snd]; untouched].
  cbn [snd leases payments]. split; [|apply payments_same].
  pose proof (leaseManagedBy_found _ _ _ Hfind) as [Hin [Hid _]].
  rewrite <- Hid. apply leases_transition; [assumption|].
  rewrite Hprint. now apply validTransitions_spec.
Qed.

Lemma createPaymentRecord_advances env user paymentData s :
  leasesAdvance s (leases (snd (createPaymentRecord env user paymentData s)))
  /\ paymentsAdvance s
       (payments (snd (createPaymentRecord env user paymentData s))).
Proof.
  destruct (createPaymentRecord env user paymentData s) as [r s'] eqn:H.
  destruct (Response.success r) eqn:Hok.
  - pose proof (createPaymentRecord_success_fresh _ _ _ _ H Hok) as Hfresh.
    destruct (createPaymentRecord_success_inv _ _ _ _ H Hok)
      as [u [lease [tenant [_ [Htruthy [Hfind [Htenant [_ Hs']]]]]]]].
    subst s'. cbn [snd leases payments]. split; [apply leases_same|].
    pose proof (find_some _ _ Hfind) as [Hin Hm].
    unfold paymentLeaseOf in Hm.
    destruct (CreatePaymentInput.leaseId paymentData) as [leaseId|] eqn:Hid;
      [|discriminate].
    cbn [whereEq] in Hm. apply andb_true_iff in Hm. destruct Hm as [Hm _].
    apply String.eqb_eq in Hm.
    apply payments_recorded with (lease := lease); auto.
    + cbn [newPayment Payment.leaseId]. congruence.
    + cbn [newPayment Payment.tenantId]. exact (leaseTenant_id _ _ Htenant).
  - assert (Hs : s' = s); [|subst s'; cbn [snd]; untouched].
    revert H. unfold createPaymentRecord, resolvePaymentContext. run_handler.
    unfold prisma.payment.create.
    split_handler; intros H; inversion H; subst; auto; discriminate.
Qed.

Lemma application_handlers_advance env c s :
  match c with
  | SubmitApplication _ _ | WithdrawApplication _ _
  | UpdateApplicationStatus _ _ _ => True
  | _ => False
  end ->
  leases (snd (handle env c s)) = leases s
  /\ payments (snd (handle env c s)) = payments s.
Proof.
  destruct c; try contradiction; intros _; cbn [handle];
    [unfold submitApplication | unfold withdrawApplication
     | unfold updateApplicationStatus];
    run_handler;
    unfold prisma.application.create, prisma.application.update;
    split_handler; cbn [snd leases payments]; auto.
Qed.

Lemma handle_advances env c s :
  leasesAdvance s (leases (snd (handle env c s)))
  /\ paymentsAdvance s (payments (snd (handle env c s))).
Proof.
  destruct c as [user body|user id|user id status|user body|user id status
                 |user body].
  - destruct (@application_handlers_advance env (SubmitApplication user body)
                s I) as [-> ->]. untouched.
  - destruct (@application_handlers_advance env (WithdrawApplication user id)
                s I) as [-> ->]. untouched.
  - destruct (@application_handlers_advance env
                (UpdateApplicationStatus user id status) s I) as [-> ->].
    untouched.
  - apply createLease_advances.
  - apply updateLeaseStatus_advances.
  - apply createPaymentRecord_advances.
Qed.

Lemma leasesAdvance_cases s rows' :
  leasesAdvance s rows' ->
  rows' = leases s
  \/ (exists a row,
        rows' = (leases s ++ [row])%list
        /\ hasId Lease.id (Lease.id row) (leases s) = false
        /\ In a (applications s)
        /\ Application.status a = ApplicationStatus.APPROVED
        /\ Lease.applicationId row = Some (Application.id a)
        /\ Lease.tenantId row = Application.tenantId a
        /\ Lease.propertyId row = Application.propertyId a
        /\ (forall l, In l (leases s) ->
                       Lease.applicationId l <> Some (Application.id a)))
  \/ (exists moved st at_,
        rows' = leasesWithStatus (Lease.id moved) st at_ (leases s)
        /\ In moved (leases s)
        /\ inTransitionTable (Lease.status moved) (LeaseStatus.toString st)).
Proof.
  destruct 1 as [|a row|moved st at_].
  - now left.
  - right. left. exists a, row. repeat split; assumption.
  - right. right. exists moved, st, at_. repeat split; assumption.
Qed.

Lemma paymentsAdvance_cases s rows' :
  paymentsAdvance s rows' ->
  rows' = payments s
  \/ (exists lease row,
        rows' = (payments s ++ [row])%list
        /\ hasId Payment.id (Payment.id row) (payments s) = false
        /\ In lease (leases s)
        /\ Payment.leaseId row = Some (Lease.id lease)
        /\ Payment.tenantId row = Lease.tenantId lease).
Proof.
  destruct 1 as [|lease row].
  - now left.
  - right. exists lease, row. repeat split; assumption.
Qed.

(** ** Primary keys *)

Lemma leasesWithStatus_keys leaseId st at_ rows :
  map Lease.id (leasesWithStatus leaseId st at_ rows) = map Lease.id rows.
Proof.
  unfold leasesWithStatus. rewrite map_map. apply map_ext.
  intros r. now destruct (Lease.id r =? leaseId).
Qed.

Lemma handle_keysUnique env c s :
  keysUnique s -> keysUnique (snd (handle env c s)).
Proof.
  intros [Happs [Hleases Hpayments]].
  destruct (handle_evolves env c s) as [_ _ Hstep _].
  destruct (handle_advances env c s) as [Hl Hp].
  split; [|split].
  - eapply applicationsStep_keys; eassumption.
  - destruct (leasesAdvance_cases Hl)
      as [->|[[a [row [-> [Hfresh _]]]]|[moved [st [at_ [-> _]]]]]].
    + assumption.
    + rewrite map_app. simpl. apply NoDup_snoc; [assumption|].
      now apply hasId_false_not_In.
    + now rewrite leasesWithStatus_keys.
  - destruct (paymentsAdvance_cases Hp)
      as [->|[lease [row [-> [Hfresh _]]]]].
    + assumption.
    + rewrite map_app. simpl. apply NoDup_snoc; [assumption|].
      now apply hasId_false_not_In.
Qed.

(** What [updatePaymentStatus] leaves of the store, whoever calls it. *)
Lemma updatePaymentStatus_kept env user paymentId updateData s :
  let s' := snd (updatePaymentStatus env user paymentId updateData s) in
  applications s' = applications s
  /\ leases s' = leases s
  /\ Forall2 samePayment (payments s) (payments s').
Proof.
  cbv zeta.
  destruct (updatePaymentStatus env user paymentId updateData s)
    as [r s'] eqn:H.
  cbn [snd].
  destruct (updatePaymentStatus_cases _ _ _ _ _ H)
    as [[_ ->]|[u [payment [_ [_ [_ [_ ->]]]]]]].
  - repeat split. apply Forall2_same. intros p. unfold samePayment. tauto.
  - cbn [applications leases payments]. repeat split.
    eapply Forall2_impl; [|apply paymentsUpdated_same].
    intros p p' [Hsame _]. exact Hsame.
Qed.

Lemma samePayment_keys rows rows' :
  Forall2 samePayment rows rows' ->
  map Payment.id rows' = map Payment.id rows.
Proof.
  induction 1 as [|p p' rows rows' Hp _ IH]; [reflexivity|].
  cbn [map]. destruct Hp as [Hid _]. now rewrite Hid, IH.
Qed.

Lemma samePayment_In rows rows' p' :
  Forall2 samePayment rows rows' ->
  In p' rows' -> exists p, In p rows /\ samePayment p p'.
Proof.
  induction 1 as [|p q rows rows' Hp _ IH]; intros Hin; [destruct Hin|].
  destruct Hin as [<-|Hin].
  - exists p. split; [now left | exact Hp].
  - destruct (IH Hin) as [x [Hx Hsame]]. exists x. split; [now right|].
    exact Hsame.
Qed.

Lemma serve_keysUnique env q s :
  keysUnique s -> keysUnique (serve env q s).
Proof.
  destruct q as [c|user id body]; cbn [serve].
  - apply handle_keysUnique.
  - intros [Happs [Hleases Hpayments]].
    destruct (updatePaymentStatus_kept env user id body s)
      as [Ha [Hl Hp]].
    unfold keysUnique. rewrite Ha, Hl, (samePayment_keys Hp).
    auto.
Qed.

(** X19. Primary keys stay unique: from a store in which no two
    applications, no two leases and no two payments share a key, every
    sequence of requests to the seven handlers that insert or update
    applications, leases and payments leads to such a store (a generated
    id that collides is refused by the insert, and an update keeps the
    key). *)
Theorem run_keeps_keys_unique :
  forall requests s, keysUnique s -> keysUnique (serveAll requests s).
Proof.
  induction requests as [|[env q] rest IH]; simpl; intros s Hs.
  - assumption.
  - apply IH. now apply serve_keysUnique.
Qed.

(** ** The life of an application and of a lease *)

(** X20. A decision is final: an application row that is APPROVED,
    REJECTED or WITHDRAWN is found unchanged, field for field, in the
    store after any run of requests. *)
Theorem run_keeps_decided_applications :
  forall requests s a,
    keysUnique s ->
    In a (applications s) ->
    Application.status a <> ApplicationStatus.PENDING ->
    In a (applications (run requests s)).
Proof.
  induction requests as [|[env c] rest IH]; simpl; intros s a Hkeys Hin Hst.
  - assumption.
  - apply IH; [now apply handle_keysUnique | | assumption].
    destruct (handle_evolves env c s) as [_ _ Hstep _].
    destruct Hkeys as [Happs _].
    eapply applicationsStep_settled; eassumption.
Qed.

Lemma laterOf_refl l : laterOf l l.
Proof. unfold laterOf. repeat split; auto. Qed.

Lemma laterOf_trans l1 l2 l3 : laterOf l1 l2 -> laterOf l2 l3 -> laterOf l1 l3.
Proof.
  unfold laterOf. intros H12 H23.
  decompose [and] H12. decompose [and] H23.
  repeat split; try congruence; try lia.
  intros Hended.
  assert (E : l2 = l1) by auto. subst l2. auto.
Qed.

Lemma transition_advances st target :
  inTransitionTable st (LeaseStatus.toString target) ->
  (leaseStage st < leaseStage target)%nat.
Proof.
  unfold inTransitionTable.
  intros [[-> [H|H]]|[-> [H|H]]]; destruct target; simpl in *;
    try discriminate; lia.
Qed.

Lemma step_laterOf s rows' l :
  NoDup (map Lease.id (leases s)) ->
  leasesAdvance s rows' ->
  In l (leases s) ->
  exists l', In l' rows' /\ laterOf l l'.
Proof.
  intros Hkeys Hstep Hin.
  destruct (leasesAdvance_cases Hstep)
    as [->|[[a [row [-> _]]]|[moved [st [at_ [-> [Hmoved Htable]]]]]]].
  - exists l. split; [assumption | apply laterOf_refl].
  - exists l. split; [apply in_or_app; now left | apply laterOf_refl].
  - destruct (String.eqb_spec (Lease.id l) (Lease.id moved)) as [Heq|Hne].
    + assert (moved = l).
      { eapply NoDup_key_injective with (key := Lease.id); eauto. }
      subst moved.
      exists (setLeaseStatus st at_ l). split.
      * unfold leasesWithStatus. apply in_map_iff. exists l.
        now rewrite String.eqb_refl.
      * apply transition_advances in Htable.
        unfold laterOf. cbn [setLeaseStatus Lease.id Lease.propertyId
          Lease.tenantId Lease.applicationId Lease.startDate Lease.endDate
          Lease.rentAmount Lease.securityDeposit Lease.paymentDueDate
          Lease.leaseAgreementUrl Lease.createdAt Lease.status].
        repeat split; try lia.
        intros Hended. destruct st; simpl in Htable; lia.
    + exists l. split; [|apply laterOf_refl].
      unfold leasesWithStatus. apply in_map_iff. exists l.
      apply String.eqb_neq in Hne. now rewrite Hne.
Qed.

(** X21. A lease only moves forward. In the store after any run of
    requests every lease row of the starting store is still there under
    its key, with the same property, tenant, application, dates, amounts
    and creation time; its status is at the same or a later stage
    (drafted, active, ended), so an ACTIVE lease is never PENDING_SIGNATURE
    again; and a TERMINATED or COMPLETED lease is the very same row. *)
Theorem run_moves_leases_forward :
  forall requests s l,
    keysUnique s ->
    In l (leases s) ->
    exists l', In l' (leases (run requests s)) /\ laterOf l l'.
Proof.
  induction requests as [|[env c] rest IH]; simpl; intros s l Hkeys Hin.
  - exists l. split; [assumption | apply laterOf_refl].
  - destruct (handle_advances env c s) as [Hstep _].
    destruct Hkeys as [Ha [Hl Hp]].
    destruct (step_laterOf l Hl Hstep Hin) as [l1 [Hin1 Hlater1]].
    destruct (IH (snd (handle env c s)) l1) as [l2 [Hin2 Hlater2]];
      [apply handle_keysUnique; repeat split; assumption | assumption |].
    exists l2. split; [assumption|].
    eapply laterOf_trans; eassumption.
Qed.

(** ** Leases, applications and payments agree *)

Lemma handle_leasesFollowApplications env c s :
  keysUnique s ->
  leasesFollowApplications s ->
  leasesFollowApplications (snd (handle env c s)).
Proof.
  intros [Hkeys _] Hinv.
  destruct (handle_evolves env c s) as [_ _ Hstep _].
  destruct (handle_advances env c s) as [Hl _].
  assert (Hkeep : forall a,
             In a (applications s) ->
             Application.status a = ApplicationStatus.APPROVED ->
             In a (applications (snd (handle env c s)))).
  { intros a Hin Hst. eapply applicationsStep_settled; try eassumption.
    congruence. }
  intros l' applicationId Hin' Href.
  destruct (leasesAdvance_cases Hl)
    as [E|[[a [row [E [_ [Ha [Hst [Hrow [Ht [Hp _]]]]]]]]]
          |[moved [st [at_ [E _]]]]]];
    rewrite E in Hin'.
  - destruct (Hinv l' applicationId Hin' Href) as [a [Ha [Hid [Hst Hrest]]]].
    exists a. repeat split; auto; tauto.
  - apply in_app_or in Hin'. destruct Hin' as [Hold|[<-|[]]].
    + destruct (Hinv l' applicationId Hold Href)
        as [a0 [Ha0 [Hid [Hst0 Hrest]]]].
      exists a0. repeat split; auto; tauto.
    + exists a. rewrite Hrow in Href. injection Href as <-.
      repeat split; auto.
  - unfold leasesWithStatus in Hin'. apply in_map_iff in Hin'.
    destruct Hin' as [l0 [Himage Hin0]].
    assert (Hsame : Lease.applicationId l' = Lease.applicationId l0
                    /\ Lease.tenantId l' = Lease.tenantId l0
                    /\ Lease.propertyId l' = Lease.propertyId l0).
    { subst l'. destruct (Lease.id l0 =? Lease.id moved); auto. }
    destruct Hsame as [Hsa [Hst' Hsp]]. rewrite Hsa in Href.
    destruct (Hinv l0 applicationId Hin0 Href)
      as [a [Ha [Hid [Hst Hrest]]]].
    exists a. rewrite Hst', Hsp. repeat split; auto; tauto.
Qed.

(** X22. A lease belongs to the applicant: if in the starting store every
    lease that references an application carries the tenant and the
    property of that application and the application is APPROVED (so in
    particular when there is no lease yet), the same holds after any run
    of requests. *)
Theorem run_keeps_leases_with_their_applications :
  forall requests s,
    keysUnique s ->
    leasesFollowApplications s ->
    leasesFollowApplications (run requests s).
Proof.
  induction requests as [|[env c] rest IH]; simpl; intros s Hkeys Hinv.
  - assumption.
  - apply IH; [now apply handle_keysUnique|].
    now apply handle_leasesFollowApplications.
Qed.

Lemma handle_oneLeasePerApplication env c s :
  oneLeasePerApplication s -> oneLeasePerApplication (snd (handle env c s)).
Proof.
  intros Hinv.
  destruct (handle_advances env c s) as [Hl _].
  intros l1 l2 applicationId Hin1 Hin2 Href1 Href2.
  destruct (leasesAdvance_cases Hl)
    as [E|[[a [row [E [_ [_ [_ [Hrow [_ [_ Hfree]]]]]]]]]
          |[moved [st [at_ [E _]]]]]];
    rewrite E in Hin1, Hin2.
  - eapply Hinv; eassumption.
  - apply in_app_or in Hin1. apply in_app_or in Hin2.
    destruct Hin1 as [Hold1|[<-|[]]], Hin2 as [Hold2|[<-|[]]].
    + eapply Hinv; eassumption.
    + exfalso. apply (Hfree l1 Hold1). congruence.
    + exfalso. apply (Hfree l2 Hold2). congruence.
    + reflexivity.
  - unfold leasesWithStatus in Hin1, Hin2.
    apply in_map_iff in Hin1. apply in_map_iff in Hin2.
    destruct Hin1 as [o1 [Himage1 Hold1]], Hin2 as [o2 [Himage2 Hold2]].
    assert (H1 : Lease.applicationId l1 = Lease.applicationId o1
                 /\ Lease.id l1 = Lease.id o1).
    { subst l1. destruct (Lease.id o1 =? Lease.id moved); auto. }
    assert (H2 : Lease.applicationId l2 = Lease.applicationId o2
                 /\ Lease.id l2 = Lease.id o2).
    { subst l2. destruct (Lease.id o2 =? Lease.id moved); auto. }
    destruct H1 as [Ha1 Hi1], H2 as [Ha2 Hi2].
    rewrite Hi1, Hi2. apply (Hinv o1 o2 applicationId); congruence.
Qed.

(** X23. One lease per application as a property of the store: if no two
    leases of the starting store reference the same application, then
    after any run of requests no two leases do. *)
Theorem run_keeps_one_lease_per_application :
  forall requests s,
    oneLeasePerApplication s -> oneLeasePerApplication (run requests s).
Proof.
  induction requests as [|[env c] rest IH]; simpl; intros s Hinv.
  - assumption.
  - apply IH. now apply handle_oneLeasePerApplication.
Qed.

Lemma lease_persists s rows' l :
  leasesAdvance s rows' ->
  In l (leases s) ->
  exists l', In l' rows'
    /\ Lease.id l' = Lease.id l /\ Lease.tenantId l' = Lease.tenantId l.
Proof.
  intros Hstep Hin.
  destruct (leasesAdvance_cases Hstep)
    as [->|[[a [row [-> _]]]|[moved [st [at_ [-> _]]]]]].
  - now exists l.
  - exists l. split; [apply in_or_app; now left | auto].
  - exists (if Lease.id l =? Lease.id moved
            then setLeaseStatus st at_ l else l).
    split.
    + unfold leasesWithStatus. apply in_map_iff. now exists l.
    + destruct (Lease.id l =? Lease.id moved); auto.
Qed.

Lemma handle_paymentsFollowLeases env c s :
  paymentsFollowLeases s -> paymentsFollowLeases (snd (handle env c s)).
Proof.
  intros Hinv.
  destruct (handle_advances env c s) as [Hl Hp].
  intros p leaseId Hin Href.
  assert (Hold : forall l, In l (leases s) ->
            Lease.id l = leaseId -> Lease.tenantId l = Payment.tenantId p ->
            exists l', In l' (leases (snd (handle env c s)))
              /\ Lease.id l' = leaseId
              /\ Lease.tenantId l' = Payment.tenantId p).
  { intros l Hlin Hid Ht.
    destruct (lease_persists l Hl Hlin) as [l' [Hin' [Hid' Ht']]].
    exists l'. repeat split; congruence. }
  destruct (paymentsAdvance_cases Hp)
    as [E|[lease [row [E [_ [Hlease [Hrow Htenant]]]]]]]; rewrite E in Hin.
  - destruct (Hinv p leaseId Hin Href) as [l [Hlin [Hid Ht]]].
    now apply (Hold l).
  - apply in_app_or in Hin. destruct Hin as [Hin|[<-|[]]].
    + destruct (Hinv p leaseId Hin Href) as [l [Hlin [Hid Ht]]].
      now apply (Hold l).
    + apply (Hold lease); congruence.
Qed.

Lemma serve_paymentsFollowLeases env q s :
  paymentsFollowLeases s -> paymentsFollowLeases (serve env q s).
Proof.
  destruct q as [c|user id body]; cbn [serve].
  - apply handle_paymentsFollowLeases.
  - intros Hinv p' leaseId Hin Href.
    destruct (updatePaymentStatus_kept env user id body s)
      as [_ [Hl Hp]].
    destruct (@samePayment_In _ _ p' Hp Hin)
      as [p [Hpin [_ [Htenant [Hlease _]]]]].
    rewrite Hl, Htenant. apply (Hinv p leaseId Hpin). congruence.
Qed.

(** X24. A payment stays with the tenant of its lease: if in the starting
    store every payment that names a lease is booked on the tenant of a
    lease row with that key (so in particular when there is no payment
    yet), the same holds after any sequence of requests to the seven
    handlers that insert or update applications, leases and payments,
    [updatePaymentStatus] among them. *)
Theorem run_keeps_payments_with_their_leases :
  forall requests s,
    paymentsFollowLeases s -> paymentsFollowLeases (serveAll requests s).
Proof.
  induction requests as [|[env q] rest IH]; simpl; intros s Hinv.
  - assumption.
  - apply IH. now apply serve_paymentsFollowLeases.
Qed.

(** * Guards of the writing handlers *)

(** X25. The writing handlers check the caller before anything else: a
    request without a user is answered 401 AUTH_REQUIRED, a request of a
    user whose role is not the one the handler asks for (tenant for
    submitting and withdrawing an application, manager for the rest) is
    answered 403 ACCESS_DENIED; in both cases nothing is written, whatever
    the rest of the request says. *)
Theorem handlers_check_the_caller :
  forall env c s,
    (callerOf c = None -> handle env c s = (authRequired, s))
    /\ (forall u,
           callerOf c = Some u ->
           User.role u <> requiredRole c ->
           handle env c s
           = (match requiredRole c with
              | Role.tenant => tenantRequired
              | _ => managerRequired
              end, s)).
Proof.
  intros env c s. split.
  - destruct c; cbn [callerOf handle]; intros ->; reflexivity.
  - intros u Hcaller Hrole.
    destruct c; cbn [callerOf requiredRole handle] in *; subst;
      [unfold submitApplication | unfold withdrawApplication
       | unfold updateApplicationStatus | unfold createLease
       | unfold updateLeaseStatus | unfold createPaymentRecord];
      destruct (User.role u) eqn:E; try contradiction; reflexivity.
Qed.

(** ** createLease *)

(** X26. [createLease] needs an APPROVED application on a property of the
    caller: when every application with the named id is PENDING, REJECTED
    or WITHDRAWN, or sits on a property of another manager (or no
    application has the id), the manager gets 404 APPLICATION_NOT_FOUND and
    nothing is written. *)
Theorem createLease_needs_approved_application :
  forall env u leaseData s,
    User.role u = Role.manager ->
    (forall a,
        In a (applications s) ->
        whereEq (CreateLeaseInput.applicationId leaseData) (Application.id a)
          = true ->
        Application.status a <> ApplicationStatus.APPROVED
        \/ propertyManagedBy s (Application.propertyId a) (User.id u) = false) ->
    createLease env (Some u) leaseData s
    = (Response.failure 404 "Approved application not found or access denied"
         "APPLICATION_NOT_FOUND" NoData, s).
Proof.
  intros env u leaseData s Hrole Hnone.
  unfold createLease. rewrite Hrole. cbn [negb Role.eqb]. run_handler.
  destruct (find (approvedApplicationOf
                    (CreateLeaseInput.applicationId leaseData) (User.id u) s)
                 (applications s)) as [a|] eqn:Hfind; [|reflexivity].
  exfalso.
  pose proof (approvedApplicationOf_found _ _ _ Hfind)
    as [Hin [Hid [Hst Hm]]].
  destruct (Hnone a Hin Hid) as [H|H]; congruence.
Qed.

(** The first row that passes a filter is also the first that passes a
    narrower filter which it passes. *)
Lemma find_narrowed {A} (f g : A -> bool) (rows : list A) (x : A) :
  find f rows = Some x ->
  (forall r, g r = true -> f r = true) ->
  g x = true ->
  find g rows = Some x.
Proof.
  intros Hfind Hsub Hx.
  induction rows as [|r rows IH]; simpl in *; [discriminate|].
  destruct (f r) eqn:Hf.
  - injection Hfind as ->. now rewrite Hx.
  - destruct (g r) eqn:Hg; [|now apply IH].
    apply Hsub in Hg. congruence.
Qed.

Lemma filter_single_find {A} (f : A -> bool) (rows : list A) (x : A) :
  filter f rows = [x] -> find f rows = Some x.
Proof.
  induction rows as [|r rows IH]; simpl; [discriminate|].
  destruct (f r); [intros H; injection H as -> _; reflexivity | exact IH].
Qed.

(** X27. A request body without [applicationId] is not refused for that:
    the lookup then filters on status and owner only. When exactly one
    application is APPROVED on a property of the caller, [createLease]
    does with such a body what it does when the body names that
    application, whatever tenant and property the body itself gives. *)
Theorem createLease_without_applicationId :
  forall env u leaseData s application,
    CreateLeaseInput.applicationId leaseData = None ->
    filter (approvedApplicationOf None (User.id u) s) (applications s)
      = [application] ->
    createLease env (Some u) leaseData s
    = createLease env (Some u)
        (withApplicationId leaseData (Some (Application.id application))) s.
Proof.
  intros env u leaseData s application Hnone Honly.
  pose proof (filter_single_find _ _ Honly) as Hfirst.
  assert (Hnamed :
    find (approvedApplicationOf (Some (Application.id application))
            (User.id u) s) (applications s) = Some application).
  { apply (find_narrowed _ _ _ Hfirst).
    - intros r Hr. unfold approvedApplicationOf in *. cbn [whereEq] in *.
      rewrite !andb_true_iff in *. tauto.
    - pose proof (approvedApplicationOf_found _ _ _ Hfirst)
        as [_ [_ [Hst Hm]]].
      unfold approvedApplicationOf. cbn [whereEq].
      now rewrite String.eqb_refl, Hst, Hm. }
  unfold createLease.
  destruct (negb (Role.eqb (User.role u) Role.manager)); [reflexivity|].
  run_handler. cbn [withApplicationId CreateLeaseInput.applicationId
                      CreateLeaseInput.startDate CreateLeaseInput.endDate].
  rewrite Hnone, Hfirst, Hnamed. reflexivity.
Qed.

(** * The phone number schema *)

Lemma startsWith_split part x :
  startsWith part x = true -> exists rest, x = part ++ rest.
Proof.
  unfold startsWith. revert x.
  induction part as [|c part IH]; intros x H.
  - now exists x.
  - destruct x as [|d x]; [discriminate|]. simpl in H.
    destruct (Ascii.ascii_dec c d) as [<-|_]; [|discriminate].
    destruct (IH x H) as [rest ->]. now exists rest.
Qed.

Lemma substringFrom_append part rest :
  substringFrom (String.length part) (part ++ rest) = rest.
Proof.
  unfold substringFrom.
  induction part as [|c part IH]; simpl.
  - rewrite Nat.sub_0_r. apply substring_all.
  - exact IH.
Qed.

Lemma after_plus92 digits : substringFrom 3 ("+92" ++ digits) = digits.
Proof. exact (substringFrom_append "+92" digits). Qed.

Lemma after_zero rest : substringFrom 1 ("0" ++ rest) = rest.
Proof. exact (substringFrom_append "0" rest). Qed.

Lemma phoneRegex_international digits :
  phoneRegex ("+92" ++ digits) = tenDigits digits
  /\ normalizePhone ("+92" ++ digits) = "+92" ++ digits.
Proof.
  split.
  - unfold phoneRegex.
    rewrite (after_plus92 digits).
    replace (tenDigits ("+92" ++ digits)) with false.
    2:{ unfold tenDigits. simpl. now rewrite andb_false_r. }
    replace (startsWith "+92" ("+92" ++ digits)) with true
      by (unfold startsWith; simpl; now destruct digits).
    replace (startsWith "0" ("+92" ++ digits)) with false by reflexivity.
    simpl. now rewrite orb_false_r.
  - unfold normalizePhone.
    replace (startsWith "0" ("+92" ++ digits)) with false by reflexivity.
    replace (startsWith "+92" ("+92" ++ digits)) with true
      by (unfold startsWith; simpl; now destruct digits).
    reflexivity.
Qed.

(** X28. What [PhoneNumberSchema] makes of a number it accepts: the result
    is "+92" followed by digits only; a number given with "+92" is kept as
    it is; the digits are ten, except for an input of ten digits that
    starts with 0, whose zero is dropped so that nine remain. The schema
    accepts its own result again, unchanged, exactly in the ten digit
    case. *)
Theorem PhoneNumberSchema_normalises :
  forall x y,
    PhoneNumberSchema x = Some y ->
    exists digits,
      y = "+92" ++ digits
      /\ allDigits digits = true
      /\ (startsWith "+92" x = true -> y = x)
      /\ (String.length digits = 10%nat
          \/ (String.length digits = 9%nat
              /\ tenDigits x = true /\ startsWith "0" x = true))
      /\ (PhoneNumberSchema y = Some y <-> String.length digits = 10%nat).
Proof.
  intros x y H. unfold PhoneNumberSchema in H.
  destruct (phoneRegex x) eqn:Hre; [|discriminate].
  injection H as <-.
  assert (Hagain : forall digits,
             allDigits digits = true ->
             (PhoneNumberSchema ("+92" ++ digits) = Some ("+92" ++ digits)
              <-> String.length digits = 10%nat)).
  { intros digits Hd. unfold PhoneNumberSchema.
    destruct (phoneRegex_international digits) as [-> ->].
    unfold tenDigits. rewrite Hd, andb_true_r.
    destruct (Nat.eqb_spec (String.length digits) 10); split;
      congruence. }
  unfold normalizePhone.
  destruct (startsWith "0" x) eqn:Hzero.
  - destruct (startsWith_split "0" x Hzero) as [rest ->].
    rewrite (after_zero rest).
    unfold phoneRegex in Hre.
    rewrite (after_zero rest) in Hre.
    replace (startsWith "+92" ("0" ++ rest)) with false in * by reflexivity.
    rewrite Hzero in Hre. cbn [andb orb] in Hre. rewrite orb_false_r in Hre.
    exists rest.
    assert (Hd : allDigits rest = true).
    { apply orb_true_iff in Hre. unfold tenDigits in Hre.
      destruct Hre as [Hre|Hre]; apply andb_true_iff in Hre;
        destruct Hre as [_ Hre]; [|assumption].
      simpl in Hre. exact Hre. }
    split; [reflexivity|]. split; [assumption|].
    split; [discriminate|]. split; [|now apply Hagain].
    apply orb_true_iff in Hre. destruct Hre as [Hre|Hre].
    + right. split; [|split; [assumption | reflexivity]].
      unfold tenDigits in Hre. apply andb_true_iff in Hre.
      destruct Hre as [Hlen _]. apply Nat.eqb_eq in Hlen.
      simpl in Hlen. lia.
    + left. unfold tenDigits in Hre. apply andb_true_iff in Hre.
      destruct Hre as [Hlen _]. now apply Nat.eqb_eq in Hlen.
  - destruct (startsWith "+92" x) eqn:Hplus; cbn [negb].
    + destruct (startsWith_split "+92" x Hplus) as [rest ->].
      destruct (phoneRegex_international rest) as [Hre' _].
      rewrite Hre' in Hre. unfold tenDigits in Hre.
      apply andb_true_iff in Hre. destruct Hre as [Hlen Hd].
      apply Nat.eqb_eq in Hlen.
      exists rest. repeat split; auto. now apply Hagain.
    + unfold phoneRegex in Hre. rewrite Hzero, Hplus in Hre.
      cbn [andb orb] in Hre. rewrite !orb_false_r in Hre.
      unfold tenDigits in Hre. apply andb_true_iff in Hre.
      destruct Hre as [Hlen Hd]. apply Nat.eqb_eq in Hlen.
      exists x. repeat split; auto; try discriminate. now apply Hagain.
Qed.

(** * The further properties at work on the concrete marketplace *)


Lemma getCognitoPublicKeys_no_stale_keys_witness :
  getCognitoPublicKeys (Some "pool") 3601000 None
    (KeyCache.mk (Some (jwksToKeys (Some Books.jwks))) 3601000)
  = (None, KeyCache.mk (Some (jwksToKeys (Some Books.jwks))) 3601000).
Proof.
  apply (@getCognitoPublicKeys_no_stale_keys (Some "pool") 3601000 None
           (KeyCache.mk (Some (jwksToKeys (Some Books.jwks))) 3601000)).
  - simpl. lia.
  - right. reflexivity.
Defined.

(** No entry of the document is called "constructor", and yet the table
    has something under that name. *)
Lemma jwksToKeys_lookup_witness :
  memberAt (jwksToKeys (Some Books.jwks)) "constructor" = Inherited.
Proof.
  pose proof (@jwksToKeys_lookup Books.jwks "constructor") as H.
  cbv zeta in H. destruct H as [_ [Hnone _]].
  rewrite (Hnone eq_refl). reflexivity.
Defined.

Lemma authenticate_refusals_witness :
  authenticate Forged.jwt_decode (Some Forged.keys) (Some "Bearer garbage")
  = Reply tokenInvalid.
Proof.
  destruct (@authenticate_refusals Forged.jwt_decode (Some Forged.keys))
    as [_ [_ [Hinvalid _]]].
  apply (Hinvalid "garbage"); [reflexivity | left; reflexivity].
Defined.

Lemma authenticate_double_bearer_witness :
  authenticate Forged.jwt_decode (Some Forged.keys)
    (Some ("Bearer Bearer " ++ Forged.token))
  = Next (userOfPayload Forged.payload).
Proof.
  rewrite (@authenticate_double_bearer Forged.jwt_decode (Some Forged.keys)
             Forged.token eq_refl).
  reflexivity.
Defined.

Lemma guardedRegistration_passes_iff_witness :
  guardedRegistration Forged.jwt_decode (Some Forged.keys) Role.manager
    (Some ("Bearer " ++ Forged.token))
  = Next (userOfPayload Forged.payload).
Proof.
  apply (@guardedRegistration_passes_iff Forged.jwt_decode Forged.keys
           Forged.token Forged.decoded "k1"
           "-----BEGIN RSA PUBLIC KEY-----
AQAB
-----END RSA PUBLIC KEY-----" Role.manager);
    try reflexivity; try discriminate.
  split; reflexivity.
Defined.

Lemma optionalAuth_anonymous_iff_witness :
  optionalAuth Forged.jwt_decode (Some Forged.keys) (Some "Bearer garbage")
  = Respond tokenInvalid.
Proof.
  destruct (@optionalAuth_anonymous_iff Forged.jwt_decode (Some Forged.keys)
              (Some "Bearer garbage")) as [_ Hresponds].
  apply (Hresponds "Bearer garbage"); reflexivity.
Defined.

(** The manager marks the pending June rent as completed: afterwards the
    store holds the payment with that status. *)
Lemma updatePaymentStatus_any_transition_witness :
  exists updated,
    In updated
      (payments
         (snd (updatePaymentStatus (mkEnv "-" 11) (Some Scenario.m1) "pay1"
                 Books.completed Books.paid)))
    /\ Payment.id updated = "pay1"
    /\ Payment.status updated = PaymentStatus.COMPLETED.
Proof.
  destruct (@updatePaymentStatus_any_transition (mkEnv "-" 11) Scenario.m1
              "pay1" Books.completed Books.paid Books.payment1
              (fst (updatePaymentStatus (mkEnv "-" 11) (Some Scenario.m1)
                      "pay1" Books.completed Books.paid))
              (snd (updatePaymentStatus (mkEnv "-" 11) (Some Scenario.m1)
                      "pay1" Books.completed Books.paid))
              eq_refl eq_refl eq_refl)
    as [updated [_ [Hin [Hid Hrows]]]].
  exists updated. split; [exact Hin|]. split; [exact Hid|].
  destruct (Hrows updated Hin Hid) as [Hstatus _]. exact Hstatus.
Defined.

Lemma updatePaymentStatus_frame_witness :
  leases (snd (updatePaymentStatus (mkEnv "-" 11) (Some Scenario.m1) "pay1"
                 Books.completed Books.paid))
  = leases Books.paid.
Proof.
  destruct (@updatePaymentStatus_frame (mkEnv "-" 11) (Some Scenario.m1)
              "pay1" Books.completed Books.paid
              (fst (updatePaymentStatus (mkEnv "-" 11) (Some Scenario.m1)
                      "pay1" Books.completed Books.paid))
              (snd (updatePaymentStatus (mkEnv "-" 11) (Some Scenario.m1)
                      "pay1" Books.completed Books.paid))
              eq_refl) as [_ [_ [_ [Hleases _]]]].
  exact Hleases.
Defined.

(** A manager of no property is answered 404 for the first payment. *)
Lemma updatePaymentStatus_refuses_strangers_witness :
  updatePaymentStatus (mkEnv "-" 11) (Some Books.m2) "pay1" Books.completed
    Books.paid
  = (Answer.failure 404 "Payment not found or access denied"
       "PAYMENT_NOT_FOUND", Books.paid).
Proof.
  destruct (@updatePaymentStatus_refuses_strangers (mkEnv "-" 11) Books.m2
              "pay1" Books.completed Books.paid) as [_ Hstranger].
  apply Hstranger; [reflexivity|].
  intros p Hin _. simpl in Hin.
  destruct Hin as [<-|[<-|[]]]; reflexivity.
Defined.

(** The second tenant asks for the first tenant's payment. *)
Lemma getPaymentById_shows_only_visible_witness :
  fst (getPaymentById (mkEnv "-" 11) (Some Scenario.t2) "pay1" Books.paid)
  = Answer.failure 404 "Payment not found or access denied"
      "PAYMENT_NOT_FOUND".
Proof.
  destruct (@getPaymentById_shows_only_visible (mkEnv "-" 11) Scenario.t2
              "pay1" Books.paid) as [_ [_ Hhidden]].
  apply Hhidden.
  intros p Hin _. simpl in Hin.
  destruct Hin as [<-|[<-|[]]]; reflexivity.
Defined.

Lemma createPaymentRecord_then_getPaymentById_witness :
  Answer.status
    (fst (getPaymentById (mkEnv "-" 11) (Some Scenario.m1) "pay1"
            (snd (createPaymentRecord (mkEnv "pay1" 9) (Some Scenario.m1)
                    Ledger.rentOnLease1 Scenario.ended))))
  = 200.
Proof.
  destruct (@createPaymentRecord_then_getPaymentById (mkEnv "pay1" 9)
              Scenario.m1 Ledger.rentOnLease1 Scenario.ended
              (fst (createPaymentRecord (mkEnv "pay1" 9) (Some Scenario.m1)
                      Ledger.rentOnLease1 Scenario.ended))
              (snd (createPaymentRecord (mkEnv "pay1" 9) (Some Scenario.m1)
                      Ledger.rentOnLease1 Scenario.ended))
              eq_refl eq_refl) as [payment [_ [_ [Hmanager _]]]].
  change (uuid (mkEnv "pay1" 9)) with "pay1" in Hmanager.
  rewrite (Hmanager (mkEnv "-" 11)). reflexivity.
Defined.

Lemma insertionOrder_rearranges : rearranges Books.insertionOrder.
Proof.
  intros field desc rows ordered H. injection H as <-.
  apply Permutation_refl.
Qed.

Lemma tenant1List_listed :
  Answer.data (fst (getTenantPayments Books.insertionOrder (Some Scenario.t1)
                      Books.firstPage Books.paid))
  = Some Books.tenant1List.
Proof. reflexivity. Qed.

Lemma payment_lists_keep_to_the_caller_witness :
  tenantPaymentFilter "t1" Books.firstPage Books.payment1 = true.
Proof.
  destruct (@payment_lists_keep_to_the_caller Books.insertionOrder
              Scenario.t1 Books.firstPage Books.paid Books.tenant1List
              Books.payment1 insertionOrder_rearranges
              (or_introl eq_refl)) as [Htenant _].
  destruct (Htenant tenant1List_listed) as [_ [_ Hfilter]].
  exact Hfilter.
Defined.

Lemma payment_lists_pagination_witness :
  Pagination.totalCount (PaymentList.pagination Books.tenant1List)
  = countWhere (tenantPaymentFilter "t1" Books.firstPage)
      (payments Books.paid).
Proof.
  pose proof (@payment_lists_pagination Books.insertionOrder Scenario.t1
                Books.firstPage Books.paid
                (tenantPaymentFilter "t1" Books.firstPage) Books.tenant1List
                insertionOrder_rearranges
                (or_introl (conj eq_refl tenant1List_listed))) as H.
  cbv zeta in H. destruct H as [Hcount _]. exact Hcount.
Defined.

Lemma payment_lists_stats_cover_the_page_witness :
  PaymentStats.totalAmount (PaymentList.stats Books.tenant1List)
  = sumCompleted (PaymentList.payments Books.tenant1List).
Proof.
  pose proof (@payment_lists_stats_cover_the_page Books.insertionOrder
                Scenario.t1 Books.firstPage Books.paid
                (tenantPaymentFilter "t1" Books.firstPage) Books.tenant1List
                insertionOrder_rearranges
                (or_introl (conj eq_refl tenant1List_listed))) as H.
  cbv zeta in H. destruct H as [_ [_ [_ Hamount]]]. exact Hamount.
Defined.

(** The second tenant asks for the first tenant's lease. *)
Lemma getLeaseById_shows_only_visible_witness :
  fst (getLeaseById (mkEnv "-" 11) (Some Scenario.t2) "l1"
         Scenario.firstActive)
  = Answer.failure 404 "Lease not found or access denied" "LEASE_NOT_FOUND".
Proof.
  destruct (@getLeaseById_shows_only_visible (mkEnv "-" 11) Scenario.t2 "l1"
              Scenario.firstActive) as [_ [_ Hhidden]].
  apply Hhidden.
  intros l Hin Hid. simpl in Hin.
  destruct Hin as [<-|[<-|[]]]; [reflexivity | discriminate Hid].
Defined.

(** One millisecond before the end date the active lease has one day left. *)
Lemma daysUntilExpiry_rounds_up_witness :
  LeaseMetrics.daysUntilExpiry
    (leaseMetrics (Scenario.dec31 - 1) Scenario.firstActive Scenario.lease1)
  = Some 1%Z.
Proof.
  destruct (@daysUntilExpiry_rounds_up (Scenario.dec31 - 1)
              Scenario.firstActive Scenario.lease1) as [_ Hactive].
  destruct (Hactive eq_refl) as [d [Hd [Hbounds _]]].
  rewrite Hd. f_equal.
  change (Lease.endDate Scenario.lease1) with Scenario.dec31 in Hbounds.
  unfold MS_PER_DAY in Hbounds. lia.
Defined.

(** The June rent enters the totals of the first lease once it is marked
    as completed. *)
Lemma recorded_payment_in_lease_metrics_witness :
  LeaseMetrics.totalPaid
    (leaseMetrics 0
       (snd (updatePaymentStatus (mkEnv "-" 11) (Some Scenario.m1) "pay1"
               Books.completed
               (snd (createPaymentRecord (mkEnv "pay1" 9) (Some Scenario.m1)
                       Ledger.rentOnLease1 Scenario.ended))))
       Scenario.lease1Ended)
  = 50000%Z.
Proof.
  pose proof (@recorded_payment_in_lease_metrics (mkEnv "pay1" 9) Scenario.m1
                Ledger.rentOnLease1 Scenario.ended
                (fst (createPaymentRecord (mkEnv "pay1" 9) (Some Scenario.m1)
                        Ledger.rentOnLease1 Scenario.ended))
                (snd (createPaymentRecord (mkEnv "pay1" 9) (Some Scenario.m1)
                        Ledger.rentOnLease1 Scenario.ended))
                (mkEnv "-" 11) Books.completed 0%Z Scenario.lease1Ended
                eq_refl eq_refl eq_refl) as H.
  cbv zeta in H. destruct H as [_ [_ [_ [_ Hpaid]]]].
  change (uuid (mkEnv "pay1" 9)) with "pay1" in Hpaid.
  rewrite Hpaid. reflexivity.
Defined.

Lemma keysUnique_store0 : keysUnique Scenario.store0.
Proof. repeat split; constructor. Qed.

Lemma keysUnique_ended : keysUnique Scenario.ended.
Proof.
  repeat split; simpl; repeat constructor; simpl; intuition discriminate.
Qed.

Lemma run_keeps_keys_unique_witness :
  keysUnique (serveAll Books.settled Scenario.store0).
Proof.
  apply (@run_keeps_keys_unique Books.settled Scenario.store0).
  exact keysUnique_store0.
Defined.

(** The approved first application outlives a withdrawal and a rejection
    that come too late. *)
Lemma run_keeps_decided_applications_witness :
  In Scenario.application1
    (applications
       (run [ (mkEnv "-" 11,
               WithdrawApplication (Some Scenario.t1) "a1");
              (mkEnv "-" 12,
               UpdateApplicationStatus (Some Scenario.m1) "a1" "REJECTED") ]
          Scenario.ended)).
Proof.
  apply (@run_keeps_decided_applications _ Scenario.ended
           Scenario.application1 keysUnique_ended).
  - simpl. auto.
  - discriminate.
Defined.

Lemma run_moves_leases_forward_witness :
  exists l',
    In l' (leases
             (run [ (mkEnv "-" 11,
                     UpdateLeaseStatus (Some Scenario.m1) "l1" "ACTIVE");
                    (mkEnv "-" 12,
                     UpdateLeaseStatus (Some Scenario.m1) "l2" "TERMINATED") ]
                Scenario.ended))
    /\ laterOf Scenario.lease1Ended l'.
Proof.
  apply (@run_moves_leases_forward _ Scenario.ended Scenario.lease1Ended
           keysUnique_ended).
  simpl. auto.
Defined.

Lemma run_keeps_leases_with_their_applications_witness :
  leasesFollowApplications Books.paid.
Proof.
  apply (@run_keeps_leases_with_their_applications Books.bothRecorded
           Scenario.store0 keysUnique_store0).
  intros l applicationId Hin. destruct Hin.
Defined.

Lemma run_keeps_one_lease_per_application_witness :
  oneLeasePerApplication Books.paid.
Proof.
  apply (@run_keeps_one_lease_per_application Books.bothRecorded
           Scenario.store0).
  intros l l' applicationId Hin. destruct Hin.
Defined.

Lemma run_keeps_payments_with_their_leases_witness :
  paymentsFollowLeases (serveAll Books.settled Scenario.store0).
Proof.
  apply (@run_keeps_payments_with_their_leases Books.settled
           Scenario.store0).
  intros p leaseId Hin. destruct Hin.
Defined.

(** A tenant asks for a lease to be drafted. *)
Lemma handlers_check_the_caller_witness :
  handle (mkEnv "l9" 11) (CreateLease (Some Scenario.t1) Scenario.terms1)
    Scenario.approved
  = (managerRequired, Scenario.approved).
Proof.
  destruct (@handlers_check_the_caller (mkEnv "l9" 11)
              (CreateLease (Some Scenario.t1) Scenario.terms1)
              Scenario.approved) as [_ Hrole].
  apply (Hrole Scenario.t1); [reflexivity | discriminate].
Defined.

(** Both applications are still pending. *)
Lemma createLease_needs_approved_application_witness :
  createLease (mkEnv "l1" 5) (Some Scenario.m1) Scenario.terms1
    Scenario.applied
  = (Response.failure 404 "Approved application not found or access denied"
       "APPLICATION_NOT_FOUND" NoData, Scenario.applied).
Proof.
  apply (@createLease_needs_approved_application (mkEnv "l1" 5) Scenario.m1
           Scenario.terms1 Scenario.applied eq_refl).
  intros a Hin _. left. simpl in Hin.
  destruct Hin as [<-|[<-|[]]]; discriminate.
Defined.

(** With no application named, the lease is drafted as if the only
    approved application had been named. *)
Lemma createLease_without_applicationId_witness :
  createLease (mkEnv "l1" 5) (Some Scenario.m1) Books.termsUnnamed
    Books.oneApproved
  = createLease (mkEnv "l1" 5) (Some Scenario.m1)
      (withApplicationId Books.termsUnnamed (Some "a1")) Books.oneApproved.
Proof.
  apply (@createLease_without_applicationId (mkEnv "l1" 5) Scenario.m1
           Books.termsUnnamed Books.oneApproved Scenario.application1
           eq_refl eq_refl).
Defined.

(** A ten digit number with its leading zero keeps nine digits after the
    country code. *)
Lemma PhoneNumberSchema_normalises_witness :
  exists digits,
    "+92312345678" = "+92" ++ digits /\ String.length digits = 9%nat.
Proof.
  destruct (@PhoneNumberSchema_normalises "0312345678" "+92312345678"
              eq_refl) as [digits [Hy _]].
  exists digits. split; [exact Hy|].
  simpl in Hy. injection Hy as <-. reflexivity.
Defined.
